(** * Legal-document assistant: the React front end and the analysis parser

    A shallow embedding of the logic found in the front end of the
    legal-document assistant:

    - [components/RiskMeter.js]: [getRiskPercentage] and the colour of the
      bar;
    - the application module (the file that defines [App], [DocumentAnalysis]
      and [DocumentsDashboard]) and [components/ExportReport.js]:
      [getRiskLevel], the effect that runs when a document is opened
      ([useEffect]), [analyzeDocument], [loadChatHistory], [askQuestion] and
      the numbering of the clauses tab;
    - the analysis response parser of the back end, whose source is not part
      of the front-end tree, modelled from its specification.

    JavaScript strings are modelled as [string] (a sequence of bytes, UTF-8
    for text outside ASCII).  All keywords the code searches for are ASCII, so
    searching bytes and searching UTF-16 code units find the same matches.
    The test [!s.trim()] of the front end is modelled with the whole white
    space of JavaScript; letter case is modelled for ASCII text, and the
    properties that depend on the case of arbitrary text assume ASCII. *)

From Stdlib Require Import String Ascii List Bool Arith ZArith QArith Sorted Lia.
From Stdlib Require Import DecimalString.
Import ListNotations.

Close Scope Q_scope.
Open Scope list_scope.
Open Scope string_scope.
Open Scope nat_scope.

(** ** JavaScript string primitives *)

Module JsString.

(** [String.prototype.toLowerCase], on the ASCII letters; the bytes of a
    character outside ASCII are left as they are.  See the note at
    [RiskLevel.classify] for why this is enough for the keyword search. *)
Definition lowerChar (c : ascii) : ascii :=
  let n := nat_of_ascii c in
  if (65 <=? n) && (n <=? 90) then ascii_of_nat (n + 32) else c.

Fixpoint toLowerCase (s : string) : string :=
  match s with
  | EmptyString => EmptyString
  | String c s' => String (lowerChar c) (toLowerCase s')
  end.

(** [s.startsWith(p)] *)
Fixpoint startsWith (s p : string) {struct p} : bool :=
  match p, s with
  | EmptyString, _ => true
  | String _ _, EmptyString => false
  | String b p', String a s' => Ascii.eqb a b && startsWith s' p'
  end.

(** [s.includes(sub)] *)
Fixpoint includes (s sub : string) : bool :=
  match s with
  | EmptyString => startsWith EmptyString sub
  | String _ s' => startsWith s sub || includes s' sub
  end.

(** ASCII white space: space, tab, line feed, vertical tab, form feed,
    carriage return. *)
Definition isSpace (c : ascii) : bool :=
  let n := nat_of_ascii c in
  (n =? 32) || ((9 <=? n) && (n <=? 13)).

Fixpoint dropSpaces (s : string) : string :=
  match s with
  | EmptyString => EmptyString
  | String c s' => if isSpace c then dropSpaces s' else s
  end.

(** The text consists of ASCII white space only.  This is the blank test of
    the parser; the front end tests [!s.trim()], which is [trimsToEmpty]
    below. *)
Fixpoint isBlank (s : string) : bool :=
  match s with
  | EmptyString => true
  | String c s' => isSpace c && isBlank s'
  end.

(** Removes trailing white space. *)
Fixpoint dropTrailingSpaces (s : string) : string :=
  match s with
  | EmptyString => EmptyString
  | String c s' => if isBlank s then EmptyString else String c (dropTrailingSpaces s')
  end.

(** [s.trim()], for ASCII white space. *)
Definition trim (s : string) : string := dropTrailingSpaces (dropSpaces s).

(** The white space of JavaScript outside ASCII, as [trim] knows it
    (WhiteSpace and LineTerminator of ECMAScript), in UTF-8: U+00A0 in two
    bytes; U+1680, U+2000 to U+200A, U+2028, U+2029, U+202F, U+205F, U+3000
    and U+FEFF in three. *)
Definition isSpace2 (c1 c2 : ascii) : bool :=
  (nat_of_ascii c1 =? 194) && (nat_of_ascii c2 =? 160).

Definition isSpace3 (c1 c2 c3 : ascii) : bool :=
  let n1 := nat_of_ascii c1 in
  let n2 := nat_of_ascii c2 in
  let n3 := nat_of_ascii c3 in
  ((n1 =? 225) && (n2 =? 154) && (n3 =? 128))
  || ((n1 =? 226) && (n2 =? 128)
      && (((128 <=? n3) && (n3 <=? 138)) || (n3 =? 168) || (n3 =? 169) || (n3 =? 175)))
  || ((n1 =? 226) && (n2 =? 129) && (n3 =? 159))
  || ((n1 =? 227) && (n2 =? 128) && (n3 =? 128))
  || ((n1 =? 239) && (n2 =? 187) && (n3 =? 191)).

(** [s.trim() === ''], that is [!s.trim()]: the text is a sequence of white
    space characters of JavaScript, ASCII or not. *)
Fixpoint trimsToEmpty (s : string) : bool :=
  match s with
  | EmptyString => true
  | String c1 s1 =>
      if isSpace c1 then trimsToEmpty s1
      else
        match s1 with
        | EmptyString => false
        | String c2 s2 =>
            if isSpace2 c1 c2 then trimsToEmpty s2
            else
              match s2 with
              | EmptyString => false
              | String c3 s3 => if isSpace3 c1 c2 c3 then trimsToEmpty s3 else false
              end
        end
  end.

(** [sub] occurs in [s] as a contiguous run. *)
Definition Occurs (sub s : string) : Prop :=
  exists pre post, s = pre ++ sub ++ post.

End JsString.

Import JsString.

(** ** Data of the front end *)

(** One element of [analysis.key_clauses]: the clauses tab reads [clause] and
    [explanation]. *)
Record Clause := mkClause {
  clause : string;
  explanation : string
}.

(** The [analysis] state of [DocumentAnalysis] when it is not [null].
    [risk_assessment] may be missing from a response ([None]). *)
Record Analysis := mkAnalysis {
  summary : string;
  key_clauses : list Clause;
  risk_assessment : option string
}.

(** A document as the API lists it.  A field the JSON object does not carry
    (or carries as [null]) is [None]. *)
Record Document := mkDocument {
  id : string;
  filename : string;
  analysis_status : string;
  doc_summary : option string;
  doc_key_clauses : option (list Clause);
  doc_risk_assessment : option string
}.

(** JavaScript truthiness of a value that is a string when present. *)
Definition truthy (v : option string) : bool :=
  match v with
  | Some (String _ _) => true
  | _ => false
  end.

(** ** Risk level ([App.js] and [ExportReport.js]) *)

Module RiskLevel.

(** The body of [getRiskLevel] after the guard, on the lower-cased text.

    Only two characters outside ASCII lower to a sequence with an ASCII
    letter: U+212A (Kelvin sign, to "k") and U+0130 (dotted capital I, to "i"
    followed by U+0307).  No keyword below has a "k", and every "i" of a
    keyword is followed by another letter of the keyword, which U+0307 is
    not; so the search finds the same keywords in the bytes lowered by
    [toLowerCase] as JavaScript finds in the lowered string. *)
Definition classify (riskText : string) : string :=
  if includes riskText "high" || includes riskText "severe" || includes riskText "critical"
  then "high"
  else if includes riskText "medium" || includes riskText "moderate"
  then "medium"
  else "low".

(** [analysis?.risk_assessment] *)
Definition risk_assessment_of (analysis : option Analysis) : option string :=
  match analysis with
  | None => None
  | Some a => risk_assessment a
  end.

(** [getRiskLevel] of [DocumentAnalysis]; [analysis] is the component's
    state, [None] for [null]. *)
Definition getRiskLevel (analysis : option Analysis) : string :=
  match risk_assessment_of analysis with
  | Some text =>
      if negb (truthy (Some text)) then "low"
      else classify (toLowerCase text)
  | None => "low"
  end.

(** [getRiskLevel] of [ExportReport]: the same text, on the [analysis]
    prop of that component. *)
Definition getRiskLevel_export (analysis : option Analysis) : string :=
  match risk_assessment_of analysis with
  | Some text =>
      if negb (truthy (Some text)) then "low"
      else classify (toLowerCase text)
  | None => "low"
  end.

End RiskLevel.

(** ** The risk meter ([RiskMeter.js]) *)

Module RiskMeter.

(** A JavaScript number: a finite value (every finite double is a
    rational), or one of the three special values. *)
Inductive JsNumber :=
| Finite (q : Q)
| NaN
| PosInfinity
| NegInfinity.

(** What a caller may pass as [riskScore]. *)
Inductive JsValue :=
| Num (x : JsNumber)
| NotANumber.   (* a string, a boolean, null, an object: typeof is not 'number' *)

Record Props := mkProps {
  riskLevel : option string;   (* None: the prop is omitted *)
  riskScore : option JsValue   (* None: the prop is omitted *)
}.

(** Destructuring defaults: [{ riskLevel = 'low', riskScore = 0 }]. *)
Definition riskLevel_of (p : Props) : string :=
  match riskLevel p with Some l => l | None => "low" end.

Definition riskScore_of (p : Props) : JsValue :=
  match riskScore p with Some v => v | None => Num (Finite 0%Q) end.

(** [typeof riskScore === 'number' && riskScore >= 0 && riskScore <= 100] *)
Definition scoreInRange (v : JsValue) : bool :=
  match v with
  | Num (Finite q) => Qle_bool 0%Q q && Qle_bool q 100%Q
  | Num NaN => false
  | Num PosInfinity => false
  | Num NegInfinity => false
  | NotANumber => false
  end.

(** The [switch (riskLevel.toLowerCase())]. *)
Definition levelPercentage (level : string) : JsNumber :=
  let l := toLowerCase level in
  if String.eqb l "high" then Finite 85%Q
  else if String.eqb l "medium" then Finite 60%Q
  else if String.eqb l "low" then Finite 25%Q
  else Finite 50%Q.

Definition getRiskPercentage (p : Props) : JsNumber :=
  match riskScore_of p with
  | Num x => if scoreInRange (Num x) then x else levelPercentage (riskLevel_of p)
  | NotANumber => levelPercentage (riskLevel_of p)
  end.

Definition gt (x : JsNumber) (bound : Q) : bool :=
  match x with
  | Finite q => negb (Qle_bool q bound)
  | PosInfinity => true
  | _ => false
  end.

Definition riskColor (p : Props) : string :=
  let percentage := getRiskPercentage p in
  if gt percentage 70%Q then "#ff4444"
  else if gt percentage 40%Q then "#ffaa00"
  else "#44ff44".

(** The two call sites: [<RiskMeter riskLevel={getRiskLevel()} />] in the
    risks tab of [DocumentAnalysis] and in the header of [ExportReport]. *)
Definition props_DocumentAnalysis (analysis : option Analysis) : Props :=
  {| riskLevel := Some (RiskLevel.getRiskLevel analysis); riskScore := None |}.

Definition props_ExportReport (analysis : option Analysis) : Props :=
  {| riskLevel := Some (RiskLevel.getRiskLevel_export analysis); riskScore := None |}.

End RiskMeter.

(** ** The analysis view ([DocumentAnalysis] in [App.js]) *)

(** How an awaited HTTP call ends. *)
Inductive Outcome (A : Type) :=
| Resolved (data : A)
| Rejected (error : string).
Arguments Resolved {A} data.
Arguments Rejected {A} error.

(** The requests the component sends. *)
Inductive Request :=
| PostAnalyze (document_id : string)          (* POST /documents/:id/analyze *)
| GetChat (document_id : string)              (* GET  /documents/:id/chat *)
| PostAsk (document_id question : string).    (* POST /documents/ask *)

Inductive Effect :=
| Http (r : Request)
| ConsoleError (label : string)
| Alert (message : string).

(** One element of [chatHistory].  [timestamp] is the time value of the
    [Date] the entry was stamped with, in milliseconds; [toISOString] prints
    it. *)
Record ChatEntry := mkChatEntry {
  chat_question : string;
  chat_answer : string;
  timestamp : Z
}.

Module DocumentAnalysis.

(** The seven [useState] cells. *)
Record State := mkState {
  analysis : option Analysis;
  isAnalyzing : bool;
  question : string;
  chatHistory : list ChatEntry;
  isAsking : bool;
  activeTab : string;
  showExport : bool
}.

Definition initial : State :=
  {| analysis := None; isAnalyzing := false; question := "";
     chatHistory := []; isAsking := false; activeTab := "summary";
     showExport := false |}.

Definition setAnalysis (v : option Analysis) (st : State) : State :=
  {| analysis := v; isAnalyzing := isAnalyzing st; question := question st;
     chatHistory := chatHistory st; isAsking := isAsking st;
     activeTab := activeTab st; showExport := showExport st |}.

Definition setIsAnalyzing (v : bool) (st : State) : State :=
  {| analysis := analysis st; isAnalyzing := v; question := question st;
     chatHistory := chatHistory st; isAsking := isAsking st;
     activeTab := activeTab st; showExport := showExport st |}.

Definition setQuestion (v : string) (st : State) : State :=
  {| analysis := analysis st; isAnalyzing := isAnalyzing st; question := v;
     chatHistory := chatHistory st; isAsking := isAsking st;
     activeTab := activeTab st; showExport := showExport st |}.

(** [setChatHistory] takes an updater, as in [setChatHistory(prev => ...)]. *)
Definition setChatHistory (f : list ChatEntry -> list ChatEntry) (st : State) : State :=
  {| analysis := analysis st; isAnalyzing := isAnalyzing st; question := question st;
     chatHistory := f (chatHistory st); isAsking := isAsking st;
     activeTab := activeTab st; showExport := showExport st |}.

Definition setIsAsking (v : bool) (st : State) : State :=
  {| analysis := analysis st; isAnalyzing := isAnalyzing st; question := question st;
     chatHistory := chatHistory st; isAsking := v;
     activeTab := activeTab st; showExport := showExport st |}.

Definition setActiveTab (v : string) (st : State) : State :=
  {| analysis := analysis st; isAnalyzing := isAnalyzing st; question := question st;
     chatHistory := chatHistory st; isAsking := isAsking st;
     activeTab := v; showExport := showExport st |}.

(** *** [analyzeDocument]

    An [async] function runs up to its [await] when it is called and
    resumes when the awaited promise settles.  The two halves are two
    functions. *)

Definition analyzeDocument_call (doc : Document) (st : State) : State * list Effect :=
  (setIsAnalyzing true st, [Http (PostAnalyze (id doc))]).

Definition analyzeDocument_settle (response : Outcome Analysis) (st : State)
  : State * list Effect :=
  match response with
  | Resolved data =>
      (setIsAnalyzing false (setActiveTab "summary" (setAnalysis (Some data) st)), [])
  | Rejected _ =>
      (setIsAnalyzing false st,
       [ConsoleError "Analysis failed:"; Alert "Analysis failed. Please try again."])
  end.

(** *** [loadChatHistory] *)

Definition loadChatHistory_call (doc : Document) (st : State) : State * list Effect :=
  (st, [Http (GetChat (id doc))]).

Definition loadChatHistory_settle (response : Outcome (list ChatEntry)) (st : State)
  : State * list Effect :=
  match response with
  | Resolved data => (setChatHistory (fun _ => data) st, [])
  | Rejected _ => (st, [ConsoleError "Failed to load chat history:"])
  end.

(** *** The mount effect, [useEffect(..., [document])] *)

(** [x || d] on a value that is a string when present. *)
Definition or_string (x : option string) (d : string) : string :=
  match x with
  | Some (String c t) => String c t
  | _ => d
  end.

(** [x || []] on a value that is an array when present (an array, even an
    empty one, is truthy). *)
Definition or_array {A} (x : option (list A)) (d : list A) : list A :=
  match x with
  | Some l => l
  | None => d
  end.

Definition useEffect_document (doc : Document) (st : State) : State * list Effect :=
  let '(st1, eff1) :=
    if String.eqb (analysis_status doc) "completed" && truthy (doc_summary doc) then
      (setAnalysis
         (Some {| summary := or_string (doc_summary doc) "";
                  key_clauses := or_array (doc_key_clauses doc) [];
                  risk_assessment := Some (or_string (doc_risk_assessment doc) "") |})
         st, [])
    else if String.eqb (analysis_status doc) "pending" then
      analyzeDocument_call doc st
    else (st, []) in
  let '(st2, eff2) := loadChatHistory_call doc st1 in
  (st2, (eff1 ++ eff2)%list).

(** *** [askQuestion] *)

(** What the call leaves pending at its [await]: the [question] the closure
    captured. *)
Definition askQuestion_call (doc : Document) (st : State)
  : State * list Effect * option string :=
  if trimsToEmpty (question st) then (st, [], None)
  else (setIsAsking true st,
        [Http (PostAsk (id doc) (question st))],
        Some (question st)).

(** [now] is the reading of [new Date()] when the response is handled. *)
Definition askQuestion_settle (captured : string) (response : Outcome string) (now : Z)
  (st : State) : State * list Effect :=
  match response with
  | Resolved answer =>
      (setIsAsking false
         (setQuestion ""
            (setChatHistory
               (fun prev => (prev ++ [ {| chat_question := captured;
                                          chat_answer := answer;
                                          timestamp := now |} ])%list)
               st)),
       [])
  | Rejected _ =>
      (setIsAsking false st,
       [ConsoleError "Question failed:"; Alert "Failed to ask question. Please try again."])
  end.

(** One whole question: the user types [text] into the textarea
    ([onChange]), presses the button, and the request settles with
    [response] at clock reading [now]. *)
Record Ask := mkAsk {
  ask_text : string;
  ask_response : Outcome string;
  ask_now : Z
}.

Definition ask (doc : Document) (st : State) (a : Ask) : State :=
  match askQuestion_call doc (setQuestion (ask_text a) st) with
  | (st1, _, Some captured) =>
      fst (askQuestion_settle captured (ask_response a) (ask_now a) st1)
  | (st1, _, None) => st1
  end.

(** Questions asked one after the other, each handled before the next (the
    button is disabled while [isAsking]).  [Chat] below has the events one
    by one, with the history response of the mount effect among them. *)
Definition askAll (doc : Document) (st : State) (asks : list Ask) : State :=
  fold_left (ask doc) asks st.

(** [getChatHistory]: what the Q&A tab lists. *)
Definition getChatHistory (st : State) : list ChatEntry := chatHistory st.

(** The entry an accepted question leaves in the log. *)
Definition accepted (a : Ask) : bool :=
  negb (trimsToEmpty (ask_text a)) &&
  match ask_response a with Resolved _ => true | Rejected _ => false end.

Definition entry_of (a : Ask) : ChatEntry :=
  {| chat_question := ask_text a;
     chat_answer := match ask_response a with Resolved ans => ans | Rejected _ => "" end;
     timestamp := ask_now a |}.

End DocumentAnalysis.

(** ** Questions and the history request of one view

    The mount effect sends the history request of the view
    ([loadChatHistory]); the user types and presses "Ask AI" while that
    request is pending or after it.  The answers and the history response
    arrive in any order.  The other handlers of the view (analysis, tabs,
    export) neither read nor write [question], [chatHistory] and [isAsking]
    and are left out. *)

Module Chat.

Import DocumentAnalysis.

Inductive Event :=
| Typed (text : string)                               (* [onChange] of the textarea *)
| Pressed                                             (* a click on "Ask AI" *)
| Answered (response : Outcome string) (now : Z)      (* POST /documents/ask settles *)
| HistoryLoaded (response : Outcome (list ChatEntry)). (* GET /documents/:id/chat settles *)

(** The view with what is pending: the question captured by a call of
    [askQuestion] that waits for its answer, and whether the history request
    of the mount effect is still to settle. *)
Record Session := mkSession {
  state : State;
  asking : option string;
  loading : bool
}.

(** The view after the mount effect. *)
Definition mounted (doc : Document) : Session :=
  {| state := fst (useEffect_document doc initial); asking := None; loading := true |}.

(** The button: [disabled={isAsking || !question.trim()}]. *)
Definition askDisabled (st : State) : bool :=
  isAsking st || trimsToEmpty (question st).

Definition step (doc : Document) (w : Session) (e : Event) : Session :=
  match e with
  | Typed text =>
      {| state := setQuestion text (state w); asking := asking w; loading := loading w |}
  | Pressed =>
      if askDisabled (state w) then w
      else
        match askQuestion_call doc (state w) with
        | (st, _, Some captured) =>
            {| state := st; asking := Some captured; loading := loading w |}
        | (st, _, None) => {| state := st; asking := asking w; loading := loading w |}
        end
  | Answered response now =>
      match asking w with
      | Some captured =>
          {| state := fst (askQuestion_settle captured response now (state w));
             asking := None; loading := loading w |}
      | None => w
      end
  | HistoryLoaded response =>
      if loading w then
        {| state := fst (loadChatHistory_settle response (state w));
           asking := asking w; loading := false |}
      else w
  end.

Definition run (doc : Document) (w : Session) (events : list Event) : Session :=
  fold_left (step doc) events w.

(** The events of one question: typed, sent, settled. *)
Definition questionEvents (a : Ask) : list Event :=
  [Typed (ask_text a); Pressed; Answered (ask_response a) (ask_now a)].

(** Questions asked one after the other, in call order. *)
Definition questions (asks : list Ask) : list Event :=
  flat_map questionEvents asks.

(** No question waits for its answer. *)
Definition Idle (w : Session) : Prop :=
  asking w = None /\ isAsking (state w) = false.

(** The entries the view shows beyond the first [n]. *)
Definition entriesFrom (n : nat) (w : Session) : list ChatEntry :=
  skipn n (getChatHistory (state w)).

End Chat.

(** ** The clauses tab *)

Module ClausesTab.

(** [Array.prototype.map] with the index argument. *)
Fixpoint map_from {A B} (f : A -> nat -> B) (index : nat) (l : list A) : list B :=
  match l with
  | [] => []
  | x :: l' => f x index :: map_from f (S index) l'
  end.

Definition array_map {A B} (f : A -> nat -> B) (l : list A) : list B :=
  map_from f 0 l.

(** One rendered [clause-item]. *)
Record ClauseItem := mkClauseItem {
  clause_number : nat;      (* <span className="clause-number"> *)
  clause_heading : string;  (* <h4> *)
  clause_body : string      (* the markdown of the explanation *)
}.

Inductive View :=
| ClausesList (items : list ClauseItem)
| ClauseExtract (markdown : string).

Fixpoint string_of_bytes (l : list nat) : string :=
  match l with
  | [] => EmptyString
  | n :: l' => String (ascii_of_nat n) (string_of_bytes l')
  end.

(** The two markers of the fallback branch, byte for byte as they stand in
    [App.js]. *)
Definition KEY_CLAUSES_MARKER : string :=
  "## " ++ string_of_bytes [239; 163; 191; 195; 188; 195; 174; 195; 171] ++ " KEY CLAUSES".

Definition NEXT_MARKER : string :=
  "## " ++ string_of_bytes [226; 128; 154; 195; 182; 226; 128; 160; 195; 148; 226; 136; 143; 195; 168].

Fixpoint dropChars (n : nat) (s : string) : string :=
  match n, s with
  | S n', String _ s' => dropChars n' s'
  | _, _ => s
  end.

(** [s.split(sep)[0]] *)
Fixpoint beforeFirst (sep s : string) : string :=
  match s with
  | EmptyString => EmptyString
  | String c s' => if startsWith s sep then EmptyString else String c (beforeFirst sep s')
  end.

(** What follows the first occurrence of [sep]. *)
Fixpoint afterFirst (sep s : string) : string :=
  match s with
  | EmptyString => EmptyString
  | String _ s' => if startsWith s sep then dropChars (String.length sep) s else afterFirst sep s'
  end.

(** [s.split(sep)[1]], for an [s] that includes [sep]. *)
Definition split_1 (sep s : string) : string := beforeFirst sep (afterFirst sep s).

Definition clausesTab (a : Analysis) : View :=
  if 0 <? List.length (key_clauses a) then
    ClausesList
      (array_map
         (fun item index =>
            {| clause_number := index + 1;
               clause_heading := clause item;
               clause_body := explanation item |})
         (key_clauses a))
  else
    ClauseExtract
      (if includes (summary a) KEY_CLAUSES_MARKER then
         match beforeFirst NEXT_MARKER (split_1 KEY_CLAUSES_MARKER (summary a)) with
         | EmptyString => split_1 KEY_CLAUSES_MARKER (summary a)
         | text => text
         end
       else "Key clauses information not available").

(** The numbers shown next to the clauses. *)
Definition clauseNumbers (a : Analysis) : list nat :=
  match clausesTab a with
  | ClausesList items => map clause_number items
  | ClauseExtract _ => []
  end.

End ClausesTab.

(** ** Overlapping analysis requests

    [analyzeDocument] is called by the mount effect of a view opened on a
    pending document and by the "Analyze Document" button.  Between a call and
    the moment its request settles other handlers run: the user may go back
    to the dashboard and open the document again, which mounts a new view
    with fresh state while the request of the old view is still in flight.  A
    schedule is a list of such events, applied to the state of the view on
    display and to the log of requests sent. *)

Module Schedule.

Import DocumentAnalysis.

Inductive Event :=
| Open           (* the document is opened: a new view is mounted, its effect runs *)
| ClickAnalyze   (* the "Analyze Document" button of the view on display *)
| Settle (call : nat) (response : Outcome Analysis).
                 (* the request of call number [call] settles *)

Record World := mkWorld {
  ui : State;                        (* the state of the view on display *)
  view : nat;                        (* its number; 0 before the first view *)
  sent : list Request;               (* every request sent so far, in order *)
  calls : nat;                       (* analyzeDocument calls so far *)
  inFlight : list (nat * nat);       (* unsettled calls, each with the view that made it *)
  received : list (nat * Analysis)   (* what each settled call was handed *)
}.

Definition start : World :=
  {| ui := initial; view := 0; sent := []; calls := 0; inFlight := []; received := [] |}.

Definition requests (effects : list Effect) : list Request :=
  flat_map (fun e => match e with Http r => [r] | _ => [] end) effects.

Definition isAnalyze (r : Request) : bool :=
  match r with PostAnalyze _ => true | _ => false end.

(** Number of analysis requests in a log. *)
Definition analyzeCount (log : list Request) : nat :=
  List.length (filter isAnalyze log).

(** The world after a handler of view [v] ran up to its awaits, leaving
    state [fst res] and effects [snd res]. *)
Definition after_call (w : World) (v : nat) (res : State * list Effect) : World :=
  let n := analyzeCount (requests (snd res)) in
  {| ui := fst res;
     view := v;
     sent := (sent w ++ requests (snd res))%list;
     calls := calls w + n;
     inFlight := (inFlight w ++ map (fun c => (c, v)) (seq (calls w) n))%list;
     received := received w |}.

(** The button is rendered in the branch [isAnalyzing ? ... : analysis ? ...
    : <no-analysis>] only. *)
Definition buttonRendered (st : State) : bool :=
  negb (isAnalyzing st) && match analysis st with None => true | Some _ => false end.

(** The view that made a call in flight. *)
Definition ownerOf (k : nat) (pending : list (nat * nat)) : option nat :=
  match find (fun p => Nat.eqb k (fst p)) pending with
  | Some p => Some (snd p)
  | None => None
  end.

Definition step (doc : Document) (w : World) (e : Event) : option World :=
  match e with
  | Open => Some (after_call w (S (view w)) (useEffect_document doc initial))
  | ClickAnalyze =>
      if (0 <? view w) && buttonRendered (ui w)
      then Some (after_call w (view w) (analyzeDocument_call doc (ui w)))
      else None
  | Settle k response =>
      match ownerOf k (inFlight w) with
      | Some v =>
          (* the resumed call belongs to view [v]; the state setters of a view
             that was unmounted have no effect on the view on display *)
          let res := analyzeDocument_settle response (ui w) in
          Some {| ui := if Nat.eqb v (view w) then fst res else ui w;
                  view := view w;
                  sent := (sent w ++ requests (snd res))%list;
                  calls := calls w;
                  inFlight := filter (fun p => negb (Nat.eqb k (fst p))) (inFlight w);
                  received :=
                    match response with
                    | Resolved data => (received w ++ [(k, data)])%list
                    | Rejected _ => received w
                    end |}
      | None => None
      end
  end.

Fixpoint run (doc : Document) (w : World) (events : list Event) : option World :=
  match events with
  | [] => Some w
  | e :: events' =>
      match step doc w e with
      | Some w' => run doc w' events'
      | None => None
      end
  end.

(** Events of a schedule that call [analyzeDocument], given the document's
    status (the mount effect calls it for a pending document only, and not
    when the completed branch is taken). *)
Definition callsAnalyze (doc : Document) (e : Event) : bool :=
  match e with
  | Open =>
      negb (String.eqb (analysis_status doc) "completed" && truthy (doc_summary doc))
      && String.eqb (analysis_status doc) "pending"
  | ClickAnalyze => true
  | Settle _ _ => false
  end.

(** What the settled calls of a schedule were handed, in order. *)
Definition handed (events : list Event) : list (nat * Analysis) :=
  flat_map (fun e => match e with
                     | Settle k (Resolved data) => [(k, data)]
                     | _ => []
                     end) events.

(** Number of calls of view [v] in flight. *)
Definition inFlightOf (v : nat) (pending : list (nat * nat)) : nat :=
  List.length (filter (fun p => Nat.eqb v (snd p)) pending).

(** What every reachable world satisfies: calls in flight are numbered
    apart and were made by views that exist; the view on display shows its
    spinner exactly while a call of its own is in flight; no view has two. *)
Definition Consistent (w : World) : Prop :=
  NoDup (map fst (inFlight w))
  /\ (forall c v, In (c, v) (inFlight w) -> c < calls w /\ v <= view w)
  /\ inFlightOf (view w) (inFlight w) = (if isAnalyzing (ui w) then 1 else 0)
  /\ (forall v, inFlightOf v (inFlight w) <= 1).

End Schedule.

(** ** The analysis response parser

    The parser runs in the back end, whose source is not part of the
    front-end tree.  Every definition of this module follows section 4.1 of
    the specification. *)

Module Parser.

(** Modelled from the spec: the four recognized section headers, in their
    order of appearance. *)
Inductive Header :=
| ExecutiveSummary
| KeyClausesAnalysis
| RiskAssessment
| PlainEnglishExplanation.

Definition Header_eqb (a b : Header) : bool :=
  match a, b with
  | ExecutiveSummary, ExecutiveSummary => true
  | KeyClausesAnalysis, KeyClausesAnalysis => true
  | RiskAssessment, RiskAssessment => true
  | PlainEnglishExplanation, PlainEnglishExplanation => true
  | _, _ => false
  end.

Definition recognizedHeaders : list Header :=
  [ExecutiveSummary; KeyClausesAnalysis; RiskAssessment; PlainEnglishExplanation].

Definition headerText (h : Header) : string :=
  match h with
  | ExecutiveSummary => "EXECUTIVE SUMMARY"
  | KeyClausesAnalysis => "KEY CLAUSES ANALYSIS"
  | RiskAssessment => "RISK ASSESSMENT"
  | PlainEnglishExplanation => "PLAIN ENGLISH EXPLANATION"
  end.

(** Modelled from the spec: the data model of section 3 ([ClauseEntry],
    [AnalysisRecord]) and the tagged result of the parser. *)
Record ClauseEntry := mkClauseEntry {
  index : nat;
  title : string;
  explanation : string
}.

Record AnalysisRecord := mkAnalysisRecord {
  summary : list string;          (* ordered sequence of prose blocks *)
  keyClauses : list ClauseEntry;
  riskAssessment : string
}.

Inductive ParseError := EmptyInput.

Inductive ParseResult :=
| Ok (record : AnalysisRecord)
| Error (e : ParseError).

(** *** Lines *)

Definition LF : ascii := "010"%char.

(** Modelled from the spec: the text is read line by line ("on its own
    line", "at the start of a line"); a line feed separates two lines. *)
Fixpoint lines (s : string) : list string :=
  match s with
  | EmptyString => [EmptyString]
  | String c s' =>
      if Ascii.eqb c LF then EmptyString :: lines s'
      else match lines s' with
           | l :: ls => String c l :: ls
           | [] => [String c EmptyString]
           end
  end.

(** The lines of a section put together again: its content. *)
Fixpoint unlines (ls : list string) : string :=
  match ls with
  | [] => EmptyString
  | l :: ls' =>
      match ls' with
      | [] => l
      | _ :: _ => l ++ String LF (unlines ls')
      end
  end.

(** *** Header recognition *)

Definition upperChar (c : ascii) : ascii :=
  let n := nat_of_ascii c in
  if (97 <=? n) && (n <=? 122) then ascii_of_nat (n - 32) else c.

(** Modelled from the spec: "case-insensitive, exact token match after
    whitespace normalization": runs of white space become one space, white
    space at the end is dropped, letters are compared in upper case. *)
Fixpoint normalize (s : string) : string :=
  match s with
  | EmptyString => EmptyString
  | String c s' =>
      if isSpace c then
        match s' with
        | EmptyString => EmptyString
        | String d _ => if isSpace d then normalize s' else String " " (normalize s')
        end
      else String (upperChar c) (normalize s')
  end.

(** Modelled from the spec: "allowing markdown heading prefixes": the
    number signs that open a markdown heading. *)
Fixpoint dropHashes (s : string) : string :=
  match s with
  | String c s' => if Ascii.eqb c "#" then dropHashes s' else s
  | EmptyString => EmptyString
  end.

Definition headingText (line : string) : string :=
  normalize (dropSpaces (dropHashes (dropSpaces line))).

(** Modelled from the spec: a line is a recognized header when, its heading
    prefix removed, it is exactly one of the four header texts. *)
Definition headerOf (line : string) : option Header :=
  find (fun h => String.eqb (headingText line) (headerText h)) recognizedHeaders.

(** *** Segmentation *)

(** Modelled from the spec: "each header begins a new section; a section's
    content is all text up to the next recognized header or end-of-input".
    The result is the lines before the first recognized header and the
    sections in their order, each with the lines of its content. *)
Fixpoint segment (ls : list string) : list string * list (Header * list string) :=
  match ls with
  | [] => ([], [])
  | l :: ls' =>
      let (leading, sections) := segment ls' in
      match headerOf l with
      | Some h => ([], (h, leading) :: sections)
      | None => (l :: leading, sections)
      end
  end.

(** The content lines filed under header [h]; a header that comes back
    continues its section. *)
Definition sectionLines (h : Header) (sections : list (Header * list string)) : list string :=
  flat_map (fun s => if Header_eqb h (fst s) then snd s else []) sections.

(** *** Summary *)

(** Modelled from the spec: the "fixed placeholder string signaling no
    summary extracted". *)
Definition NO_SUMMARY : string := "No summary extracted".

(** Modelled from the spec: the summary holds the EXECUTIVE SUMMARY content
    if present, with the content before the first recognized header
    appended to it; without both, the placeholder. *)
Definition buildSummary (executive leading : string) : list string :=
  let unstructured := if isBlank leading then [] else [leading] in
  if negb (isBlank executive) then executive :: unstructured
  else match unstructured with
       | [] => [NO_SUMMARY]
       | _ :: _ => unstructured
       end.

(** *** Clause extraction *)

Definition isDigit (c : ascii) : bool :=
  let n := nat_of_ascii c in (48 <=? n) && (n <=? 57).

Fixpoint dropDigits (s : string) : string :=
  match s with
  | EmptyString => EmptyString
  | String c s' => if isDigit c then dropDigits s' else s
  end.

Definition isSeparator (c : ascii) : bool :=
  Ascii.eqb c "." || Ascii.eqb c ")".

(** Modelled from the spec: a numbered marker is a "leading integer +
    separator" at the start of a line ("1.", "2)"); the result is what
    follows the marker on that line. *)
Definition markerRest (line : string) : option string :=
  match line with
  | EmptyString => None
  | String c _ =>
      if isDigit c then
        match dropDigits line with
        | String sep rest => if isSeparator sep then Some rest else None
        | EmptyString => None
        end
      else None
  end.

(** Modelled from the spec: the section is cut at its numbered markers. The
    result is the lines before the first marker and the numbered
    sub-segments, each starting with the rest of its marker line. *)
Fixpoint subSegments (ls : list string) : list string * list (list string) :=
  match ls with
  | [] => ([], [])
  | l :: ls' =>
      let (before, segments) := subSegments ls' in
      match markerRest l with
      | Some rest => ([], (rest :: before) :: segments)
      | None => (l :: before, segments)
      end
  end.

(** A sentence break or a line break ends the title.  The colon counts as a
    break: the specification's scenario cuts "Payment Terms: Rent due
    monthly." after "Payment Terms". *)
Definition isBreak (c : ascii) : bool :=
  Ascii.eqb c LF || Ascii.eqb c "." || Ascii.eqb c ":" || Ascii.eqb c "!" || Ascii.eqb c "?".

Fixpoint splitTitle (s : string) : string * string :=
  match s with
  | EmptyString => (EmptyString, EmptyString)
  | String c s' =>
      if isBreak c then (EmptyString, s')
      else let (t, rest) := splitTitle s' in (String c t, rest)
  end.

(** Modelled from the spec: "the text immediately following the number up
    to the first sentence break or line break becomes title, the remainder
    becomes explanation". *)
Definition clauseOf (position : nat) (subSegment : list string) : ClauseEntry :=
  let (t, rest) := splitTitle (unlines subSegment) in
  {| index := position; title := trim t; explanation := trim rest |}.

(** [index] is the 1-based position in extraction order. *)
Fixpoint numberFrom (position : nat) (segments : list (list string)) : list ClauseEntry :=
  match segments with
  | [] => []
  | s :: segments' => clauseOf position s :: numberFrom (S position) segments'
  end.

Definition GENERAL_CLAUSES : string := "General Clauses".

(** Modelled from the spec: clause extraction within the KEY CLAUSES
    ANALYSIS section; without a numbered marker the entire section becomes
    one entry titled "General Clauses" with index 1. *)
Definition extractClauses (content : list string) : list ClauseEntry :=
  match snd (subSegments content) with
  | [] => [ {| index := 1; title := GENERAL_CLAUSES; explanation := unlines content |} ]
  | s :: segments => numberFrom 1 (s :: segments)
  end.

(** *** The parser *)

(** Modelled from the spec: the AnalysisResponseParser of section 4.1, the
    function from one raw text to an [AnalysisRecord] or [EmptyInput]. *)
Definition parse (raw : string) : ParseResult :=
  if isBlank raw then Error EmptyInput
  else
    let (leading, sections) := segment (lines raw) in
    Ok {| summary := buildSummary (unlines (sectionLines ExecutiveSummary sections))
                                  (unlines leading);
          keyClauses := extractClauses (sectionLines KeyClausesAnalysis sections);
          riskAssessment := unlines (sectionLines RiskAssessment sections) |}.

(** *** Notions used to state the properties *)

(** The text consists of white space only (the empty text included). *)
Definition WhitespaceOnly (s : string) : Prop :=
  forall c, In c (list_ascii_of_string s) -> isSpace c = true.

(** No line of the text is a recognized header. *)
Definition NoHeader (raw : string) : Prop :=
  Forall (fun l => headerOf l = None) (lines raw).

(** The remaining lines start with a recognized header, or nothing
    remains. *)
Definition AtBoundary (rest : list string) : Prop :=
  rest = [] \/ exists l rest', rest = l :: rest' /\ headerOf l <> None.

(** [content] is the text before the first recognized header of [raw]: the
    lines before the first header line, or the whole text when there is no
    header. *)
Definition LeadingContent (raw content : string) : Prop :=
  exists before rest,
    lines raw = (before ++ rest)%list /\
    Forall (fun l => headerOf l = None) before /\
    AtBoundary rest /\
    content = unlines before.

(** The lines [body] are the content of a section opened by a header line
    for [h] within the lines [ls]: they run from that line to the next
    header line or to the end. *)
Definition SectionAt (ls : list string) (h : Header) (body : list string) : Prop :=
  exists before l rest,
    ls = (before ++ l :: body ++ rest)%list /\
    headerOf l = Some h /\
    Forall (fun l => headerOf l = None) body /\
    AtBoundary rest.

(** [content] is the content of a section of [raw] opened by header [h]. *)
Definition SectionContent (raw : string) (h : Header) (content : string) : Prop :=
  exists body, SectionAt (lines raw) h body /\ content = unlines body.

End Parser.

(** ** Notions used to state the properties of the front end *)

Module RiskLevelSpec.

Definition HIGH_WORDS : list string := ["high"; "severe"; "critical"].
Definition MEDIUM_WORDS : list string := ["medium"; "moderate"].

(** Some contiguous part of [text] spells [keyword] when letter case is
    ignored; the part may lie inside a longer word. *)
Definition OccursIgnoringCase (keyword text : string) : Prop :=
  exists pre mid post, text = pre ++ mid ++ post /\ toLowerCase mid = keyword.

Definition Mentions (keywords : list string) (text : string) : Prop :=
  exists keyword, In keyword keywords /\ OccursIgnoringCase keyword text.

(** The classification in words: [Classified r level] for
    [r = analysis?.risk_assessment]. *)
Inductive Classified : option string -> string -> Prop :=
| classified_absent :
    Classified None "low"
| classified_empty :
    Classified (Some "") "low"
| classified_high text :
    text <> "" -> Mentions HIGH_WORDS text ->
    Classified (Some text) "high"
| classified_medium text :
    text <> "" -> ~ Mentions HIGH_WORDS text -> Mentions MEDIUM_WORDS text ->
    Classified (Some text) "medium"
| classified_low text :
    text <> "" -> ~ Mentions HIGH_WORDS text -> ~ Mentions MEDIUM_WORDS text ->
    Classified (Some text) "low".

End RiskLevelSpec.

(** ** Sample data *)

Module Examples.

Definition payment : Clause :=
  {| clause := "Payment Terms"; explanation := "Rent due monthly." |}.

Definition termination : Clause :=
  {| clause := "Termination"; explanation := "30 day notice." |}.

(** A document whose analysis is stored. *)
Definition analysed_lease : Document :=
  {| id := "doc-1"; filename := "lease.pdf"; analysis_status := "completed";
     doc_summary := Some "This is a lease.";
     doc_key_clauses := Some [payment; termination];
     doc_risk_assessment := Some "Moderate risk." |}.

(** A document marked completed whose stored summary is the empty string. *)
Definition completed_empty_summary : Document :=
  {| id := "doc-2"; filename := "nda.pdf"; analysis_status := "completed";
     doc_summary := Some "";
     doc_key_clauses := Some [payment];
     doc_risk_assessment := Some "High risk." |}.

(** A freshly uploaded document. *)
Definition uploaded_lease : Document :=
  {| id := "doc-3"; filename := "lease.pdf"; analysis_status := "pending";
     doc_summary := None; doc_key_clauses := None; doc_risk_assessment := None |}.

Definition first_answer : Analysis :=
  {| summary := "This is a lease."; key_clauses := [payment; termination];
     risk_assessment := Some "Moderate risk." |}.

Definition second_answer : Analysis :=
  {| summary := "A residential lease."; key_clauses := [payment];
     risk_assessment := Some "Low risk." |}.

(** Three questions, the first asked twice. *)
Definition three_questions : list DocumentAnalysis.Ask :=
  [ {| DocumentAnalysis.ask_text := "What is the rent?";
       DocumentAnalysis.ask_response := Resolved "Rent is due monthly.";
       DocumentAnalysis.ask_now := 1000%Z |};
    {| DocumentAnalysis.ask_text := "What is the rent?";
       DocumentAnalysis.ask_response := Resolved "It is due every month.";
       DocumentAnalysis.ask_now := 2000%Z |};
    {| DocumentAnalysis.ask_text := "How do I terminate?";
       DocumentAnalysis.ask_response := Resolved "With 30 days notice.";
       DocumentAnalysis.ask_now := 3000%Z |} ].

Definition nl : string := String Parser.LF "".

(** The raw text of the end-to-end scenario of the specification. *)
Definition scenario : string :=
  "Some preamble." ++ nl ++
  "EXECUTIVE SUMMARY" ++ nl ++
  "This is a lease." ++ nl ++
  "KEY CLAUSES ANALYSIS" ++ nl ++
  "1. Payment Terms: Rent due monthly." ++ nl ++
  "2. Termination: 30 day notice." ++ nl ++
  "RISK ASSESSMENT" ++ nl ++
  "Moderate risk.".

Definition scenario_record : Parser.AnalysisRecord :=
  {| Parser.summary := ["This is a lease."; "Some preamble."];
     Parser.keyClauses :=
       [ {| Parser.index := 1; Parser.title := "Payment Terms";
            Parser.explanation := "Rent due monthly." |};
         {| Parser.index := 2; Parser.title := "Termination";
            Parser.explanation := "30 day notice." |} ];
     Parser.riskAssessment := "Moderate risk." |}.

End Examples.

(** ** Further JavaScript primitives *)

Module JsArray.

(** [ids.includes(x)] on an array of strings. *)
Definition includes (l : list string) (x : string) : bool :=
  existsb (String.eqb x) l.

(** [ids.filter(id => id !== x)] *)
Definition without (x : string) (l : list string) : list string :=
  filter (fun y => negb (String.eqb y x)) l.

(** [ids.indexOf(x)], [None] for -1. *)
Fixpoint indexOf (l : list string) (x : string) : option nat :=
  match l with
  | [] => None
  | y :: l' =>
      if String.eqb y x then Some 0
      else match indexOf l' x with
           | Some i => Some (S i)
           | None => None
           end
  end.

Definition upperChar (c : ascii) : ascii :=
  let n := nat_of_ascii c in
  if (97 <=? n) && (n <=? 122) then ascii_of_nat (n - 32) else c.

(** The text is ASCII: every byte is below 128. *)
Definition isAscii (s : string) : bool :=
  forallb (fun c => nat_of_ascii c <? 128) (list_ascii_of_string s).

(** [String.prototype.toUpperCase] of an ASCII text.  (Outside ASCII the
    platform follows the Unicode tables, which this development does not
    model; what is proved about letter case assumes [isAscii].) *)
Fixpoint toUpperCase (s : string) : string :=
  match s with
  | EmptyString => EmptyString
  | String c s' => String (upperChar c) (toUpperCase s')
  end.

(** A number printed in a template literal. *)
Definition decimal (n : nat) : string :=
  NilEmpty.string_of_uint (Nat.to_uint n).

End JsArray.

(** ** Toasts ([components/ui/toast.js]) *)

Module Toast.

(** What callers pass to [toast(...)]: the three fields the component reads.
    A field the caller leaves out is [None]. *)
Record Props := mkProps {
  title : option string;
  description : option string;
  variant : option string
}.

(** An element of [toasts]: [{ id, ...toast }]. *)
Record Item := mkItem {
  id : Z;
  props : Props
}.

(** [setTimeout(() => removeToast(id), 5000)] *)
Record Timer := mkTimer {
  delay : nat;
  removes : Z
}.

(** [addToast]; [now] is the reading of [Date.now()].  The result is the new
    list, the timer it starts and the id it returns. *)
Definition addToast (now : Z) (toast : Props) (toasts : list Item)
  : list Item * Timer * Z :=
  ((toasts ++ [ {| id := now; props := toast |} ])%list,
   {| delay := 5000; removes := now |},
   now).

Definition removeToast (i : Z) (toasts : list Item) : list Item :=
  filter (fun toast => negb (Z.eqb (id toast) i)) toasts.

Definition getToastClass (v : option string) : string :=
  match v with
  | Some s =>
      if String.eqb s "success" then "toast-success"
      else if String.eqb s "error" || String.eqb s "destructive" then "toast-error"
      else if String.eqb s "warning" then "toast-warning"
      else "toast-info"
  | None => "toast-info"
  end.

Definition getToastIcon (v : option string) : string :=
  match v with
  | Some s =>
      if String.eqb s "success" then ClausesTab.string_of_bytes [226; 156; 133]
      else if String.eqb s "error" || String.eqb s "destructive"
      then ClausesTab.string_of_bytes [226; 157; 140]
      else if String.eqb s "warning"
      then ClausesTab.string_of_bytes [226; 154; 160; 239; 184; 143]
      else ClausesTab.string_of_bytes [226; 132; 185; 239; 184; 143]
  | None => ClausesTab.string_of_bytes [226; 132; 185; 239; 184; 143]
  end.

(** The provider over time: toasts are added, closed with their button, and
    removed by their timers. *)
Inductive Event :=
| Add (now : Z) (toast : Props)      (* a caller shows a toast at clock reading [now] *)
| Close (i : Z)                      (* the close button of the toast with id [i] *)
| Fire (i : Z).                      (* the timer started for id [i] runs *)

Record Provider := mkProvider {
  toasts : list Item;
  timers : list Timer                (* started and not yet run *)
}.

Definition empty : Provider := {| toasts := []; timers := [] |}.

Fixpoint removeTimer (i : Z) (l : list Timer) : list Timer :=
  match l with
  | [] => []
  | t :: l' => if Z.eqb (removes t) i then l' else t :: removeTimer i l'
  end.

Definition hasTimer (i : Z) (l : list Timer) : bool :=
  existsb (fun t => Z.eqb (removes t) i) l.

Definition step (p : Provider) (e : Event) : option Provider :=
  match e with
  | Add now toast =>
      let '(l, timer, _) := addToast now toast (toasts p) in
      Some {| toasts := l; timers := (timers p ++ [timer])%list |}
  | Close i => Some {| toasts := removeToast i (toasts p); timers := timers p |}
  | Fire i =>
      if hasTimer i (timers p)
      then Some {| toasts := removeToast i (toasts p); timers := removeTimer i (timers p) |}
      else None
  end.

Fixpoint run (p : Provider) (events : list Event) : option Provider :=
  match events with
  | [] => Some p
  | e :: events' =>
      match step p e with
      | Some p' => run p' events'
      | None => None
      end
  end.

End Toast.

(** ** The export dialog ([components/ExportReport.js]) *)

Module ExportReport.

(** [name.replace(/\.[^/.]+$/, '')]: the first position where a dot is
    followed, up to the end of the name, by one or more characters that are
    neither a slash nor a dot; the name is cut there. *)
Fixpoint plainTail (s : string) : bool :=
  match s with
  | EmptyString => true
  | String c s' => negb (Ascii.eqb c "/") && negb (Ascii.eqb c ".") && plainTail s'
  end.

Definition isExtension (s : string) : bool :=
  match s with
  | EmptyString => false
  | String _ _ => plainTail s
  end.

Fixpoint stripExtension (name : string) : string :=
  match name with
  | EmptyString => EmptyString
  | String c rest =>
      if Ascii.eqb c "." && isExtension rest then EmptyString
      else String c (stripExtension rest)
  end.

(** [exportFormat === 'pdf' ? 'pdf' : 'docx'] *)
Definition fileExtension (exportFormat : string) : string :=
  if String.eqb exportFormat "pdf" then "pdf" else "docx".

(** The [download] attribute of the link [handleExport] clicks. *)
Definition downloadName (filename exportFormat : string) : string :=
  stripExtension filename ++ "_analysis." ++ fileExtension exportFormat.

(** The [download] attribute of the Q&A export button of the analysis view. *)
Definition qaDownloadName (filename : string) : string :=
  stripExtension filename ++ "_qa_export.pdf".

(** [includeSections]: the own properties of the object, in the order
    [Object.values] and the JSON of the request list them. *)
Definition Sections := list (string * bool).

Definition initialSections : Sections :=
  [("summary", true); ("clauses", true); ("risks", true); ("qa", true)].

(** The keys [handleSectionToggle] is called with: the four check boxes of
    the dialog pass the literals ['summary'], ['clauses'], ['risks'] and
    ['qa'], and nothing else calls it. *)
Inductive SectionKey :=
| KeySummary
| KeyClauses
| KeyRisks
| KeyQa.

Definition keyName (section : SectionKey) : string :=
  match section with
  | KeySummary => "summary"
  | KeyClauses => "clauses"
  | KeyRisks => "risks"
  | KeyQa => "qa"
  end.

Definition SectionKey_eqb (a b : SectionKey) : bool :=
  String.eqb (keyName a) (keyName b).

(** [prev[section]] for one of the four keys.  None of them names a member
    of [Object.prototype], so a key the object does not own reads
    [undefined] ([None]). *)
Fixpoint lookup (section : SectionKey) (l : Sections) : option bool :=
  match l with
  | [] => None
  | (k, v) :: l' => if String.eqb k (keyName section) then Some v else lookup section l'
  end.

(** [{ ...prev, [section]: v }] for one of the four keys: a key the object
    owns keeps its place; a new key is added at the end, none of the four
    being an array index, which would be listed first. *)
Fixpoint assign (section : SectionKey) (v : bool) (l : Sections) : Sections :=
  match l with
  | [] => [(keyName section, v)]
  | (k, w) :: l' =>
      if String.eqb k (keyName section) then (k, v) :: l'
      else (k, w) :: assign section v l'
  end.

(** [!prev[section]]; [!undefined] is [true]. *)
Definition notValue (v : option bool) : bool :=
  match v with
  | Some b => negb b
  | None => true
  end.

Definition handleSectionToggle (section : SectionKey) (prev : Sections) : Sections :=
  assign section (notValue (lookup section prev)) prev.

(** [Object.values(includeSections).some(selected => selected)] *)
Definition hasSelectedSections (l : Sections) : bool :=
  existsb (fun kv => snd kv) l.

Record State := mkState {
  exportFormat : string;
  isExporting : bool;
  includeSections : Sections
}.

Definition initial : State :=
  {| exportFormat := "pdf"; isExporting := false; includeSections := initialSections |}.

(** The body of the request. *)
Record ExportData := mkExportData {
  document_id : string;
  format : string;
  sections : Sections
}.

(** The [document] a component body refers to.  [ExportReport] and
    [DocumentAnalysis] name one of their props [document], so inside them the
    name denotes that prop, an object parsed from the JSON of the API, and not
    the DOM document of the page. *)
Inductive DocumentInScope :=
| DomDocument
| DocumentProp.

(** [document.createElement('a')]: a call of a member the receiver does not
    have as a function throws a [TypeError]; an object parsed from JSON has no
    function members. *)
Definition createElement (receiver : DocumentInScope) : Outcome unit :=
  match receiver with
  | DomDocument => Resolved tt
  | DocumentProp => Rejected "TypeError: document.createElement is not a function"
  end.

Inductive Effect :=
| PostExport (data : ExportData)         (* POST /documents/:id/export, as a blob *)
| CreateObjectURL                        (* window.URL.createObjectURL(new Blob(...)) *)
| Download (name : string)               (* the link is added to the page and clicked *)
| RevokeObjectURL
| ShowToast (toast : Toast.Props)
| ConsoleError (label : string)
| OnClose.                               (* the [onClose] prop *)

Definition setIsExporting (v : bool) (st : State) : State :=
  {| exportFormat := exportFormat st; isExporting := v;
     includeSections := includeSections st |}.

(** The primary button: [disabled={isExporting || !hasSelectedSections}]. *)
Definition exportDisabled (st : State) : bool :=
  isExporting st || negb (hasSelectedSections (includeSections st)).

(** [handleExport] up to its [await].  [doc] and [analysis] are the props,
    [None] for [null] or [undefined]. *)
Definition handleExport_call (doc : option Document) (analysis : option Analysis)
  (st : State) : State * list Effect :=
  match doc, analysis with
  | Some d, Some _ =>
      (setIsExporting true st,
       [PostExport {| document_id := id d; format := exportFormat st;
                      sections := includeSections st |}])
  | _, _ => (st, [])
  end.

Definition caught : list Effect :=
  [ConsoleError "Export failed:";
   ShowToast {| Toast.title := Some "Export Failed";
                Toast.description := Some "Please try again or contact support.";
                Toast.variant := Some "destructive" |}].

(** The [try] block after the [await], with [receiver] for the [document] in
    scope, followed by the [catch] block when a statement throws. *)
Definition tryDownload (receiver : DocumentInScope) (doc : Document) (st : State)
  : list Effect :=
  match createElement receiver with
  | Resolved _ =>
      [CreateObjectURL;
       Download (downloadName (filename doc) (exportFormat st));
       RevokeObjectURL;
       ShowToast {| Toast.title := Some "Export Successful";
                    Toast.description :=
                      Some ("Report exported as " ++ JsArray.toUpperCase (exportFormat st));
                    Toast.variant := Some "success" |}]
  | Rejected _ => (CreateObjectURL :: caught)%list
  end.

(** [handleExport] from the moment the request settles; [doc] is the
    [document] prop of the call.  The [finally] block runs last. *)
Definition handleExport_settle (doc : Document) (response : Outcome unit) (st : State)
  : State * list Effect :=
  (setIsExporting false st,
   (match response with
    | Resolved _ => tryDownload DocumentProp doc st
    | Rejected _ => caught
    end ++ [OnClose])%list).

(** The Q&A export button of the analysis view ([DocumentAnalysis], whose
    props are [{ document, onBack }]): a promise chain with [then] and
    [catch]. *)
Inductive QaEffect :=
| QaPostExport (data : ExportData)
| QaCreateObjectURL
| QaDownload (name : string)
| QaRevokeObjectURL
| QaConsoleError (label : string)
| QaAlert (message : string).

Definition qaExport_click (doc : Document) : list QaEffect :=
  [QaPostExport {| document_id := id doc; format := "pdf"; sections := [("qa", true)] |}].

Definition qaThen (receiver : DocumentInScope) (doc : Document) : Outcome (list QaEffect) :=
  match createElement receiver with
  | Resolved _ =>
      Resolved [QaCreateObjectURL; QaDownload (qaDownloadName (filename doc));
                QaRevokeObjectURL]
  | Rejected e => Rejected e
  end.

Definition qaCatch : list QaEffect :=
  [QaConsoleError "Export failed:"; QaAlert "Export failed. Please try again."].

Definition qaExport_settle (doc : Document) (response : Outcome unit) : list QaEffect :=
  match response with
  | Resolved _ =>
      match qaThen DocumentProp doc with
      | Resolved effects => effects
      | Rejected _ => (QaCreateObjectURL :: qaCatch)%list
      end
  | Rejected _ => qaCatch
  end.

End ExportReport.

(** ** The comparison dialog ([components/DocumentComparison.js]) *)

Module DocumentComparison.

(** [response.data] of the compare request when it is not falsy: three HTML
    fragments, each of which may be missing. *)
Record Comparison := mkComparison {
  similarities : option string;
  differences : option string;
  recommendations : option string
}.

Record State := mkState {
  selectedDocs : list string;
  comparison : option Comparison;
  isComparing : bool;
  activeView : string
}.

Definition initial : State :=
  {| selectedDocs := []; comparison := None; isComparing := false;
     activeView := "selection" |}.

Inductive Effect :=
| PostCompare (document_ids : list string)     (* POST /documents/compare *)
| ShowToast (toast : Toast.Props)
| ConsoleError (label : string).

(** The updater of [handleDocSelect]. *)
Definition selectDoc (docId : string) (prev : list string) : list string :=
  if JsArray.includes prev docId then JsArray.without docId prev
  else if List.length prev <? 2 then (prev ++ [docId])%list
  else prev.

Definition handleDocSelect (docId : string) (st : State) : State :=
  {| selectedDocs := selectDoc docId (selectedDocs st);
     comparison := comparison st; isComparing := isComparing st;
     activeView := activeView st |}.

(** [useEffect(..., [isOpen])] *)
Definition useEffect_isOpen (isOpen : bool) (st : State) : State :=
  if negb isOpen then
    {| selectedDocs := []; comparison := None; isComparing := isComparing st;
       activeView := "selection" |}
  else st.

Definition setIsComparing (v : bool) (st : State) : State :=
  {| selectedDocs := selectedDocs st; comparison := comparison st;
     isComparing := v; activeView := activeView st |}.

(** [startComparison] up to its [await]. *)
Definition startComparison_call (st : State) : State * list Effect :=
  if negb (List.length (selectedDocs st) =? 2) then (st, [])
  else (setIsComparing true st, [PostCompare (selectedDocs st)]).

(** [startComparison] from the moment the request settles.  The body of a
    successful response is stored as it is: [None] stands for a falsy body
    ([null], an empty body), which [renderComparisonResults] tests with
    [!comparison]. *)
Definition startComparison_settle (response : Outcome (option Comparison)) (st : State)
  : State * list Effect :=
  match response with
  | Resolved data =>
      ({| selectedDocs := selectedDocs st; comparison := data;
          isComparing := false; activeView := "results" |},
       [ShowToast {| Toast.title := Some "Comparison Complete";
                     Toast.description := Some "Documents have been successfully compared.";
                     Toast.variant := Some "success" |}])
  | Rejected _ =>
      (setIsComparing false st,
       [ConsoleError "Comparison failed:";
        ShowToast {| Toast.title := Some "Comparison Failed";
                     Toast.description := Some "Please try again or check your documents.";
                     Toast.variant := Some "destructive" |}])
  end.

(** The primary button: [disabled={selectedDocs.length !== 2 || isComparing}]. *)
Definition compareDisabled (st : State) : bool :=
  negb (List.length (selectedDocs st) =? 2) || isComparing st.

(** The number in the selection indicator of a card:
    [selectedDocs.includes(doc.id) && selectedDocs.indexOf(doc.id) + 1]. *)
Definition selectionNumber (st : State) (docId : string) : option nat :=
  if JsArray.includes (selectedDocs st) docId then
    match JsArray.indexOf (selectedDocs st) docId with
    | Some i => Some (i + 1)
    | None => None
    end
  else None.

(** What the dialog shows. *)
Inductive View :=
| Comparing                          (* the loading indicator *)
| Selection                          (* [renderDocSelection()] *)
| Results (doc1 doc2 : option string) (similarities differences recommendations : string)
| Nothing.                           (* [renderComparisonResults()] returned [null] *)

(** [documents.find(d => d.id === id)?.filename], for [id = selectedDocs[i]]. *)
Definition filenameOf (documents : list Document) (docId : option string) : option string :=
  match docId with
  | None => None
  | Some i =>
      match find (fun d => String.eqb (id d) i) documents with
      | Some d => Some (filename d)
      | None => None
      end
  end.

Definition render (documents : list Document) (st : State) : View :=
  if isComparing st then Comparing
  else if String.eqb (activeView st) "selection" then Selection
  else match comparison st with
       | None => Nothing
       | Some c =>
           Results (filenameOf documents (nth_error (selectedDocs st) 0))
                   (filenameOf documents (nth_error (selectedDocs st) 1))
                   (DocumentAnalysis.or_string (similarities c)
                      "No significant similarities found.")
                   (DocumentAnalysis.or_string (differences c)
                      "No significant differences found.")
                   (DocumentAnalysis.or_string (recommendations c)
                      "No specific recommendations available.")
       end.

End DocumentComparison.

(** ** The dashboard ([DocumentsDashboard]) *)

Module DocumentsDashboard.

Record State := mkState {
  searchQuery : string;
  selectMode : bool;
  selectedDocuments : list string;
  showComparison : bool;
  showExport : bool;
  exportDocument : option Document
}.

Definition initial : State :=
  {| searchQuery := ""; selectMode := false; selectedDocuments := [];
     showComparison := false; showExport := false; exportDocument := None |}.

Definition getStatusColor (status : string) : string :=
  if String.eqb status "completed" then "green"
  else if String.eqb status "processing" then "orange"
  else if String.eqb status "failed" then "red"
  else "gray".

(** [documents.filter(doc =>
       doc.filename.toLowerCase().includes(searchQuery.toLowerCase()))],
    for file names and a query that are ASCII, where [toLowerCase] is the
    lowering of the letters A to Z. *)
Definition filteredDocuments (documents : list Document) (query : string) : list Document :=
  filter (fun doc => JsString.includes (toLowerCase (filename doc)) (toLowerCase query))
         documents.

Inductive Effect :=
| OnSelectDocument (doc : Document)                   (* the [onSelectDocument] prop *)
| Confirm (message : string)                          (* window.confirm *)
| OnDeleteDocument (documentId : string) (bulk : bool).
                                                      (* onDeleteDocument(id, null, bulk) *)

Definition setSelectedDocuments (l : list string) (st : State) : State :=
  {| searchQuery := searchQuery st; selectMode := selectMode st;
     selectedDocuments := l; showComparison := showComparison st;
     showExport := showExport st; exportDocument := exportDocument st |}.

Definition setSelectMode (v : bool) (st : State) : State :=
  {| searchQuery := searchQuery st; selectMode := v;
     selectedDocuments := selectedDocuments st; showComparison := showComparison st;
     showExport := showExport st; exportDocument := exportDocument st |}.

Definition handleDocumentClick (doc : Document) (st : State) : State * list Effect :=
  if selectMode st then
    if JsArray.includes (selectedDocuments st) (id doc) then
      (setSelectedDocuments (JsArray.without (id doc) (selectedDocuments st)) st, [])
    else
      (setSelectedDocuments (selectedDocuments st ++ [id doc])%list st, [])
  else (st, [OnSelectDocument doc]).

Definition deleteSelectedMessage (n : nat) : string :=
  "Are you sure you want to delete " ++ JsArray.decimal n ++ " selected document(s)?".

(** [confirmed] is what [window.confirm] returns when it is shown. *)
Definition handleDeleteSelected (confirmed : bool) (st : State) : State * list Effect :=
  if 0 <? List.length (selectedDocuments st) then
    if confirmed then
      (setSelectMode false (setSelectedDocuments [] st),
       (Confirm (deleteSelectedMessage (List.length (selectedDocuments st)))
        :: map (fun i => OnDeleteDocument i true) (selectedDocuments st))%list)
    else
      (st, [Confirm (deleteSelectedMessage (List.length (selectedDocuments st)))])
  else (st, []).

Definition toggleSelectMode (st : State) : State :=
  setSelectedDocuments [] (setSelectMode (negb (selectMode st)) st).

Definition handleCompareClick (st : State) : State :=
  {| searchQuery := searchQuery st; selectMode := selectMode st;
     selectedDocuments := selectedDocuments st; showComparison := true;
     showExport := showExport st; exportDocument := exportDocument st |}.

Definition handleExportClick (doc : Document) (st : State) : State :=
  {| searchQuery := searchQuery st; selectMode := selectMode st;
     selectedDocuments := selectedDocuments st; showComparison := showComparison st;
     showExport := true; exportDocument := Some doc |}.

(** The Export button of a card is rendered when
    [!selectMode && doc.analysis_status === 'completed']. *)
Definition exportRendered (st : State) (doc : Document) : bool :=
  negb (selectMode st) && String.eqb (analysis_status doc) "completed".

(** Clicks on cards, one after the other; the effects are collected. *)
Fixpoint clickAll (st : State) (docs : list Document) : State * list Effect :=
  match docs with
  | [] => (st, [])
  | d :: docs' =>
      let (st1, e1) := handleDocumentClick d st in
      let (st2, e2) := clickAll st1 docs' in
      (st2, (e1 ++ e2)%list)
  end.

End DocumentsDashboard.

(** ** The application shell ([App]) *)

Module App.

(** The cells the shell writes.  Three more ([searchQuery], [uploadProgress],
    [analysisProgress]) are declared and never written or read. *)
Record State := mkState {
  currentView : string;                 (* 'upload', 'dashboard' or 'analysis' *)
  documents : list Document;
  selectedDocument : option Document;
  isLoading : bool;
  isDarkMode : bool
}.

Definition initial : State :=
  {| currentView := "upload"; documents := []; selectedDocument := None;
     isLoading := true; isDarkMode := false |}.

(** An error caught by [handleDeleteDocument]: what it reads is
    [error.message], [error.response?.status] and
    [error.response?.data?.detail]. *)
Record ErrorResponse := mkErrorResponse {
  status : nat;
  detail : option string
}.

Record Error := mkError {
  message : string;
  response : option ErrorResponse
}.

(** How the DELETE request ends: a response whose [data.message] is [answer]
    ([None] when [data] is empty or has no message), or a rejection. *)
Inductive DeleteOutcome :=
| Answered (answer : option string)
| Failed (error : Error).

Inductive Effect :=
| GetDocuments                          (* GET /documents *)
| DeleteDocument (documentId : string)  (* DELETE /documents/:id *)
| StopPropagation
| Confirm (message : string)
| Alert (message : string)
| ConsoleError (label : string).

Definition setCurrentView (v : string) (st : State) : State :=
  {| currentView := v; documents := documents st;
     selectedDocument := selectedDocument st; isLoading := isLoading st;
     isDarkMode := isDarkMode st |}.

Definition setDocuments (l : list Document) (st : State) : State :=
  {| currentView := currentView st; documents := l;
     selectedDocument := selectedDocument st; isLoading := isLoading st;
     isDarkMode := isDarkMode st |}.

Definition setSelectedDocument (d : option Document) (st : State) : State :=
  {| currentView := currentView st; documents := documents st;
     selectedDocument := d; isLoading := isLoading st;
     isDarkMode := isDarkMode st |}.

Definition setIsLoading (v : bool) (st : State) : State :=
  {| currentView := currentView st; documents := documents st;
     selectedDocument := selectedDocument st; isLoading := v;
     isDarkMode := isDarkMode st |}.

Definition setIsDarkMode (v : bool) (st : State) : State :=
  {| currentView := currentView st; documents := documents st;
     selectedDocument := selectedDocument st; isLoading := isLoading st;
     isDarkMode := v |}.

(** *** [loadDocuments] *)

Definition loadDocuments_call (st : State) : State * list Effect :=
  (st, [GetDocuments]).

Definition loadDocuments_settle (result : Outcome (list Document)) (st : State)
  : State * list Effect :=
  match result with
  | Resolved data =>
      (setIsLoading false
         (if 0 <? List.length data
          then setCurrentView "dashboard" (setDocuments data st)
          else setDocuments data st),
       [])
  | Rejected _ =>
      (setIsLoading false st, [ConsoleError "Failed to load documents:"])
  end.

(** *** [handleDeleteDocument] *)

Definition SUCCESS_MESSAGE : string := "Document deleted successfully".

(** Up to the [await]: [bulk || window.confirm(...)] asks only when the call
    is not a bulk one; [confirmed] is the answer. *)
Definition handleDeleteDocument_call (documentId : string) (bulk confirmed : bool)
  (st : State) : State * list Effect :=
  (st,
   ((if bulk then [] else [StopPropagation]) ++
    (if bulk then [DeleteDocument documentId]
     else Confirm "Are you sure you want to delete this document?"
          :: (if confirmed then [DeleteDocument documentId] else [])))%list).

(** [error.response?.data?.detail || error.message] *)
Definition errorText (e : Error) : string :=
  match response e with
  | Some r => DocumentAnalysis.or_string (detail r) (message e)
  | None => message e
  end.

(** ['' + error.response?.status] *)
Definition statusText (e : Error) : string :=
  match response e with
  | Some r => JsArray.decimal (status r)
  | None => "undefined"
  end.

Definition failureAlert (e : Error) : string :=
  "Failed to delete document. Please try again. Error: " ++ errorText e
  ++ String "010"%char "Status: " ++ statusText e.

(** The [catch] block. *)
Definition deleteCaught (bulk : bool) (e : Error) : list Effect :=
  (ConsoleError "Delete error details:"
   :: (if bulk then [] else [Alert (failureAlert e)]))%list.

(** From the moment the request settles. *)
Definition handleDeleteDocument_settle (bulk : bool) (outcome : DeleteOutcome)
  (st : State) : State * list Effect :=
  match outcome with
  | Answered answer =>
      match answer with
      | Some m =>
          if String.eqb m SUCCESS_MESSAGE then
            (st, ((if bulk then [] else [Alert "Document deleted successfully!"])
                  ++ snd (loadDocuments_call st))%list)
          else
            (st, deleteCaught bulk {| message := "Unexpected response from server";
                                      response := None |})
      | None =>
          (st, deleteCaught bulk {| message := "Unexpected response from server";
                                    response := None |})
      end
  | Failed e => (st, deleteCaught bulk e)
  end.

(** *** Navigation *)

Definition handleUploadSuccess (st : State) : State * list Effect :=
  (setCurrentView "dashboard" st, snd (loadDocuments_call st)).

Definition handleSelectDocument (doc : Document) (st : State) : State :=
  setCurrentView "analysis" (setSelectedDocument (Some doc) st).

Definition handleBackToDashboard (st : State) : State * list Effect :=
  (setSelectedDocument None (setCurrentView "dashboard" st), snd (loadDocuments_call st)).

Definition handleUploadNew (st : State) : State :=
  setCurrentView "upload" st.

Definition toggleDarkMode (st : State) : State :=
  setIsDarkMode (negb (isDarkMode st)) st.

(** What [App] returns. *)
Inductive Screen :=
| LoadingScreen
| UploadView
| DashboardView (documents : list Document)
| AnalysisView (doc : Document)
| EmptyMain.              (* the header with nothing under it *)

Definition render (st : State) : Screen :=
  if isLoading st then LoadingScreen
  else if String.eqb (currentView st) "upload" then UploadView
  else if String.eqb (currentView st) "dashboard" then DashboardView (documents st)
  else if String.eqb (currentView st) "analysis" then
    match selectedDocument st with
    | Some doc => AnalysisView doc
    | None => EmptyMain
    end
  else EmptyMain.

(** Everything that can happen to the shell: its handlers run, and its
    requests settle, in any order. *)
Inductive Event :=
| Mounted                                             (* useEffect(..., []) *)
| DocumentsSettled (result : Outcome (list Document))
| UploadSucceeded
| SelectDocument (doc : Document)
| BackToDashboard
| UploadNew
| Delete (documentId : string) (bulk confirmed : bool)
| DeleteSettled (bulk : bool) (outcome : DeleteOutcome)
| ToggleDarkMode.

Definition step (st : State) (e : Event) : State * list Effect :=
  match e with
  | Mounted => loadDocuments_call st
  | DocumentsSettled result => loadDocuments_settle result st
  | UploadSucceeded => handleUploadSuccess st
  | SelectDocument doc => (handleSelectDocument doc st, [])
  | BackToDashboard => handleBackToDashboard st
  | UploadNew => (handleUploadNew st, [])
  | Delete documentId bulk confirmed => handleDeleteDocument_call documentId bulk confirmed st
  | DeleteSettled bulk outcome => handleDeleteDocument_settle bulk outcome st
  | ToggleDarkMode => (toggleDarkMode st, [])
  end.

Fixpoint run (st : State) (events : list Event) : State * list Effect :=
  match events with
  | [] => (st, [])
  | e :: events' =>
      let (st1, e1) := step st e in
      let (st2, e2) := run st1 events' in
      (st2, (e1 ++ e2)%list)
  end.

(** The requests the dashboard's bulk delete passes on to the shell. *)
Definition bulkDeletes (effects : list DocumentsDashboard.Effect) : list Event :=
  flat_map (fun e => match e with
                     | DocumentsDashboard.OnDeleteDocument i bulk => [Delete i bulk false]
                     | _ => []
                     end) effects.

End App.

(** ** The upload area ([DocumentUpload]) *)

Module DocumentUpload.

Record State := mkState {
  isUploading : bool;
  dragActive : bool;
  uploadProgress : RiskMeter.JsNumber
}.

Definition initial : State :=
  {| isUploading := false; dragActive := false;
     uploadProgress := RiskMeter.Finite 0%Q |}.

(** The optional props: whether the caller passes [onProgress] and
    [onToast].  [onUploadSuccess] is called without a check. *)
Record Props := mkProps {
  onProgress : bool;
  onToast : bool
}.

(** [<DocumentUpload onUploadSuccess={handleUploadSuccess} />], the only
    place [App] renders the component. *)
Definition props_App : Props := {| onProgress := false; onToast := false |}.

Inductive Effect :=
| PreventDefault
| StopPropagation
| PostUpload (fileName : string)              (* POST /documents/upload *)
| OnProgress (percent : RiskMeter.JsNumber)
| OnToast (toast : Toast.Props)
| OnUploadSuccess
| ConsoleError (label : string)
| SetTimeout (delay : nat).

Definition setDragActive (v : bool) (st : State) : State :=
  {| isUploading := isUploading st; dragActive := v; uploadProgress := uploadProgress st |}.

Definition setIsUploading (v : bool) (st : State) : State :=
  {| isUploading := v; dragActive := dragActive st; uploadProgress := uploadProgress st |}.

Definition setUploadProgress (v : RiskMeter.JsNumber) (st : State) : State :=
  {| isUploading := isUploading st; dragActive := dragActive st; uploadProgress := v |}.

(** [handleDrag]; [type] is [e.type]. *)
Definition handleDrag (type : string) (st : State) : State * list Effect :=
  ((if String.eqb type "dragenter" || String.eqb type "dragover" then setDragActive true st
    else if String.eqb type "dragleave" then setDragActive false st
    else st),
   [PreventDefault; StopPropagation]).

(** [handleFile] up to its [await]. *)
Definition handleFile_call (fileName : string) (st : State) : State * list Effect :=
  (setUploadProgress (RiskMeter.Finite 0%Q) (setIsUploading true st),
   [PostUpload fileName]).

(** [handleDrop]; [file] is [e.dataTransfer.files[0]] when there is one. *)
Definition handleDrop (file : option string) (st : State) : State * list Effect :=
  match file with
  | Some name =>
      let (st1, effects) := handleFile_call name (setDragActive false st) in
      (st1, (PreventDefault :: StopPropagation :: effects)%list)
  | None => (setDragActive false st, [PreventDefault; StopPropagation])
  end.

(** [handleFileSelect] *)
Definition handleFileSelect (file : option string) (st : State) : State * list Effect :=
  match file with
  | Some name => handleFile_call name st
  | None => (st, [])
  end.

(** [onUploadProgress]; [percent] is the value of
    [Math.round((progressEvent.loaded * 100) / progressEvent.total)]. *)
Definition onUploadProgress (p : Props) (percent : RiskMeter.JsNumber) (st : State)
  : State * list Effect :=
  (setUploadProgress percent st, if onProgress p then [OnProgress percent] else []).

(** [handleFile] from the moment the request settles, the [finally] block
    included. *)
Definition handleFile_settle (p : Props) (fileName : string) (result : Outcome unit)
  (st : State) : State * list Effect :=
  match result with
  | Resolved _ =>
      (setUploadProgress (RiskMeter.Finite 100%Q) st,
       ((if onToast p
         then [OnToast {| Toast.title := Some "Upload Successful";
                          Toast.description :=
                            Some (fileName ++ " has been uploaded successfully!")%string;
                          Toast.variant := Some "success" |}]
         else [])
        ++ [OnUploadSuccess; SetTimeout 1000])%list)
  | Rejected _ =>
      (st,
       (ConsoleError "Upload failed:"
        :: (if onToast p
            then [OnToast {| Toast.title := Some "Upload Failed";
                             Toast.description :=
                               Some "Please try again or check your file format.";
                             Toast.variant := Some "destructive" |}]
            else [])
        ++ [SetTimeout 1000])%list)
  end.

(** The callback of the timer. *)
Definition afterTimeout (st : State) : State :=
  setUploadProgress (RiskMeter.Finite 0%Q) (setIsUploading false st).

(** One whole upload: chosen, reported on [progress] times, settled, and
    cleaned up by the timer. *)
Definition upload (p : Props) (fileName : string) (progress : list RiskMeter.JsNumber)
  (result : Outcome unit) (st : State) : State * list Effect :=
  let (st1, e1) := handleFile_call fileName st in
  let (st2, e2) :=
    fold_left (fun acc percent =>
                 let (s, e) := onUploadProgress p percent (fst acc) in
                 (s, (snd acc ++ e)%list))
              progress (st1, []) in
  let (st3, e3) := handleFile_settle p fileName result st2 in
  (afterTimeout st3, (e1 ++ e2 ++ e3)%list).

End DocumentUpload.

(** ** Sample data for the further properties *)

Module MoreExamples.

Definition info (text : string) : Toast.Props :=
  {| Toast.title := Some text; Toast.description := None; Toast.variant := None |}.

Definition lease : Document := Examples.analysed_lease.
Definition nda : Document := Examples.completed_empty_summary.
Definition upload : Document := Examples.uploaded_lease.

(** A no-break space (U+00A0) followed by an ideographic space (U+3000). *)
Definition wideSpaces : string :=
  ClausesTab.string_of_bytes [194; 160; 227; 128; 128].

End MoreExamples.

(** ** Notions used to state the further properties *)

Module RiskOrder.

(** The three levels in order of severity. *)
Definition rank (level : string) : nat :=
  if String.eqb level "high" then 2
  else if String.eqb level "medium" then 1
  else 0.

End RiskOrder.

Module ComparisonEvents.

Import DocumentComparison.

(** What can happen to the comparison dialog, in any order. *)
Inductive Event :=
| Click (docId : string)                      (* a document card is clicked *)
| SetOpen (isOpen : bool)                     (* the [isOpen] prop changes *)
| Start                                       (* the Compare button *)
| Settled (response : Outcome (option Comparison))
                                              (* the compare request settles *)
| CompareDifferent.                           (* setActiveView('selection') *)

Definition step (st : State) (e : Event) : State :=
  match e with
  | Click docId => handleDocSelect docId st
  | SetOpen isOpen => useEffect_isOpen isOpen st
  | Start => fst (startComparison_call st)
  | Settled response => fst (startComparison_settle response st)
  | CompareDifferent =>
      {| selectedDocs := selectedDocs st; comparison := comparison st;
         isComparing := isComparing st; activeView := "selection" |}
  end.

Definition run (st : State) (events : list Event) : State :=
  fold_left step events st.

(** What the dialog keeps true. *)
Definition Sound (st : State) : Prop :=
  List.length (selectedDocs st) <= 2
  /\ NoDup (selectedDocs st).

(** The results view is on and there is no comparison to show. *)
Definition Hollow (st : State) : Prop :=
  activeView st <> "selection" /\ comparison st = None.

End ComparisonEvents.

Module ExportNames.

(** [ext] can be cut off as an extension: it is not empty and holds neither
    a slash nor a dot. *)
Definition PlainExtension (ext : string) : Prop :=
  ext <> "" /\
  forall c, In c (list_ascii_of_string ext) -> c <> "/"%char /\ c <> "."%char.

(** [includeSections] after the check boxes [keys] were clicked, in that
    order, in a dialog that was just mounted. *)
Definition toggled (keys : list ExportReport.SectionKey) : ExportReport.Sections :=
  fold_left (fun prev section => ExportReport.handleSectionToggle section prev)
            keys ExportReport.initialSections.

(** The object has its four keys, in their order. *)
Definition FourBoxes (l : ExportReport.Sections) : Prop :=
  exists a b c d, l = [("summary", a); ("clauses", b); ("risks", c); ("qa", d)].

(** How often the check box [section] was clicked. *)
Definition clicks (section : ExportReport.SectionKey)
  (keys : list ExportReport.SectionKey) : nat :=
  List.length (filter (ExportReport.SectionKey_eqb section) keys).

End ExportNames.

Module AppEvents.

Import App.

Definition isSettled (e : Event) : bool :=
  match e with
  | DocumentsSettled _ => true
  | _ => false
  end.

(** The list of the last documents request that succeeded, [fallback] when
    none did. *)
Fixpoint lastLoaded (fallback : list Document) (events : list Event) : list Document :=
  match events with
  | [] => fallback
  | DocumentsSettled (Resolved data) :: events' => lastLoaded data events'
  | _ :: events' => lastLoaded fallback events'
  end.

(** What the shell keeps true. *)
Definition Sound (st : State) : Prop :=
  (currentView st = "upload" \/ currentView st = "dashboard"
   \/ (currentView st = "analysis" /\ selectedDocument st <> None)).

(** The effect opens a dialog box ([alert] or [confirm]). *)
Definition isDialog (e : Effect) : bool :=
  match e with
  | Alert _ => true
  | Confirm _ => true
  | _ => false
  end.

End AppEvents.

(** * Properties *)

(** ** Strings *)

Section StringFacts.

Lemma append_empty_r (s : string) : s ++ "" = s.
Proof. induction s as [|c s IH]; simpl; [reflexivity | now rewrite IH]. Qed.

Lemma append_assoc (a b c : string) : (a ++ b) ++ c = a ++ (b ++ c).
Proof. induction a as [|x a IH]; simpl; [reflexivity | now rewrite IH]. Qed.

Lemma startsWith_iff (s p : string) :
  startsWith s p = true <-> exists post, s = p ++ post.
Proof.
  revert s; induction p as [|b p IH]; intros s; simpl.
  - split; [intros _; now exists s | reflexivity].
  - destruct s as [|a s].
    + split; [discriminate | intros [post H]; discriminate].
    + rewrite andb_true_iff, Ascii.eqb_eq, IH. split.
      * intros [-> [post ->]]. now exists post.
      * intros [post H]. injection H as -> ->. split; [reflexivity | now exists post].
Qed.

Lemma includes_iff (s sub : string) : includes s sub = true <-> Occurs sub s.
Proof.
  unfold Occurs. split.
  - induction s as [|a s IH]; simpl.
    + intros H. apply startsWith_iff in H as [post H]. now exists "", post.
    + rewrite orb_true_iff. intros [H | H].
      * apply (startsWith_iff (String a s)) in H as [post H]. now exists "", post.
      * destruct (IH H) as (pre & post & ->). now exists (String a pre), post.
  - intros (pre & post & ->). induction pre as [|a pre IH]; simpl.
    + assert (H : startsWith (sub ++ post) sub = true)
        by (apply startsWith_iff; now exists post).
      destruct (sub ++ post); simpl; [exact H | now rewrite H].
    + rewrite IH. apply orb_true_r.
Qed.

Lemma toLowerCase_app (a b : string) :
  toLowerCase (a ++ b) = toLowerCase a ++ toLowerCase b.
Proof. induction a as [|c a IH]; simpl; [reflexivity | now rewrite IH]. Qed.

Lemma toLowerCase_split (t a b : string) :
  toLowerCase t = a ++ b ->
  exists a' b', t = a' ++ b' /\ toLowerCase a' = a /\ toLowerCase b' = b.
Proof.
  revert t; induction a as [|c a IH]; intros t H.
  - now exists "", t.
  - destruct t as [|d t]; [discriminate |].
    simpl in H. injection H as Hc Ht.
    destruct (IH _ Ht) as (a' & b' & -> & <- & <-).
    exists (String d a'), b'. simpl. now rewrite Hc.
Qed.

Lemma occursIgnoringCase_iff (keyword text : string) :
  RiskLevelSpec.OccursIgnoringCase keyword text <-> Occurs keyword (toLowerCase text).
Proof.
  unfold RiskLevelSpec.OccursIgnoringCase, Occurs. split.
  - intros (pre & mid & post & -> & <-).
    exists (toLowerCase pre), (toLowerCase post).
    now rewrite !toLowerCase_app.
  - intros (pre & post & H).
    apply toLowerCase_split in H as (pre' & rest & -> & _ & H).
    apply toLowerCase_split in H as (mid & post' & -> & H & _).
    now exists pre', mid, post'.
Qed.

Lemma includes_lower_iff (keyword text : string) :
  includes (toLowerCase text) keyword = true
  <-> RiskLevelSpec.OccursIgnoringCase keyword text.
Proof. now rewrite includes_iff, occursIgnoringCase_iff. Qed.

End StringFacts.

(** ** Risk level *)

Section RiskLevelFacts.

Import RiskLevel RiskLevelSpec.

Lemma mentions_high_iff (text : string) :
  Mentions HIGH_WORDS text <->
  includes (toLowerCase text) "high" || includes (toLowerCase text) "severe"
  || includes (toLowerCase text) "critical" = true.
Proof.
  rewrite !orb_true_iff, !includes_lower_iff. unfold Mentions, HIGH_WORDS. split.
  - intros (k & Hin & Hocc). simpl in Hin.
    destruct Hin as [<- | [<- | [<- | []]]]; tauto.
  - intros [[H | H] | H]; eexists; (split; [| exact H]); simpl; tauto.
Qed.

Lemma mentions_medium_iff (text : string) :
  Mentions MEDIUM_WORDS text <->
  includes (toLowerCase text) "medium" || includes (toLowerCase text) "moderate" = true.
Proof.
  rewrite !orb_true_iff, !includes_lower_iff. unfold Mentions, MEDIUM_WORDS. split.
  - intros (k & Hin & Hocc). simpl in Hin.
    destruct Hin as [<- | [<- | []]]; tauto.
  - intros [H | H]; eexists; (split; [| exact H]); simpl; tauto.
Qed.

Lemma classify_classified (text : string) :
  text <> "" -> Classified (Some text) (classify (toLowerCase text)).
Proof.
  intros Hne. unfold classify.
  destruct (includes (toLowerCase text) "high" || includes (toLowerCase text) "severe"
            || includes (toLowerCase text) "critical") eqn:Hhigh.
  - apply classified_high; [exact Hne | now apply mentions_high_iff].
  - assert (Hno : ~ Mentions HIGH_WORDS text)
      by (rewrite mentions_high_iff, Hhigh; discriminate).
    destruct (includes (toLowerCase text) "medium"
              || includes (toLowerCase text) "moderate") eqn:Hmed.
    + apply classified_medium; [exact Hne | exact Hno | now apply mentions_medium_iff].
    + apply classified_low; [exact Hne | exact Hno |].
      rewrite mentions_medium_iff, Hmed. discriminate.
Qed.

(** The description leaves no choice: one level per input. *)
Lemma classified_functional (r : option string) (l1 l2 : string) :
  Classified r l1 -> Classified r l2 -> l1 = l2.
Proof.
  intros H1 H2; inversion H1; subst; inversion H2; subst;
    solve [reflexivity | contradiction | congruence].
Qed.

Lemma getRiskLevel_export_same (analysis : option Analysis) :
  getRiskLevel_export analysis = getRiskLevel analysis.
Proof. reflexivity. Qed.

(** C10.  [getRiskLevel] looks for its keywords as substrings of the
    lower-cased risk assessment, so letter case is ignored and a keyword
    inside a longer word counts: the level is 'high' when the text mentions
    "high", "severe" or "critical"; otherwise 'medium' when it mentions
    "medium" or "moderate"; otherwise 'low'; and 'low' when the analysis or
    its risk assessment is absent or empty.  The copy in ExportReport
    returns the same level, and "highlight" is classified as high. *)
Theorem getRiskLevel_classification (analysis : option Analysis) :
  Classified (risk_assessment_of analysis) (getRiskLevel analysis)
  /\ getRiskLevel_export analysis = getRiskLevel analysis
  /\ getRiskLevel
       (Some {| summary := ""; key_clauses := [];
                risk_assessment := Some "Please highlight clause 4." |}) = "high".
Proof.
  split; [| split; reflexivity].
  unfold getRiskLevel.
  destruct (risk_assessment_of analysis) as [[|c t] |]; simpl truthy; simpl negb; cbv iota.
  - constructor.
  - now apply classify_classified.
  - constructor.
Qed.

End RiskLevelFacts.

(** ** Risk meter *)

Section RiskMeterFacts.

Import RiskMeter.

Lemma levelPercentage_values (level : string) :
  In (levelPercentage level) [Finite 85%Q; Finite 60%Q; Finite 25%Q; Finite 50%Q].
Proof.
  unfold levelPercentage.
  destruct (String.eqb (toLowerCase level) "high"); [simpl; tauto |].
  destruct (String.eqb (toLowerCase level) "medium"); [simpl; tauto |].
  destruct (String.eqb (toLowerCase level) "low"); simpl; tauto.
Qed.

Lemma levelPercentage_table :
  levelPercentage "high" = Finite 85%Q /\ levelPercentage "medium" = Finite 60%Q
  /\ levelPercentage "low" = Finite 25%Q.
Proof. repeat split. Qed.

Lemma levelPercentage_not_zero (level : string) : levelPercentage level <> Finite 0%Q.
Proof.
  intros H. pose proof (levelPercentage_values level) as Hin. rewrite H in Hin.
  simpl in Hin. repeat (destruct Hin as [Hin | Hin]; [discriminate |]). exact Hin.
Qed.

Lemma omitted_score_percentage (level : option string) :
  getRiskPercentage {| riskLevel := level; riskScore := None |} = Finite 0%Q.
Proof. reflexivity. Qed.

(** C9.  When the [riskScore] prop is omitted it defaults to 0, the test
    [typeof riskScore === 'number' && 0 <= riskScore <= 100] succeeds and
    [getRiskPercentage] returns 0 whatever [riskLevel] is.  Both call sites
    ([DocumentAnalysis] and [ExportReport]) omit [riskScore], so both get 0
    and never the 85 / 60 / 25 of the level table. *)
Theorem riskMeter_omitted_score_is_zero (level : option string) (analysis : option Analysis) :
  let omitted := {| riskLevel := level; riskScore := None |} in
  riskScore_of omitted = Num (Finite 0%Q)
  /\ scoreInRange (riskScore_of omitted) = true
  /\ getRiskPercentage omitted = Finite 0%Q
  /\ riskScore (props_DocumentAnalysis analysis) = None
  /\ riskScore (props_ExportReport analysis) = None
  /\ getRiskPercentage (props_DocumentAnalysis analysis) = Finite 0%Q
  /\ getRiskPercentage (props_ExportReport analysis) = Finite 0%Q
  /\ getRiskPercentage (props_DocumentAnalysis analysis)
     <> levelPercentage (riskLevel_of (props_DocumentAnalysis analysis))
  /\ getRiskPercentage (props_ExportReport analysis)
     <> levelPercentage (riskLevel_of (props_ExportReport analysis)).
Proof.
  cbv zeta. repeat split.
  - intros H. symmetry in H. revert H. apply levelPercentage_not_zero.
  - intros H. symmetry in H. revert H. apply levelPercentage_not_zero.
Qed.

End RiskMeterFacts.

(** ** Questions and the chat log *)

Section ChatFacts.

Import DocumentAnalysis.

Variable doc : Document.

Lemma ask_chatHistory (st : State) (a : Ask) :
  chatHistory (ask doc st a)
  = (chatHistory st ++ (if accepted a then [entry_of a] else []))%list.
Proof.
  destruct a as [text response now].
  unfold ask, askQuestion_call, accepted, entry_of; simpl.
  destruct (trimsToEmpty text); simpl.
  - now rewrite app_nil_r.
  - destruct response; simpl; [reflexivity | now rewrite app_nil_r].
Qed.

Lemma askAll_chatHistory (asks : list Ask) : forall st,
  chatHistory (askAll doc st asks)
  = (chatHistory st ++ map entry_of (filter accepted asks))%list.
Proof.
  unfold askAll. induction asks as [|a asks IH]; intros st; simpl.
  - now rewrite app_nil_r.
  - rewrite IH, ask_chatHistory.
    destruct (accepted a); simpl; [now rewrite <- app_assoc | now rewrite app_nil_r].
Qed.

Lemma filter_all {A} (f : A -> bool) (l : list A) :
  Forall (fun x => f x = true) l -> filter f l = l.
Proof.
  induction 1 as [|x l Hx _ IH]; simpl; [reflexivity | now rewrite Hx, IH].
Qed.

Lemma skipn_own_length {A} (l1 l2 : list A) :
  skipn (List.length l1) (l1 ++ l2)%list = l2.
Proof. induction l1; simpl; auto. Qed.

Import Chat.

(** The three events of a question, in a view where no question waits, do
    what [ask] does. *)
Lemma run_questionEvents (w : Session) (a : Ask) :
  Idle w ->
  state (run doc w (questionEvents a)) = ask doc (state w) a
  /\ loading (run doc w (questionEvents a)) = loading w
  /\ Idle (run doc w (questionEvents a)).
Proof.
  intros [Hnone Hfree]. destruct w as [st pending busy]. simpl in Hnone, Hfree. subst pending.
  destruct a as [text response now].
  assert (Hd : askDisabled (setQuestion text st) = trimsToEmpty text)
    by (unfold askDisabled; simpl; now rewrite Hfree).
  assert (Hq : question (setQuestion text st) = text) by reflexivity.
  unfold run, questionEvents, ask, Idle.
  cbn [fold_left ask_text ask_response ask_now state asking loading].
  change (step doc {| state := st; asking := None; loading := busy |} (Typed text))
    with {| state := setQuestion text st; asking := None; loading := busy |}.
  set (typed := {| state := setQuestion text st; asking := None; loading := busy |}).
  assert (Hp : step doc typed Pressed
               = if trimsToEmpty text then typed
                 else {| state := setIsAsking true (setQuestion text st);
                         asking := Some text; loading := busy |}).
  { unfold step, typed. cbn [state asking loading]. rewrite Hd.
    unfold askQuestion_call. rewrite Hq. now destruct (trimsToEmpty text). }
  rewrite Hp. unfold askQuestion_call. rewrite Hq.
  destruct (trimsToEmpty text); subst typed.
  - cbn. now rewrite Hfree.
  - destruct response; cbn; now repeat split.
Qed.

Lemma run_app (w : Session) (first second : list Event) :
  run doc w (first ++ second) = run doc (run doc w first) second.
Proof. unfold run. apply fold_left_app. Qed.

Lemma run_questions (asks : list Ask) : forall w,
  Idle w ->
  state (run doc w (questions asks)) = askAll doc (state w) asks
  /\ loading (run doc w (questions asks)) = loading w
  /\ Idle (run doc w (questions asks)).
Proof.
  induction asks as [|a asks IH]; intros w Hidle.
  - split; [reflexivity | split; [reflexivity | exact Hidle]].
  - change (questions (a :: asks)) with (questionEvents a ++ questions asks)%list.
    rewrite run_app.
    destruct (run_questionEvents w a Hidle) as (Hstate & Hload & Hidle').
    destruct (IH _ Hidle') as (Hstate' & Hload' & Hidle'').
    rewrite Hstate', Hstate, Hload', Hload.
    split; [reflexivity | split; [reflexivity | exact Hidle'']].
Qed.

(** The history response changes cells that typing and pressing the button
    neither read nor write, so it may come before or after them. *)
Lemma history_commutes (w : Session) (response : Outcome (list ChatEntry)) (e : Event) :
  (exists text, e = Typed text) \/ e = Pressed ->
  step doc (step doc w e) (HistoryLoaded response)
  = step doc (step doc w (HistoryLoaded response)) e.
Proof.
  destruct w as [st pending busy].
  intros [[text ->] | ->]; simpl.
  - destruct busy; [| reflexivity]. destruct response; reflexivity.
  - unfold askDisabled, askQuestion_call.
    destruct busy, response; simpl;
      destruct (isAsking st); simpl; try reflexivity;
      destruct (trimsToEmpty (question st)); reflexivity.
Qed.

Lemma history_first (w : Session) (response : Outcome (list ChatEntry))
  (events : list Event) (k : nat) :
  k <= 2 ->
  (forall e, In e (firstn 2 events) -> (exists text, e = Typed text) \/ e = Pressed) ->
  run doc w (firstn k events ++ HistoryLoaded response :: skipn k events)
  = run doc w (HistoryLoaded response :: events).
Proof.
  intros Hk Hfirst.
  destruct k as [|[|[|k]]]; [reflexivity | | | lia].
  - destruct events as [|e1 events]; [reflexivity |].
    unfold run. cbn [firstn skipn app fold_left].
    rewrite history_commutes; [reflexivity |]. apply Hfirst. now left.
  - destruct events as [|e1 [|e2 events]]; [reflexivity | |];
      unfold run; cbn [firstn skipn app fold_left].
    + rewrite history_commutes; [reflexivity |]. apply Hfirst. now left.
    + rewrite history_commutes by (apply Hfirst; right; now left).
      rewrite history_commutes by (apply Hfirst; now left).
      reflexivity.
Qed.

Lemma questions_first (asks : list Ask) (e : Event) :
  In e (firstn 2 (questions asks)) -> (exists text, e = Typed text) \/ e = Pressed.
Proof.
  destruct asks as [|a asks]; simpl; [intros [] |].
  intros [<- | [<- | []]]; [left; now eexists | now right].
Qed.

(** C6, as the code has it.  Questions asked one after the other leave
    their entries in the chat history in call order, after the entries
    already there: one entry per question that was sent and answered, none
    dropped, merged or reordered, repeated questions included.  The
    timestamps of the new entries are the clock readings taken when the
    answers were handled.  The history response of the view may arrive before
    the first question is typed, before it is sent or while it waits for its
    answer: the entries then follow the history received. *)
Theorem chat_entries_in_call_order (w : Session) (asks : list Ask) (Hidle : Idle w) :
  getChatHistory (state (run doc w (questions asks)))
  = (getChatHistory (state w) ++ map entry_of (filter accepted asks))%list
  /\ (Forall (fun a => accepted a = true) asks ->
      map chat_question
          (entriesFrom (List.length (getChatHistory (state w))) (run doc w (questions asks)))
      = map ask_text asks)
  /\ map timestamp
         (entriesFrom (List.length (getChatHistory (state w))) (run doc w (questions asks)))
     = map ask_now (filter accepted asks)
  /\ (loading w = true ->
      forall (history : list ChatEntry) (k : nat), k <= 2 ->
        getChatHistory
          (state (run doc w (firstn k (questions asks)
                             ++ HistoryLoaded (Resolved history)
                             :: skipn k (questions asks))))
        = (history ++ map entry_of (filter accepted asks))%list)
  /\ Idle (run doc w (questions asks)).
Proof.
  destruct (run_questions asks w Hidle) as (Hstate & _ & Hidle').
  unfold entriesFrom, getChatHistory. rewrite Hstate, askAll_chatHistory, skipn_own_length.
  split; [reflexivity |].
  split.
  { intros Hall. rewrite (filter_all _ _ Hall), map_map. reflexivity. }
  split.
  { rewrite map_map. reflexivity. }
  split; [| exact Hidle'].
  intros Hload history k Hk.
  rewrite (history_first w _ _ k Hk (questions_first asks)).
  change (run doc w (HistoryLoaded (Resolved history) :: questions asks))
    with (run doc (step doc w (HistoryLoaded (Resolved history))) (questions asks)).
  assert (Hidle1 : Idle (step doc w (HistoryLoaded (Resolved history)))).
  { destruct Hidle as [Hnone Hfree]. simpl. rewrite Hload. now split. }
  destruct (run_questions asks _ Hidle1) as (Hstate1 & _ & _).
  rewrite Hstate1, askAll_chatHistory. simpl. rewrite Hload. reflexivity.
Qed.

(** C7.  A question whose request fails leaves the chat history as it was:
    the [catch] branch reports the failure and appends nothing. *)
Theorem failed_question_leaves_chat_unchanged
  (st : State) (text error : string) (now : Z) :
  getChatHistory
    (ask doc st {| ask_text := text; ask_response := Rejected error; ask_now := now |})
  = getChatHistory st
  /\ (forall captured,
        chatHistory (fst (askQuestion_settle captured (Rejected error) now st))
        = chatHistory st)
  /\ (forall captured,
        snd (askQuestion_settle captured (Rejected error) now st)
        = [ConsoleError "Question failed:";
           Alert "Failed to ask question. Please try again."]).
Proof.
  unfold getChatHistory. rewrite ask_chatHistory. unfold accepted. simpl.
  rewrite andb_false_r, app_nil_r. repeat split.
Qed.

End ChatFacts.

Lemma chat_entries_in_call_order_witness :
  map chat_question
      (DocumentAnalysis.getChatHistory
         (Chat.state (Chat.run Examples.uploaded_lease (Chat.mounted Examples.uploaded_lease)
                               (Chat.questions Examples.three_questions))))
  = ["What is the rent?"; "What is the rent?"; "How do I terminate?"]
  /\ map timestamp
         (DocumentAnalysis.getChatHistory
            (Chat.state (Chat.run Examples.uploaded_lease
                                  (Chat.mounted Examples.uploaded_lease)
                                  (Chat.questions Examples.three_questions))))
     = [1000; 2000; 3000]%Z.
Proof.
  destruct (chat_entries_in_call_order Examples.uploaded_lease
              (Chat.mounted Examples.uploaded_lease) Examples.three_questions
              (conj eq_refl eq_refl)) as (_ & Hall & Hclock & _).
  split.
  - specialize (Hall ltac:(repeat constructor)).
    vm_compute in Hall. vm_compute. exact Hall.
  - vm_compute in Hclock. vm_compute. exact Hclock.
Defined.

(** Two questions, both sent and answered, that the claim's order and
    timestamps fail on: the clock is set back between the two answers, so
    the second entry carries the smaller timestamp; and when the history
    response of the view arrives after the answers it replaces the log, so
    the view lists neither entry. *)
Lemma late_history_and_clock_set_back :
  let asked :=
    [ {| DocumentAnalysis.ask_text := "What is the rent?";
         DocumentAnalysis.ask_response := Resolved "Rent is due monthly.";
         DocumentAnalysis.ask_now := 5000%Z |};
      {| DocumentAnalysis.ask_text := "How do I terminate?";
         DocumentAnalysis.ask_response := Resolved "With 30 days notice.";
         DocumentAnalysis.ask_now := 4000%Z |} ] in
  let lease := Examples.uploaded_lease in
  filter DocumentAnalysis.accepted asked = asked
  /\ map timestamp
         (DocumentAnalysis.getChatHistory
            (Chat.state (Chat.run lease (Chat.mounted lease) (Chat.questions asked))))
     = [5000; 4000]%Z
  /\ ~ StronglySorted Z.le [5000; 4000]%Z
  /\ DocumentAnalysis.getChatHistory
       (Chat.state (Chat.run lease (Chat.mounted lease)
                             (Chat.questions asked ++ [Chat.HistoryLoaded (Resolved [])])))
     = [].
Proof.
  split; [reflexivity |]. split; [reflexivity |]. split; [| reflexivity].
  intros H. inversion H as [|x l _ Hx]; subst.
  inversion Hx as [|y l' Hle _]; subst. lia.
Qed.

(** ** The mount effect and the stored analysis *)

Section MountFacts.

Import DocumentAnalysis Schedule.

Lemma eqb_pending_completed (status : string) :
  String.eqb status "completed" = true -> String.eqb status "pending" = false.
Proof. intros H. apply String.eqb_eq in H. now subst. Qed.

(** The mount effect posts an analysis request for a pending document and
    for no other. *)
Lemma mount_requests_analysis_iff (doc : Document) (st : State) :
  In (Http (PostAnalyze (id doc))) (snd (useEffect_document doc st))
  <-> analysis_status doc = "pending".
Proof.
  unfold useEffect_document, analyzeDocument_call, loadChatHistory_call.
  destruct (String.eqb (analysis_status doc) "completed") eqn:Hc; simpl.
  - pose proof (eqb_pending_completed _ Hc) as Hp.
    destruct (truthy (doc_summary doc)); simpl.
    + split; [intros [H | []]; discriminate |].
      intros H. apply String.eqb_eq in Hc. congruence.
    + rewrite Hp. simpl. split; [intros [H | []]; discriminate |].
      intros H. apply String.eqb_eq in Hc. congruence.
  - destruct (String.eqb (analysis_status doc) "pending") eqn:Hp; simpl.
    + apply String.eqb_eq in Hp. tauto.
    + split; [intros [H | []]; discriminate |].
      intros H. apply String.eqb_neq in Hp. contradiction.
Qed.

Lemma mount_analyzeCount (doc : Document) (st : State) :
  analyzeCount (requests (snd (useEffect_document doc st)))
  = if callsAnalyze doc Open then 1 else 0.
Proof.
  unfold useEffect_document, analyzeDocument_call, loadChatHistory_call, callsAnalyze.
  destruct (String.eqb (analysis_status doc) "completed" && truthy (doc_summary doc));
    simpl; [reflexivity |].
  destruct (String.eqb (analysis_status doc) "pending"); reflexivity.
Qed.

Lemma mount_completed_sends_no_analysis (doc : Document) (st : State) :
  analysis_status doc = "completed" ->
  analyzeCount (requests (snd (useEffect_document doc st))) = 0.
Proof.
  intros H. rewrite mount_analyzeCount. unfold callsAnalyze. rewrite H.
  simpl. now rewrite andb_false_r.
Qed.

(** C1, as the code has it.  For a document whose status is 'completed'
    and whose stored summary is not empty, the mount effect sends no
    analysis request (it only loads the chat history) and sets the analysis
    to the stored summary, key clauses and risk assessment, unchanged
    (key clauses that are absent read as the empty list, a risk assessment
    that is absent as the empty string).  No completed document, whatever
    its summary, makes the mount effect send an analysis request: it sends
    one exactly when the status is 'pending'. *)
Theorem completed_document_served_from_store
  (doc : Document) (st : State) (stored : string)
  (Hstatus : analysis_status doc = "completed")
  (Hsummary : doc_summary doc = Some stored)
  (Hstored : stored <> "") :
  snd (useEffect_document doc st) = [Http (GetChat (id doc))]
  /\ analyzeCount (requests (snd (useEffect_document doc st))) = 0
  /\ analysis (fst (useEffect_document doc st))
     = Some {| summary := stored;
               key_clauses := or_array (doc_key_clauses doc) [];
               risk_assessment := Some (or_string (doc_risk_assessment doc) "") |}
  /\ (forall clauses risk,
        doc_key_clauses doc = Some clauses -> doc_risk_assessment doc = Some risk ->
        analysis (fst (useEffect_document doc st))
        = Some {| summary := stored; key_clauses := clauses;
                  risk_assessment := Some risk |})
  /\ (forall (d : Document) (s : State),
        analysis_status d = "completed" ->
        analyzeCount (requests (snd (useEffect_document d s))) = 0)
  /\ (forall (d : Document) (s : State),
        In (Http (PostAnalyze (id d))) (snd (useEffect_document d s))
        <-> analysis_status d = "pending").
Proof.
  assert (Heff : useEffect_document doc st
                 = (setAnalysis
                      (Some {| summary := stored;
                               key_clauses := or_array (doc_key_clauses doc) [];
                               risk_assessment :=
                                 Some (or_string (doc_risk_assessment doc) "") |}) st,
                    [Http (GetChat (id doc))])).
  { unfold useEffect_document, loadChatHistory_call.
    rewrite Hstatus, Hsummary. destruct stored as [|c t]; [contradiction | reflexivity]. }
  rewrite Heff. simpl.
  split; [reflexivity |]. split; [reflexivity |]. split; [reflexivity |].
  split; [| split].
  - intros clauses risk -> ->. simpl. now destruct risk.
  - apply mount_completed_sends_no_analysis.
  - apply mount_requests_analysis_iff.
Qed.

End MountFacts.

(** A document marked completed with an empty stored summary: the mount
    effect takes neither branch, the analysis stays [null] although key
    clauses and a risk assessment are stored, and the view offers to analyse
    again. *)
Lemma completed_document_with_empty_summary_not_served :
  analysis_status Examples.completed_empty_summary = "completed"
  /\ doc_key_clauses Examples.completed_empty_summary = Some [Examples.payment]
  /\ DocumentAnalysis.analysis
       (fst (DocumentAnalysis.useEffect_document Examples.completed_empty_summary
                                                 DocumentAnalysis.initial))
     = None
  /\ ~ (forall doc st,
          analysis_status doc = "completed" ->
          exists record,
            DocumentAnalysis.analysis (fst (DocumentAnalysis.useEffect_document doc st))
            = Some record).
Proof.
  repeat split.
  intros H.
  destruct (H Examples.completed_empty_summary DocumentAnalysis.initial eq_refl)
    as [record Hrecord].
  discriminate Hrecord.
Qed.

Lemma completed_document_served_from_store_witness :
  DocumentAnalysis.analysis
    (fst (DocumentAnalysis.useEffect_document Examples.analysed_lease
                                              DocumentAnalysis.initial))
  = Some Examples.first_answer.
Proof.
  destruct (completed_document_served_from_store
              Examples.analysed_lease DocumentAnalysis.initial "This is a lease."
              eq_refl eq_refl ltac:(discriminate)) as (_ & _ & _ & H & _).
  exact (H _ _ eq_refl eq_refl).
Defined.

(** ** Clause numbers *)

Section ClauseNumberFacts.

Import ClausesTab.

Lemma map_from_length {A B} (f : A -> nat -> B) (l : list A) : forall k,
  List.length (map_from f k l) = List.length l.
Proof. induction l as [|x l IH]; intros k; simpl; [reflexivity | now rewrite IH]. Qed.

Lemma map_from_numbers (l : list Clause) : forall k,
  map clause_number
      (map_from (fun item index =>
                   {| clause_number := index + 1;
                      clause_heading := clause item;
                      clause_body := explanation item |}) k l)
  = seq (k + 1) (List.length l).
Proof.
  induction l as [|x l IH]; intros k; simpl; [reflexivity |].
  rewrite IH. now replace (S k + 1) with (S (k + 1)) by lia.
Qed.

Lemma clauseNumbers_seq (a : Analysis) :
  clauseNumbers a = seq 1 (List.length (key_clauses a)).
Proof.
  unfold clauseNumbers, clausesTab, array_map.
  destruct (key_clauses a) as [|c l] eqn:Hk; [reflexivity |].
  change (0 <? List.length (c :: l)) with true. cbv iota.
  now rewrite map_from_numbers.
Qed.

End ClauseNumberFacts.

(** ** Overlapping analysis requests *)

Section ScheduleFacts.

Import DocumentAnalysis Schedule.

Variable doc : Document.

Lemma analyzeCount_app (l1 l2 : list Request) :
  analyzeCount (l1 ++ l2)%list = analyzeCount l1 + analyzeCount l2.
Proof. unfold analyzeCount. now rewrite filter_app, length_app. Qed.

Lemma settle_sends_nothing (response : Outcome Analysis) (st : State) :
  requests (snd (analyzeDocument_settle response st)) = [].
Proof. destruct response; reflexivity. Qed.

Lemma step_counts (w w' : World) (e : Event) :
  step doc w e = Some w' ->
  analyzeCount (sent w') = analyzeCount (sent w) + (if callsAnalyze doc e then 1 else 0)
  /\ calls w' = calls w + (if callsAnalyze doc e then 1 else 0)
  /\ received w' = (received w ++ handed [e])%list.
Proof.
  destruct e as [| | k response]; simpl.
  - intros H. injection H as <-. unfold after_call; simpl.
    rewrite analyzeCount_app, mount_analyzeCount.
    now rewrite app_nil_r.
  - destruct ((0 <? view w) && buttonRendered (ui w)); [| discriminate].
    intros H. injection H as <-. unfold after_call; simpl.
    rewrite analyzeCount_app. now rewrite app_nil_r.
  - destruct (ownerOf k (inFlight w)); [| discriminate].
    intros H. injection H as <-. simpl.
    rewrite settle_sends_nothing, app_nil_r, !Nat.add_0_r.
    destruct response; simpl; [auto | now rewrite app_nil_r].
Qed.

(** C8, as the code has it.  [analyzeDocument] has no in-flight check: along
    every schedule, each call of it (by the mount effect of a view opened on
    a pending document, or by the button) sends one analysis request of its
    own, so the number of requests sent grows by the number of calls,
    overlapping or not; and each call that settles is handed the record of
    its own response. *)
Theorem every_call_sends_its_own_request (events : list Event) : forall (w w' : World)
  (Hrun : run doc w events = Some w'),
  analyzeCount (sent w')
  = analyzeCount (sent w) + List.length (filter (callsAnalyze doc) events)
  /\ calls w' = calls w + List.length (filter (callsAnalyze doc) events)
  /\ received w' = (received w ++ handed events)%list.
Proof.
  induction events as [|e events IH]; intros w w' Hrun; simpl in Hrun.
  - injection Hrun as <-. simpl. now rewrite !Nat.add_0_r, app_nil_r.
  - destruct (step doc w e) as [w1|] eqn:Hstep; [| discriminate].
    destruct (step_counts _ _ _ Hstep) as (Hs & Hc & Hr).
    destruct (IH _ _ Hrun) as (Hs' & Hc' & Hr').
    rewrite Hs', Hc', Hr', Hs, Hc, Hr.
    replace (handed (e :: events)) with (handed [e] ++ handed events)%list
      by (unfold handed; simpl; now rewrite app_nil_r).
    simpl filter. destruct (callsAnalyze doc e); simpl List.length;
      rewrite <- ?app_assoc; repeat split; lia.
Qed.

(** *** Within one view *)

Lemma mount_isAnalyzing :
  isAnalyzing (fst (useEffect_document doc initial)) = callsAnalyze doc Open.
Proof.
  unfold useEffect_document, analyzeDocument_call, loadChatHistory_call, callsAnalyze.
  destruct (String.eqb (analysis_status doc) "completed" && truthy (doc_summary doc));
    simpl; [reflexivity |].
  destruct (String.eqb (analysis_status doc) "pending"); reflexivity.
Qed.

Lemma inFlightOf_app (v : nat) (l1 l2 : list (nat * nat)) :
  inFlightOf v (l1 ++ l2) = inFlightOf v l1 + inFlightOf v l2.
Proof. unfold inFlightOf. now rewrite filter_app, length_app. Qed.

Lemma inFlightOf_new (v u c n : nat) :
  inFlightOf v (map (fun c => (c, u)) (seq c n)) = if Nat.eqb v u then n else 0.
Proof.
  unfold inFlightOf. revert c. induction n as [|n IH]; intros c; simpl.
  - now destruct (Nat.eqb v u).
  - specialize (IH (S c)). destruct (Nat.eqb v u); simpl; now rewrite IH.
Qed.

Lemma inFlightOf_beyond (v : nat) (l : list (nat * nat)) (bound : nat) :
  (forall c u, In (c, u) l -> u <= bound) -> bound < v -> inFlightOf v l = 0.
Proof.
  intros Hl Hv. unfold inFlightOf. induction l as [|[c u] l IH]; [reflexivity |].
  simpl. assert (Hu : u <= bound) by (apply (Hl c); now left).
  destruct (Nat.eqb_spec v u); [lia |].
  apply IH. intros c' u' Hin. apply (Hl c'). now right.
Qed.

Lemma ownerOf_in (k v : nat) (l : list (nat * nat)) :
  ownerOf k l = Some v -> In (k, v) l.
Proof.
  unfold ownerOf. destruct (find (fun p => Nat.eqb k (fst p)) l) as [[c u]|] eqn:Hf;
    [| discriminate].
  intros H. injection H as <-. apply find_some in Hf as [Hin Hk].
  apply Nat.eqb_eq in Hk. simpl in Hk. now subst.
Qed.

Lemma settled_in (k : nat) (l : list (nat * nat)) (p : nat * nat) :
  In p (filter (fun p => negb (Nat.eqb k (fst p))) l) -> In p l.
Proof. intros H. now apply filter_In in H. Qed.

Lemma settled_nodup (k : nat) (l : list (nat * nat)) :
  NoDup (map fst l) -> NoDup (map fst (filter (fun p => negb (Nat.eqb k (fst p))) l)).
Proof.
  induction l as [|p l IH]; simpl; intros Hnd; [constructor |].
  inversion Hnd as [|x xs Hx Hxs]; subst.
  destruct (negb (Nat.eqb k (fst p))); simpl; [| now apply IH].
  constructor; [| now apply IH].
  intros Hin. apply Hx. apply in_map_iff in Hin as (q & Hq & Hin).
  apply in_map_iff. exists q. split; [exact Hq | now apply settled_in in Hin].
Qed.

Lemma settled_le (k v : nat) (l : list (nat * nat)) :
  inFlightOf v (filter (fun p => negb (Nat.eqb k (fst p))) l) <= inFlightOf v l.
Proof.
  unfold inFlightOf. induction l as [|p l IH]; simpl; [lia |].
  destruct (negb (Nat.eqb k (fst p))); simpl; destruct (Nat.eqb v (snd p)); simpl; lia.
Qed.

Lemma settled_own (k v : nat) (l : list (nat * nat)) :
  In (k, v) l ->
  inFlightOf v (filter (fun p => negb (Nat.eqb k (fst p))) l) < inFlightOf v l.
Proof.
  induction l as [|p l IH]; [intros [] |].
  intros [-> | Hin].
  - pose proof (settled_le k v l) as Hle. unfold inFlightOf in *. simpl.
    rewrite !Nat.eqb_refl. simpl. lia.
  - specialize (IH Hin). unfold inFlightOf in *. simpl.
    destruct (negb (Nat.eqb k (fst p))); simpl; destruct (Nat.eqb v (snd p)); simpl; lia.
Qed.

Lemma settled_absent (k : nat) (l : list (nat * nat)) :
  ~ In k (map fst l) -> filter (fun p => negb (Nat.eqb k (fst p))) l = l.
Proof.
  induction l as [|p l IH]; simpl; intros Hk; [reflexivity |].
  destruct (Nat.eqb_spec k (fst p)) as [-> | Hne]; simpl; [tauto |].
  f_equal. apply IH. tauto.
Qed.

Lemma settled_other (k v u : nat) (l : list (nat * nat)) :
  NoDup (map fst l) -> In (k, v) l -> u <> v ->
  inFlightOf u (filter (fun p => negb (Nat.eqb k (fst p))) l) = inFlightOf u l.
Proof.
  induction l as [|[c x] l IH]; [intros _ [] |].
  intros Hnd Hin Huv. inversion Hnd as [|y ys Hy Hys]; subst. simpl in Hy.
  unfold inFlightOf in *. simpl.
  destruct (Nat.eqb_spec k c) as [-> | Hne]; simpl.
  - destruct Hin as [Heq | Hin].
    + injection Heq as ->. rewrite settled_absent by exact Hy.
      destruct (Nat.eqb_spec u v); [contradiction | reflexivity].
    + exfalso. apply Hy. apply in_map_iff. now exists (c, v).
  - destruct Hin as [Heq | Hin]; [injection Heq as -> _; contradiction |].
    specialize (IH Hys Hin Huv).
    destruct (Nat.eqb u x); simpl; now rewrite IH.
Qed.

Lemma after_call_consistent (w : World) (v : nat) (res : State * list Effect) :
  Consistent w ->
  view w <= v ->
  analyzeCount (requests (snd res)) <= 1 ->
  inFlightOf v (inFlight w) + analyzeCount (requests (snd res))
  = (if isAnalyzing (fst res) then 1 else 0) ->
  Consistent (after_call w v res).
Proof.
  intros (Hnd & Hb & Hcur & Hone) Hv Hn Hnew. unfold Consistent, after_call. simpl.
  set (n := analyzeCount (requests (snd res))) in *.
  split; [| split; [| split]].
  - rewrite map_app, map_map. simpl. rewrite map_id.
    apply NoDup_app; [exact Hnd | apply seq_NoDup |].
    intros c Hc Hs. apply in_seq in Hs.
    apply in_map_iff in Hc as ([c' u] & <- & Hin). apply Hb in Hin. simpl in Hs. lia.
  - intros c u Hin. apply in_app_or in Hin as [Hin | Hin].
    + apply Hb in Hin. lia.
    + apply in_map_iff in Hin as (c' & Heq & Hs). injection Heq as <- <-.
      apply in_seq in Hs. lia.
  - rewrite inFlightOf_app, inFlightOf_new, Nat.eqb_refl. exact Hnew.
  - intros u. rewrite inFlightOf_app, inFlightOf_new.
    destruct (Nat.eqb_spec u v) as [-> | Hne].
    + rewrite Hnew. destruct (isAnalyzing (fst res)); lia.
    + specialize (Hone u). lia.
Qed.

Lemma step_consistent (w w' : World) (e : Event) :
  Consistent w -> step doc w e = Some w' -> Consistent w'.
Proof.
  intros Hw. pose proof Hw as (Hnd & Hb & Hcur & Hone).
  destruct e as [| | k response]; simpl.
  - intros H. injection H as <-.
    apply after_call_consistent; [exact Hw | lia | | ].
    + rewrite mount_analyzeCount. destruct (callsAnalyze doc Open); lia.
    + rewrite mount_analyzeCount, mount_isAnalyzing.
      rewrite (inFlightOf_beyond (S (view w)) (inFlight w) (view w)); [reflexivity | | lia].
      intros c u Hin. now apply Hb in Hin.
  - destruct (0 <? view w); simpl; [| discriminate].
    unfold buttonRendered. destruct (isAnalyzing (ui w)) eqn:Han; simpl; [discriminate |].
    destruct (analysis (ui w)); [discriminate |].
    intros H. injection H as <-.
    apply after_call_consistent; [exact Hw | lia | apply Nat.le_refl |].
    change (inFlightOf (view w) (inFlight w) + 1 = 1). rewrite Hcur. reflexivity.
  - destruct (ownerOf k (inFlight w)) as [v|] eqn:Hown; [| discriminate].
    apply ownerOf_in in Hown.
    intros H. injection H as <-. unfold Consistent. simpl.
    split; [now apply settled_nodup |].
    split; [intros c u Hin; apply settled_in in Hin; now apply Hb |].
    split.
    + destruct (Nat.eqb_spec v (view w)) as [-> | Hne].
      * pose proof (settled_own _ _ _ Hown) as Hlt. specialize (Hone (view w)).
        destruct response; simpl; lia.
      * rewrite (settled_other k v (view w)) by (assumption || congruence). exact Hcur.
    + intros u. pose proof (settled_le k u (inFlight w)). specialize (Hone u). lia.
Qed.

Lemma start_consistent : Consistent start.
Proof.
  unfold Consistent, start. simpl.
  split; [constructor |]. split; [intros c v [] |]. split; [reflexivity |].
  intros v. apply Nat.le_0_l.
Qed.

(** However the events interleave, a view never has two analysis requests in
    flight: its button is not rendered while it is analyzing.  The requests
    that overlap are those of different views of the document. *)
Lemma one_request_in_flight_per_view (events : list Event) : forall (w w' : World),
  Consistent w -> run doc w events = Some w' ->
  Consistent w' /\ forall v, inFlightOf v (inFlight w') <= 1.
Proof.
  induction events as [|e events IH]; intros w w' Hw Hrun; simpl in Hrun.
  - injection Hrun as <-. split; [exact Hw | apply Hw].
  - destruct (step doc w e) as [w1|] eqn:Hstep; [| discriminate].
    apply (IH w1 w'); [| exact Hrun]. now apply (step_consistent w w1 e).
Qed.

End ScheduleFacts.

(** A pending document opened twice, the second time while the request of
    the first view is in flight: both requests are sent, and the two calls
    are handed two different records. *)
Lemma overlapping_requests_are_both_sent :
  exists w1 w2,
    Schedule.run Examples.uploaded_lease Schedule.start
      [Schedule.Open; Schedule.Open] = Some w1
    /\ Schedule.inFlight w1 = [(0, 1); (1, 2)]
    /\ Schedule.run Examples.uploaded_lease w1
         [Schedule.Settle 0 (Resolved Examples.first_answer);
          Schedule.Settle 1 (Resolved Examples.second_answer)] = Some w2
    /\ Schedule.analyzeCount (Schedule.sent w2) = 2
    /\ Schedule.analyzeCount (Schedule.sent w2) <> 1
    /\ Schedule.received w2 = [(0, Examples.first_answer); (1, Examples.second_answer)]
    /\ Examples.first_answer <> Examples.second_answer.
Proof.
  eexists. eexists.
  split; [reflexivity |].
  split; [reflexivity |].
  split; [reflexivity |].
  split; [reflexivity |].
  split; [discriminate |].
  split; [reflexivity | discriminate].
Qed.

Lemma every_call_sends_its_own_request_witness :
  exists w,
    Schedule.run Examples.uploaded_lease Schedule.start
      [Schedule.Open; Schedule.Settle 0 (Rejected "timeout");
       Schedule.ClickAnalyze;
       Schedule.Settle 1 (Resolved Examples.first_answer)] = Some w
    /\ Schedule.analyzeCount (Schedule.sent w) = 2
    /\ Schedule.received w = [(1, Examples.first_answer)].
Proof.
  eexists. split; [reflexivity |].
  destruct (every_call_sends_its_own_request Examples.uploaded_lease
              [Schedule.Open; Schedule.Settle 0 (Rejected "timeout");
               Schedule.ClickAnalyze;
               Schedule.Settle 1 (Resolved Examples.first_answer)]
              Schedule.start _ eq_refl) as (Hsent & _ & Hrec).
  split; [exact Hsent | exact Hrec].
Defined.

(** ** The parser *)

Section BlankFacts.

Lemma isBlank_app (a b : string) : isBlank (a ++ b) = isBlank a && isBlank b.
Proof.
  induction a as [|c a IH]; simpl; [reflexivity |].
  now rewrite IH, andb_assoc.
Qed.

Lemma isBlank_whitespace (s : string) :
  isBlank s = true <-> Parser.WhitespaceOnly s.
Proof.
  unfold Parser.WhitespaceOnly. induction s as [|c s IH]; simpl.
  - split; [intros _ c [] | reflexivity].
  - rewrite andb_true_iff, IH. split.
    + intros [Hc Hs] d [<- | Hd]; auto.
    + intros H. split; [apply H; now left | intros d Hd; apply H; now right].
Qed.

Lemma isBlank_occurs (sub s : string) :
  Occurs sub s -> isBlank s = true -> isBlank sub = true.
Proof.
  intros (pre & post & ->). rewrite !isBlank_app, !andb_true_iff. tauto.
Qed.

End BlankFacts.

Section LineFacts.

Import Parser.

Lemma lines_not_nil (s : string) : lines s <> [].
Proof.
  destruct s as [|c s]; simpl; [discriminate |].
  destruct (Ascii.eqb c LF); [discriminate |].
  destruct (lines s); discriminate.
Qed.

Lemma unlines_cons (l : string) (ls : list string) :
  ls <> [] -> unlines (l :: ls) = l ++ String LF (unlines ls).
Proof. destruct ls; [contradiction | reflexivity]. Qed.

(** Cutting a text into lines loses nothing. *)
Lemma unlines_lines (s : string) : unlines (lines s) = s.
Proof.
  induction s as [|c s IH]; [reflexivity |].
  simpl lines. destruct (Ascii.eqb c LF) eqn:Hc.
  - apply Ascii.eqb_eq in Hc. subst c.
    rewrite unlines_cons by apply lines_not_nil. now rewrite IH.
  - pose proof (lines_not_nil s) as Hne.
    destruct (lines s) as [|l ls]; [contradiction |].
    destruct ls as [|l' ls].
    + simpl in *. now rewrite IH.
    + rewrite unlines_cons by discriminate.
      rewrite unlines_cons in IH by discriminate.
      rewrite <- IH. reflexivity.
Qed.

Lemma unlines_app (l1 l2 : list string) :
  l1 <> [] -> l2 <> [] ->
  unlines (l1 ++ l2) = unlines l1 ++ String LF (unlines l2).
Proof.
  intros H1 H2. induction l1 as [|x l1 IH]; [contradiction |].
  destruct l1 as [|y l1].
  - simpl app. now rewrite unlines_cons.
  - change ((x :: y :: l1) ++ l2)%list with (x :: ((y :: l1) ++ l2))%list.
    rewrite unlines_cons by discriminate.
    rewrite (unlines_cons x (y :: l1)) by discriminate.
    rewrite IH by discriminate. now rewrite append_assoc.
Qed.

(** The content of consecutive lines occurs verbatim in the content of any
    run of lines around them. *)
Lemma unlines_occurs (l1 body l2 : list string) :
  body <> [] -> Occurs (unlines body) (unlines (l1 ++ body ++ l2)).
Proof.
  intros Hb. unfold Occurs.
  destruct l1 as [|x l1], l2 as [|y l2].
  - exists "", "". simpl app. now rewrite app_nil_r, append_empty_r.
  - exists "", (String LF (unlines (y :: l2))). simpl app.
    now rewrite unlines_app by (assumption || discriminate).
  - exists (unlines (x :: l1) ++ String LF ""), "".
    rewrite app_nil_r, unlines_app by (assumption || discriminate).
    now rewrite append_empty_r, append_assoc.
  - exists (unlines (x :: l1) ++ String LF ""), (String LF (unlines (y :: l2))).
    rewrite unlines_app by (discriminate || (destruct body; [contradiction | discriminate])).
    rewrite unlines_app by (assumption || discriminate).
    now rewrite append_assoc.
Qed.

Lemma isBlank_unlines (ls : list string) :
  isBlank (unlines ls) = forallb isBlank ls.
Proof.
  induction ls as [|l ls IH]; [reflexivity |].
  destruct ls as [|l' ls].
  - simpl. now rewrite andb_true_r.
  - rewrite unlines_cons by discriminate.
    rewrite isBlank_app.
    change (isBlank (String LF (unlines (l' :: ls))))
      with (isBlank (unlines (l' :: ls))).
    rewrite IH. reflexivity.
Qed.

End LineFacts.

Section SegmentFacts.

Import Parser.

Local Abbreviation NotHeader := (fun l : string => headerOf l = None).

Lemma segment_cons (l : string) (ls : list string) :
  segment (l :: ls)
  = match headerOf l with
    | Some h => ([], (h, fst (segment ls)) :: snd (segment ls))
    | None => (l :: fst (segment ls), snd (segment ls))
    end.
Proof. simpl. now destruct (segment ls). Qed.

Lemma atBoundary_leading (rest : list string) :
  AtBoundary rest -> fst (segment rest) = [].
Proof.
  intros [-> | (l & rest' & -> & Hl)]; [reflexivity |].
  rewrite segment_cons. destruct (headerOf l); [reflexivity | contradiction].
Qed.

(** Lines without a header in front of other lines join the leading
    lines. *)
Lemma segment_app_plain (before rest : list string) :
  Forall NotHeader before ->
  segment (before ++ rest)
  = ((before ++ fst (segment rest))%list, snd (segment rest)).
Proof.
  induction 1 as [|l before Hl _ IH]; simpl app.
  - now destruct (segment rest).
  - rewrite segment_cons, Hl, IH. reflexivity.
Qed.

(** Lines in front of a boundary are segmented on their own. *)
Lemma segment_app_boundary (front rest : list string) :
  AtBoundary rest ->
  segment (front ++ rest)
  = (fst (segment front), (snd (segment front) ++ snd (segment rest))%list).
Proof.
  intros Hb. induction front as [|l front IH]; simpl app.
  - pose proof (atBoundary_leading rest Hb) as Hlead.
    destruct (segment rest) as [leading sections]. simpl in *. now subst.
  - rewrite (segment_cons l (front ++ rest)), IH. simpl.
    now destruct (segment front), (headerOf l).
Qed.

Lemma segment_no_header (ls : list string) :
  Forall NotHeader ls -> segment ls = (ls, []).
Proof.
  intros H. rewrite <- (app_nil_r ls) at 1.
  rewrite segment_app_plain by exact H. simpl. now rewrite app_nil_r.
Qed.

(** The leading lines are the lines before the first header. *)
Lemma segment_leading (ls before rest : list string) :
  ls = (before ++ rest)%list -> Forall NotHeader before -> AtBoundary rest ->
  fst (segment ls) = before.
Proof.
  intros -> Hb Hr. rewrite segment_app_plain by exact Hb. simpl.
  now rewrite atBoundary_leading, app_nil_r.
Qed.

Lemma segment_leading_shape (ls : list string) :
  Forall NotHeader (fst (segment ls))
  /\ exists rest, ls = (fst (segment ls) ++ rest)%list /\ AtBoundary rest.
Proof.
  induction ls as [|l ls [IHf (rest & IHe & IHb)]].
  - split; [constructor | exists []; split; [reflexivity | now left]].
  - rewrite segment_cons. destruct (headerOf l) eqn:Hl; simpl.
    + split; [constructor |]. exists (l :: ls). split; [reflexivity |].
      right. exists l, ls. split; [reflexivity | congruence].
    + split; [now constructor |]. exists rest. split; [now f_equal | exact IHb].
Qed.

(** Every section of the text is found by the segmentation ... *)
Lemma segment_complete (ls : list string) (h : Header) (body : list string) :
  SectionAt ls h body -> In (h, body) (snd (segment ls)).
Proof.
  intros (before & l & rest & -> & Hl & Hbody & Hrest).
  assert (Hb : AtBoundary (l :: body ++ rest))
    by (right; exists l, (body ++ rest)%list; split; [reflexivity | congruence]).
  rewrite segment_app_boundary by exact Hb.
  rewrite (segment_cons l (body ++ rest)), Hl, segment_app_plain by exact Hbody.
  rewrite (atBoundary_leading rest Hrest), app_nil_r.
  simpl. apply in_or_app. right. now left.
Qed.

(** ... and it finds nothing else. *)
Lemma segment_sound (ls : list string) (h : Header) (body : list string) :
  In (h, body) (snd (segment ls)) -> SectionAt ls h body.
Proof.
  induction ls as [|l ls IH]; [intros [] |].
  rewrite segment_cons. destruct (headerOf l) as [h0|] eqn:Hl; simpl.
  - intros [Heq | Hin].
    + injection Heq as <- <-.
      destruct (segment_leading_shape ls) as (Hf & rest & He & Hb).
      exists [], l, rest. repeat split; try assumption. simpl. now f_equal.
    + destruct (IH Hin) as (before & l' & rest & -> & H1 & H2 & H3).
      exists (l :: before), l', rest. repeat split; assumption.
  - intros Hin. destruct (IH Hin) as (before & l' & rest & -> & H1 & H2 & H3).
    exists (l :: before), l', rest. repeat split; assumption.
Qed.

Lemma Header_eqb_eq (a b : Header) : Header_eqb a b = true <-> a = b.
Proof. destruct a, b; simpl; split; congruence. Qed.

Lemma Header_eqb_refl (h : Header) : Header_eqb h h = true.
Proof. now destruct h. Qed.

(** The lines of a section lie, in one piece, within the lines filed under
    its header. *)
Lemma sectionLines_contains (h : Header) (body : list string)
  (sections : list (Header * list string)) :
  In (h, body) sections ->
  exists l1 l2, sectionLines h sections = (l1 ++ body ++ l2)%list.
Proof.
  unfold sectionLines. induction sections as [|s sections IH]; [intros [] |].
  intros [-> | Hin]; simpl.
  - rewrite Header_eqb_refl. now exists [], (flat_map
      (fun s => if Header_eqb h (fst s) then snd s else []) sections).
  - destruct (IH Hin) as (l1 & l2 & ->).
    exists ((if Header_eqb h (fst s) then snd s else []) ++ l1)%list, l2.
    now rewrite <- app_assoc.
Qed.

Lemma sectionLines_blank (h : Header) (sections : list (Header * list string)) :
  (forall body, In (h, body) sections -> isBlank (unlines body) = true) ->
  isBlank (unlines (sectionLines h sections)) = true.
Proof.
  intros H. rewrite isBlank_unlines. apply forallb_forall. intros l Hl.
  unfold sectionLines in Hl. apply in_flat_map in Hl as ([h' body] & Hs & Hl).
  simpl in Hl. destruct (Header_eqb h h') eqn:Hh; [| destruct Hl].
  apply Header_eqb_eq in Hh. subst h'.
  specialize (H body Hs). rewrite isBlank_unlines in H.
  rewrite forallb_forall in H. now apply H.
Qed.

End SegmentFacts.

Section ParserFacts.

Import Parser.

Lemma parse_blank (raw : string) : isBlank raw = true -> parse raw = Error EmptyInput.
Proof. intros H. unfold parse. now rewrite H. Qed.

Lemma parse_not_blank (raw : string) :
  isBlank raw = false ->
  parse raw
  = Ok {| summary :=
            buildSummary
              (unlines (sectionLines ExecutiveSummary (snd (segment (lines raw)))))
              (unlines (fst (segment (lines raw))));
          keyClauses :=
            extractClauses (sectionLines KeyClausesAnalysis (snd (segment (lines raw))));
          riskAssessment :=
            unlines (sectionLines RiskAssessment (snd (segment (lines raw)))) |}.
Proof. intros H. unfold parse. rewrite H. now destruct (segment (lines raw)). Qed.

Lemma parse_error_iff (raw : string) :
  parse raw = Error EmptyInput <-> isBlank raw = true.
Proof.
  split; [| apply parse_blank].
  destruct (isBlank raw) eqn:Hb; [reflexivity |].
  rewrite parse_not_blank by exact Hb. discriminate.
Qed.

(** *** The summary *)

Lemma buildSummary_filled (executive leading : string) :
  buildSummary executive leading <> []
  /\ Forall (fun block => isBlank block = false) (buildSummary executive leading).
Proof.
  unfold buildSummary.
  destruct (isBlank executive) eqn:He, (isBlank leading) eqn:Hl; simpl;
    (split; [discriminate | repeat constructor; assumption]).
Qed.

Lemma buildSummary_leading (executive leading : string) :
  isBlank leading = false -> In leading (buildSummary executive leading).
Proof.
  intros Hl. unfold buildSummary. rewrite Hl.
  destruct (isBlank executive); simpl; tauto.
Qed.

Lemma buildSummary_executive (executive leading : string) :
  isBlank executive = false ->
  hd_error (buildSummary executive leading) = Some executive.
Proof. intros He. unfold buildSummary. now rewrite He. Qed.

Lemma buildSummary_no_executive (executive leading : string) :
  isBlank executive = true ->
  buildSummary executive leading = if isBlank leading then [NO_SUMMARY] else [leading].
Proof. intros He. unfold buildSummary. rewrite He. now destruct (isBlank leading). Qed.

(** The content before the first header is what the segmentation keeps as
    leading lines. *)
Lemma leadingContent_segment (raw content : string) :
  LeadingContent raw content -> content = unlines (fst (segment (lines raw))).
Proof.
  intros (before & rest & Hl & Hb & Hr & ->).
  now rewrite (segment_leading _ _ _ Hl Hb Hr).
Qed.

Lemma leadingContent_exists (raw : string) :
  LeadingContent raw (unlines (fst (segment (lines raw)))).
Proof.
  destruct (segment_leading_shape (lines raw)) as (Hf & rest & He & Hb).
  now exists (fst (segment (lines raw))), rest.
Qed.

(** It is a prefix of the raw text, character for character. *)
Lemma leadingContent_prefix (raw content : string) :
  LeadingContent raw content -> exists rest, raw = content ++ rest.
Proof.
  intros (before & rest & Hl & _ & _ & ->).
  rewrite <- (unlines_lines raw), Hl.
  destruct before as [|b before].
  - now exists (unlines rest).
  - destruct rest as [|r rest].
    + exists "". now rewrite app_nil_r, append_empty_r.
    + exists (String LF (unlines (r :: rest))).
      now rewrite unlines_app by discriminate.
Qed.

Lemma leadingContent_not_blank (raw content : string) :
  LeadingContent raw content -> isBlank content = false -> isBlank raw = false.
Proof.
  intros Hc Hb. destruct (leadingContent_prefix _ _ Hc) as [rest ->].
  now rewrite isBlank_app, Hb.
Qed.

Lemma executive_content_occurs (raw content : string) :
  SectionContent raw ExecutiveSummary content -> isBlank content = false ->
  Occurs content
    (unlines (sectionLines ExecutiveSummary (snd (segment (lines raw))))).
Proof.
  intros (body & Hat & ->) Hb.
  apply segment_complete, sectionLines_contains in Hat as (l1 & l2 & ->).
  apply unlines_occurs. intros ->. discriminate.
Qed.

Lemma executive_all_blank (raw : string) :
  (forall content, SectionContent raw ExecutiveSummary content -> isBlank content = true) ->
  isBlank (unlines (sectionLines ExecutiveSummary (snd (segment (lines raw))))) = true.
Proof.
  intros H. apply sectionLines_blank. intros body Hin.
  apply H. exists body. split; [now apply segment_sound | reflexivity].
Qed.

(** C4.  Content before the first recognized header that is more than
    white space makes the parser succeed and appears verbatim, as one
    block, in the returned summary.  A returned summary is never empty and
    none of its blocks is blank: its first block holds the content of
    every EXECUTIVE SUMMARY section that is more than white space; without
    such a section the summary is the content before the first header; and
    without that too it is the fixed placeholder. *)
Theorem summary_keeps_content (raw : string) :
  (forall content,
      LeadingContent raw content -> isBlank content = false ->
      exists r, parse raw = Ok r /\ In content (summary r))
  /\ (forall r,
        parse raw = Ok r ->
        summary r <> []
        /\ Forall (fun block => isBlank block = false) (summary r)
        /\ (forall content,
              SectionContent raw ExecutiveSummary content -> isBlank content = false ->
              exists block, hd_error (summary r) = Some block /\ Occurs content block)
        /\ ((forall content,
                SectionContent raw ExecutiveSummary content -> isBlank content = true) ->
            forall content,
              LeadingContent raw content ->
              summary r = if isBlank content then [NO_SUMMARY] else [content])).
Proof.
  split.
  - intros content Hc Hb.
    rewrite (parse_not_blank raw (leadingContent_not_blank _ _ Hc Hb)).
    eexists. split; [reflexivity |]. simpl.
    rewrite <- (leadingContent_segment _ _ Hc). now apply buildSummary_leading.
  - intros r Hparse.
    destruct (isBlank raw) eqn:Hraw; [now rewrite parse_blank in Hparse |].
    rewrite parse_not_blank in Hparse by exact Hraw. injection Hparse as <-. simpl.
    split; [apply buildSummary_filled |].
    split; [apply buildSummary_filled |].
    split.
    + intros content Hs Hb.
      pose proof (executive_content_occurs _ _ Hs Hb) as Hocc.
      eexists. split; [| exact Hocc].
      apply buildSummary_executive.
      destruct (isBlank (unlines (sectionLines ExecutiveSummary
                                    (snd (segment (lines raw)))))) eqn:He;
        [| reflexivity].
      rewrite (isBlank_occurs _ _ Hocc He) in Hb. discriminate.
    + intros Hnone content Hc.
      rewrite <- (leadingContent_segment _ _ Hc).
      apply buildSummary_no_executive, executive_all_blank, Hnone.
Qed.

End ParserFacts.

Section ClauseFacts.

Import Parser.

Lemma numberFrom_indices (segments : list (list string)) : forall k,
  map index (numberFrom k segments) = seq k (List.length segments).
Proof.
  induction segments as [|s segments IH]; intros k; simpl; [reflexivity |].
  rewrite IH. f_equal. unfold clauseOf. now destruct (splitTitle (unlines s)).
Qed.

Lemma numberFrom_length (segments : list (list string)) : forall k,
  List.length (numberFrom k segments) = List.length segments.
Proof. induction segments as [|s segments IH]; intros k; simpl; auto. Qed.

(** The parser numbers the entries it extracts by position, so the stored
    [index] of an entry is the number the clauses tab shows for it. *)
Lemma extractClauses_indices (content : list string) :
  map index (extractClauses content) = seq 1 (List.length (extractClauses content)).
Proof.
  unfold extractClauses. destruct (snd (subSegments content)) as [|s segments].
  - reflexivity.
  - now rewrite numberFrom_indices, numberFrom_length.
Qed.

Lemma parse_indices (raw : string) (r : AnalysisRecord) :
  parse raw = Ok r -> map index (keyClauses r) = seq 1 (List.length (keyClauses r)).
Proof.
  intros H. destruct (isBlank raw) eqn:Hb; [now rewrite parse_blank in H |].
  rewrite parse_not_blank in H by exact Hb. injection H as <-.
  apply extractClauses_indices.
Qed.

Lemma extractClauses_not_nil (content : list string) : extractClauses content <> [].
Proof.
  unfold extractClauses. destruct (snd (subSegments content)); discriminate.
Qed.

Lemma extractClauses_absent :
  extractClauses [] = [ {| index := 1; title := "General Clauses"; explanation := "" |} ].
Proof. reflexivity. Qed.

(** C3.  In a record the parser returns, with [n] key clauses, the [index]
    fields of the entries are 1, 2, ..., n in order: the entry at place [i]
    (from 0) has index [i + 1], no index is skipped and none is repeated.
    The clauses tab, which numbers the clauses it lists with the counter
    [index + 1] of [Array.map], shows the same numbers for an analysis of
    that many clauses. *)
Theorem clause_indices_contiguous (raw : string) (r : AnalysisRecord) (n : nat)
  (Hparse : parse raw = Ok r) (Hlen : List.length (keyClauses r) = n) :
  map index (keyClauses r) = seq 1 n
  /\ NoDup (map index (keyClauses r))
  /\ (forall i entry, nth_error (keyClauses r) i = Some entry -> index entry = i + 1)
  /\ (forall k, In k (map index (keyClauses r)) <-> 1 <= k <= n)
  /\ (forall a : Analysis,
        List.length (key_clauses a) = n ->
        ClausesTab.clauseNumbers a = map index (keyClauses r)).
Proof.
  pose proof (parse_indices raw r Hparse) as Hseq. rewrite Hlen in Hseq.
  split; [exact Hseq |].
  split; [rewrite Hseq; apply seq_NoDup |].
  split.
  - intros i entry Hnth.
    assert (Hi : nth_error (map index (keyClauses r)) i = Some (index entry))
      by (now apply map_nth_error).
    rewrite Hseq in Hi.
    assert (Hlt : i < List.length (seq 1 n)) by (apply nth_error_Some; congruence).
    rewrite length_seq in Hlt.
    rewrite nth_error_nth' with (d := 0) in Hi by (rewrite length_seq; exact Hlt).
    rewrite seq_nth in Hi by exact Hlt. injection Hi as <-. lia.
  - split.
    + intros k. rewrite Hseq, in_seq. lia.
    + intros a Ha. now rewrite clauseNumbers_seq, Ha, Hseq.
Qed.

(** C2.  The parser fails, with [EmptyInput], exactly on the texts that are
    empty or consist of white space only.  Every other text without a
    recognized header is parsed successfully into a record with exactly one
    clause entry, which has index 1 and title "General Clauses"; the whole
    text is its summary. *)
Theorem parse_empty_input_or_degraded (raw : string) :
  (parse raw = Error EmptyInput <-> WhitespaceOnly raw)
  /\ ((exists e, parse raw = Error e) <-> WhitespaceOnly raw)
  /\ (~ WhitespaceOnly raw -> NoHeader raw ->
      exists r entry,
        parse raw = Ok r
        /\ keyClauses r = [entry]
        /\ index entry = 1
        /\ title entry = "General Clauses"
        /\ summary r = [raw]).
Proof.
  split; [| split].
  - now rewrite parse_error_iff, isBlank_whitespace.
  - rewrite <- isBlank_whitespace, <- parse_error_iff. split.
    + intros [[] H]. exact H.
    + intros H. now exists EmptyInput.
  - intros Hws Hno.
    assert (Hb : isBlank raw = false).
    { destruct (isBlank raw) eqn:Hb; [| reflexivity].
      apply isBlank_whitespace in Hb. contradiction. }
    rewrite (parse_not_blank raw Hb), (segment_no_header _ Hno). simpl.
    eexists. eexists. split; [reflexivity |]. simpl.
    split; [reflexivity |]. split; [reflexivity |]. split; [reflexivity |].
    rewrite unlines_lines. unfold buildSummary. simpl. now rewrite Hb.
Qed.

End ClauseFacts.

Lemma parse_empty_input_or_degraded_witness :
  exists r, Parser.parse "This agreement is binding." = Parser.Ok r
            /\ Parser.keyClauses r
               = [ {| Parser.index := 1; Parser.title := "General Clauses";
                      Parser.explanation := "" |} ].
Proof.
  destruct (parse_empty_input_or_degraded "This agreement is binding.")
    as (_ & _ & H).
  destruct H as (r & entry & Hparse & Hclauses & _).
  - intros Hws. specialize (Hws "T"%char (or_introl eq_refl)). discriminate Hws.
  - repeat constructor.
  - exists r. split; [exact Hparse |].
    rewrite Hclauses. vm_compute in Hparse. injection Hparse as <-.
    vm_compute in Hclauses. exact (eq_sym Hclauses).
Defined.

Lemma scenario_parses : Parser.parse Examples.scenario = Parser.Ok Examples.scenario_record.
Proof. reflexivity. Qed.

Lemma clause_indices_contiguous_witness :
  map Parser.index (Parser.keyClauses Examples.scenario_record) = [1; 2]
  /\ ClausesTab.clauseNumbers Examples.first_answer = [1; 2].
Proof.
  destruct (clause_indices_contiguous Examples.scenario Examples.scenario_record 2
              scenario_parses eq_refl) as (Hseq & _ & _ & _ & Htab).
  split; [exact Hseq |].
  rewrite (Htab Examples.first_answer eq_refl). exact Hseq.
Defined.

Lemma summary_keeps_content_witness :
  exists r, Parser.parse Examples.scenario = Parser.Ok r
            /\ In "Some preamble." (Parser.summary r).
Proof.
  apply (proj1 (summary_keeps_content Examples.scenario) "Some preamble.").
  - exists ["Some preamble."]. eexists.
    split; [vm_compute; reflexivity |].
    split; [repeat constructor |].
    split; [| reflexivity].
    right. eexists. eexists. split; [reflexivity | vm_compute; discriminate].
  - reflexivity.
Defined.

(** * Further properties of the front end *)

(** ** The risk meter, continued *)

Section RiskMeterBounds.

Import RiskMeter.

Lemma levelPercentage_bounded (level : string) :
  exists q, levelPercentage level = Finite q /\ (0 <= q)%Q /\ (q <= 100)%Q.
Proof.
  pose proof (levelPercentage_values level) as Hin. simpl in Hin.
  destruct Hin as [<- | [<- | [<- | [<- | []]]]];
    eexists; (split; [reflexivity | split; discriminate]).
Qed.

(** X1.  Whatever props the meter is given (a score of any kind, a level of
    any spelling), the percentage it shows is a finite number between 0 and
    100: a score is used only when it lies in that range, and the level
    table holds 85, 60, 25 and 50. *)
Theorem riskPercentage_within_bounds (p : Props) :
  exists q, getRiskPercentage p = Finite q /\ (0 <= q)%Q /\ (q <= 100)%Q.
Proof.
  unfold getRiskPercentage.
  destruct (riskScore_of p) as [x |]; [| apply levelPercentage_bounded].
  destruct (scoreInRange (Num x)) eqn:Hr; [| apply levelPercentage_bounded].
  destruct x as [q | | |]; simpl in Hr; try discriminate.
  apply andb_true_iff in Hr as [H0 H100].
  exists q. split; [reflexivity |]. split; now apply Qle_bool_iff.
Qed.

(** X2.  At both places where the application draws the meter the bar is
    green ("#44ff44"), whatever the analysis says, while the level table
    alone would draw it red for 'high' and amber for 'medium'. *)
Theorem riskColor_at_call_sites (analysis : option Analysis) :
  riskColor (props_DocumentAnalysis analysis) = "#44ff44"
  /\ riskColor (props_ExportReport analysis) = "#44ff44"
  /\ gt (levelPercentage "high") 70%Q = true
  /\ gt (levelPercentage "medium") 40%Q = true
  /\ gt (levelPercentage "medium") 70%Q = false.
Proof. repeat split. Qed.

End RiskMeterBounds.

(** ** The risk level, continued *)

Section RiskLevelOrder.

Import RiskLevel RiskOrder.

Lemma occurs_trans (a b c : string) : Occurs a b -> Occurs b c -> Occurs a c.
Proof.
  intros (p1 & q1 & ->) (p2 & q2 & ->).
  exists (p2 ++ p1), (q1 ++ q2). now rewrite !append_assoc.
Qed.

Lemma occurs_lower (a b : string) : Occurs a b -> Occurs (toLowerCase a) (toLowerCase b).
Proof.
  intros (p & q & ->). exists (toLowerCase p), (toLowerCase q).
  now rewrite !toLowerCase_app.
Qed.

Lemma includes_mono (s t keyword : string) :
  Occurs s t -> includes s keyword = true -> includes t keyword = true.
Proof.
  intros Hst Hk. apply includes_iff. apply includes_iff in Hk.
  now apply (occurs_trans keyword s t).
Qed.

Lemma classify_rank_mono (s t : string) :
  Occurs s t -> rank (classify s) <= rank (classify t).
Proof.
  intros Hst. unfold classify.
  destruct (includes s "high" || includes s "severe" || includes s "critical") eqn:Hs.
  - assert (Ht : includes t "high" || includes t "severe" || includes t "critical" = true).
    { rewrite !orb_true_iff in *.
      destruct Hs as [[H | H] | H]; [left; left | left; right | right];
        now apply (includes_mono s t). }
    rewrite Ht. apply Nat.le_refl.
  - destruct (includes s "medium" || includes s "moderate") eqn:Hm.
    + assert (Ht : includes t "medium" || includes t "moderate" = true).
      { rewrite !orb_true_iff in *.
        destruct Hm as [H | H]; [left | right]; now apply (includes_mono s t). }
      rewrite Ht.
      destruct (includes t "high" || includes t "severe" || includes t "critical");
        vm_compute; lia.
    + change (rank "low") with 0. apply Nat.le_0_l.
Qed.

(** X3.  Text added to a risk assessment, in front of it or after it, never
    lowers the level: when the risk text of one analysis occurs inside the
    risk text of another, the level of the second is at least the level of
    the first in the order low, medium, high. *)
Theorem getRiskLevel_monotone (a1 a2 : Analysis) (t1 t2 : string)
  (H1 : risk_assessment a1 = Some t1) (H2 : risk_assessment a2 = Some t2)
  (Hocc : Occurs t1 t2) :
  rank (getRiskLevel (Some a1)) <= rank (getRiskLevel (Some a2)).
Proof.
  unfold getRiskLevel. simpl. rewrite H1, H2.
  destruct t1 as [|c1 r1]; [apply Nat.le_0_l |].
  destruct t2 as [|c2 r2].
  - destruct Hocc as (p & q & Heq). destruct p; discriminate.
  - simpl truthy. simpl negb. cbv iota.
    apply classify_rank_mono. now apply occurs_lower.
Qed.

End RiskLevelOrder.

Lemma getRiskLevel_monotone_witness :
  RiskOrder.rank (RiskLevel.getRiskLevel
                    (Some {| summary := ""; key_clauses := [];
                             risk_assessment := Some "Moderate risk." |}))
  <= RiskOrder.rank (RiskLevel.getRiskLevel
                       (Some {| summary := ""; key_clauses := [];
                                risk_assessment :=
                                  Some "Moderate risk. Critical gaps remain." |})).
Proof.
  apply (getRiskLevel_monotone _ _ "Moderate risk." "Moderate risk. Critical gaps remain.");
    [reflexivity | reflexivity |].
  exists "", " Critical gaps remain.". reflexivity.
Defined.

(** ** File names of exported reports *)

Section ExportNameFacts.

Import ExportReport ExportNames.

Lemma plainTail_iff (s : string) :
  plainTail s = true <->
  forall c, In c (list_ascii_of_string s) -> c <> "/"%char /\ c <> "."%char.
Proof.
  induction s as [|a s IH]; simpl.
  - split; [intros _ c [] | reflexivity].
  - rewrite !andb_true_iff, !negb_true_iff, IH. split.
    + intros [[Hs Hd] Hrest] c [<- | Hc]; [| now apply Hrest].
      split; intros ->; [now rewrite Ascii.eqb_refl in Hs | now rewrite Ascii.eqb_refl in Hd].
    + intros H. split; [split |].
      * apply Ascii.eqb_neq. apply (H a). now left.
      * apply Ascii.eqb_neq. apply (H a). now left.
      * intros c Hc. apply H. now right.
Qed.

Lemma isExtension_iff (ext : string) : isExtension ext = true <-> PlainExtension ext.
Proof.
  unfold PlainExtension. destruct ext as [|a s].
  - simpl. split; [discriminate | intros [H _]; contradiction].
  - change (isExtension (String a s)) with (plainTail (String a s)).
    rewrite plainTail_iff. split; [intros H; split; [discriminate | exact H] | tauto].
Qed.

Lemma plainTail_dot (base ext : string) : plainTail (base ++ String "." ext) = false.
Proof.
  induction base as [|c base IH]; simpl; [reflexivity |].
  rewrite IH. apply andb_false_r.
Qed.

Lemma isExtension_dot (base ext : string) : isExtension (base ++ String "." ext) = false.
Proof.
  destruct base as [|c base]; [reflexivity |].
  change (plainTail (String c base ++ String "." ext) = false). apply plainTail_dot.
Qed.

Lemma stripExtension_cut (base ext : string) :
  isExtension ext = true -> stripExtension (base ++ String "." ext) = base.
Proof.
  intros Hext. induction base as [|c base IH]; simpl.
  - now rewrite Hext.
  - rewrite isExtension_dot, andb_false_r. now rewrite IH.
Qed.

Lemma stripExtension_kept (name : string) :
  (forall base ext, name = base ++ String "." ext -> isExtension ext = false) ->
  stripExtension name = name.
Proof.
  induction name as [|c rest IH]; intros H; simpl; [reflexivity |].
  destruct (Ascii.eqb c "." && isExtension rest) eqn:Hc.
  - apply andb_true_iff in Hc as [Hdot Hext]. apply Ascii.eqb_eq in Hdot. subst c.
    rewrite (H "" rest eq_refl) in Hext. discriminate.
  - f_equal. apply IH. intros base ext ->. apply (H (String c base) ext). reflexivity.
Qed.

Lemma stripExtension_prefix (name : string) :
  exists rest, name = stripExtension name ++ rest.
Proof.
  induction name as [|c name [rest IH]]; simpl; [now exists "" |].
  destruct (Ascii.eqb c "." && isExtension name).
  - now exists (String c name).
  - exists rest. simpl. now rewrite <- IH.
Qed.

(** X4.  The name given to a downloaded report drops the last extension of
    the document's file name and nothing else: [base.ext] becomes [base]
    when [ext] is not empty and has no dot and no slash, and a name that
    ends in no such extension (no dot, a dot at the very end, a dot followed
    by a slash) is kept whole.  The result is always a prefix of the name. *)
Theorem stripExtension_cuts_last_extension (name : string) :
  (forall base ext,
      name = base ++ "." ++ ext -> PlainExtension ext -> stripExtension name = base)
  /\ ((forall base ext, name = base ++ "." ++ ext -> ~ PlainExtension ext) ->
      stripExtension name = name)
  /\ (exists rest, name = stripExtension name ++ rest)
  /\ (forall exportFormat,
        downloadName name exportFormat
        = stripExtension name ++ "_analysis." ++
          (if String.eqb exportFormat "pdf" then "pdf" else "docx")).
Proof.
  split; [| split; [| split]].
  - intros base ext -> Hext. apply stripExtension_cut. now apply isExtension_iff.
  - intros H. apply stripExtension_kept. intros base ext Heq.
    destruct (isExtension ext) eqn:He; [| reflexivity].
    apply isExtension_iff in He. now destruct (H base ext Heq).
  - apply stripExtension_prefix.
  - reflexivity.
Qed.

End ExportNameFacts.

Lemma stripExtension_cuts_last_extension_witness :
  ExportReport.stripExtension "lease.v2.pdf" = "lease.v2"
  /\ ExportReport.stripExtension "README" = "README".
Proof.
  destruct (stripExtension_cuts_last_extension "lease.v2.pdf") as (Hcut & _).
  destruct (stripExtension_cuts_last_extension "README") as (_ & Hkeep & _).
  split.
  - apply (Hcut "lease.v2" "pdf"); [reflexivity |].
    split; [discriminate |].
    intros c Hc. simpl in Hc.
    destruct Hc as [<- | [<- | [<- | []]]]; split; discriminate.
  - apply Hkeep. intros base ext Heq _.
    repeat (destruct base as [|? base]; simpl in Heq; try discriminate Heq;
            injection Heq as _ Heq).
Defined.

(** ** Exports never reach the download *)

Section ExportFacts.

Import ExportReport.

(** X5.  [handleExport] never starts a download.  When the export request
    succeeds, the handler creates the object URL and then calls
    [document.createElement], where [document] is the component's prop and
    not the page: the call throws, so the user is told "Export Failed" after
    a successful request just as after a failed one, and the dialog closes.
    With the page's document in scope the same statements would download
    the report. *)
Theorem handleExport_never_downloads (doc : Document) (response : Outcome unit) (st : State) :
  (forall name, ~ In (Download name) (snd (handleExport_settle doc response st)))
  /\ (forall toast,
        In (ShowToast toast) (snd (handleExport_settle doc response st)) ->
        Toast.title toast = Some "Export Failed")
  /\ (exists toast, In (ShowToast toast) (snd (handleExport_settle doc response st)))
  /\ last (snd (handleExport_settle doc response st)) OnClose = OnClose
  /\ isExporting (fst (handleExport_settle doc response st)) = false
  /\ In (Download (downloadName (filename doc) (exportFormat st)))
        (tryDownload DomDocument doc st).
Proof.
  destruct response as [[] | e]; simpl.
  - split; [intros name [H | [H | [H | [H | []]]]]; discriminate |].
    split; [intros toast [H | [H | [H | [H | []]]]]; try discriminate;
            injection H as <-; reflexivity |].
    split; [eexists; right; right; left; reflexivity |].
    repeat split. right. now left.
  - split; [intros name [H | [H | [H | []]]]; discriminate |].
    split; [intros toast [H | [H | [H | []]]]; try discriminate;
            injection H as <-; reflexivity |].
    split; [eexists; right; left; reflexivity |].
    repeat split. right. now left.
Qed.

(** X6.  The Q&A export button of the analysis view never starts a download
    either: its [then] callback calls [document.createElement] on the
    [document] prop of [DocumentAnalysis], the chain falls through to
    [catch], and the user gets the alert "Export failed. Please try again."
    whether the request succeeded or not. *)
Theorem qaExport_never_downloads (doc : Document) (response : Outcome unit) :
  (forall name, ~ In (QaDownload name) (qaExport_settle doc response))
  /\ In (QaAlert "Export failed. Please try again.") (qaExport_settle doc response)
  /\ qaExport_click doc
     = [QaPostExport {| document_id := id doc; format := "pdf";
                        sections := [("qa", true)] |}]
  /\ qaThen DomDocument doc
     = Resolved [QaCreateObjectURL; QaDownload (qaDownloadName (filename doc));
                 QaRevokeObjectURL].
Proof.
  destruct response as [[] | e]; simpl.
  - split; [intros name [H | [H | [H | []]]]; discriminate |].
    split; [right; right; now left | split; reflexivity].
  - split; [intros name [H | [H | []]]; discriminate |].
    split; [right; now left | split; reflexivity].
Qed.

(** *** Section check boxes *)

Import ExportNames.

Lemma toggle_four (section : SectionKey) (l : Sections) :
  FourBoxes l -> FourBoxes (handleSectionToggle section l).
Proof.
  intros (a & b & c & d & ->). destruct section; cbv; repeat eexists.
Qed.

Lemma toggled_snoc (keys : list SectionKey) (section : SectionKey) :
  toggled (keys ++ [section]) = handleSectionToggle section (toggled keys).
Proof. unfold toggled. now rewrite fold_left_app. Qed.

Lemma toggled_four (keys : list SectionKey) : FourBoxes (toggled keys).
Proof.
  induction keys as [|section keys IH] using rev_ind.
  - now exists true, true, true, true.
  - rewrite toggled_snoc. now apply toggle_four.
Qed.

Lemma clicks_snoc (section other : SectionKey) (keys : list SectionKey) :
  clicks section (keys ++ [other])
  = clicks section keys + (if SectionKey_eqb section other then 1 else 0).
Proof.
  unfold clicks. rewrite filter_app, length_app. simpl.
  now destruct (SectionKey_eqb section other).
Qed.

Lemma toggle_lookup (section other : SectionKey) (l : Sections) :
  FourBoxes l ->
  lookup other (handleSectionToggle section l)
  = if SectionKey_eqb other section then option_map negb (lookup other l)
    else lookup other l.
Proof.
  intros (a & b & c & d & ->). destruct section, other; reflexivity.
Qed.

Lemma toggle_twice (section : SectionKey) (l : Sections) :
  FourBoxes l -> handleSectionToggle section (handleSectionToggle section l) = l.
Proof.
  intros (a & b & c & d & ->).
  destruct section, a, b, c, d; reflexivity.
Qed.

Lemma SectionKey_eqb_eq (a b : SectionKey) : SectionKey_eqb a b = true <-> a = b.
Proof. destruct a, b; cbv; split; congruence. Qed.

Lemma toggled_parity (keys : list SectionKey) (section : SectionKey) :
  lookup section (toggled keys) = Some (Nat.even (clicks section keys)).
Proof.
  induction keys as [|other keys IH] using rev_ind.
  - now destruct section.
  - rewrite toggled_snoc, clicks_snoc, (toggle_lookup _ _ _ (toggled_four keys)), IH.
    destruct (SectionKey_eqb section other); simpl.
    + now rewrite Nat.add_1_r, Nat.even_succ, <- Nat.negb_even.
    + now rewrite Nat.add_0_r.
Qed.

(** X7.  The section check boxes.  However often and in whatever order the
    four boxes are clicked, the object keeps its four keys in their order,
    and a box is checked exactly when it was clicked an even number of
    times.  One click flips the value of its own key and leaves the other
    three as they are; a second click on the same box restores the object.
    No box is checked (and the export button is disabled) exactly when each
    of the four was clicked an odd number of times. *)
Theorem handleSectionToggle_flips_one (keys : list SectionKey) (section : SectionKey) :
  map fst (toggled keys) = ["summary"; "clauses"; "risks"; "qa"]
  /\ lookup section (toggled keys) = Some (Nat.even (clicks section keys))
  /\ lookup section (handleSectionToggle section (toggled keys))
     = Some (Nat.odd (clicks section keys))
  /\ (forall other, other <> section ->
        lookup other (handleSectionToggle section (toggled keys))
        = lookup other (toggled keys))
  /\ handleSectionToggle section (handleSectionToggle section (toggled keys))
     = toggled keys
  /\ (hasSelectedSections (toggled keys) = false
      <-> forall box, Nat.odd (clicks box keys) = true).
Proof.
  pose proof (toggled_four keys) as Hfour.
  split.
  { destruct Hfour as (a & b & c & d & ->). reflexivity. }
  split; [apply toggled_parity |].
  split.
  { rewrite (toggle_lookup _ _ _ Hfour), toggled_parity.
    rewrite (proj2 (SectionKey_eqb_eq section section) eq_refl). simpl.
    now rewrite Nat.negb_even. }
  split.
  { intros other Hne. rewrite (toggle_lookup _ _ _ Hfour).
    destruct (SectionKey_eqb other section) eqn:He; [| reflexivity].
    apply SectionKey_eqb_eq in He. contradiction. }
  split; [now apply toggle_twice |].
  assert (Hodd : forall box, Nat.odd (clicks box keys) = true
                             <-> lookup box (toggled keys) = Some false).
  { intros box. rewrite toggled_parity, <- Nat.negb_even.
    destruct (Nat.even (clicks box keys)); simpl; split; congruence. }
  destruct Hfour as (a & b & c & d & Heq).
  unfold hasSelectedSections. rewrite Heq in *. simpl existsb.
  split.
  - intros H box. apply Hodd.
    destruct a, b, c, d; try discriminate H. now destruct box.
  - intros H.
    pose proof (proj1 (Hodd KeySummary) (H KeySummary)) as H1.
    pose proof (proj1 (Hodd KeyClauses) (H KeyClauses)) as H2.
    pose proof (proj1 (Hodd KeyRisks) (H KeyRisks)) as H3.
    pose proof (proj1 (Hodd KeyQa) (H KeyQa)) as H4.
    cbv in H1, H2, H3, H4.
    injection H1 as ->. injection H2 as ->. injection H3 as ->. injection H4 as ->.
    reflexivity.
Qed.

End ExportFacts.

(** ** Arrays of ids *)

Section ArrayFacts.

Lemma array_includes_iff (l : list string) (x : string) :
  JsArray.includes l x = true <-> In x l.
Proof.
  unfold JsArray.includes. rewrite existsb_exists. split.
  - intros (y & Hy & Heq). apply String.eqb_eq in Heq. now subst.
  - intros H. exists x. split; [exact H | apply String.eqb_refl].
Qed.

Lemma array_includes_false (l : list string) (x : string) :
  JsArray.includes l x = false <-> ~ In x l.
Proof.
  rewrite <- array_includes_iff. destruct (JsArray.includes l x); split; congruence.
Qed.

Lemma without_in (x y : string) (l : list string) :
  In y (JsArray.without x l) <-> In y l /\ y <> x.
Proof.
  unfold JsArray.without. rewrite filter_In, negb_true_iff, String.eqb_neq. tauto.
Qed.

Lemma without_nodup (x : string) (l : list string) :
  NoDup l -> NoDup (JsArray.without x l).
Proof. apply NoDup_filter. Qed.

Lemma without_absent (x : string) (l : list string) :
  ~ In x l -> JsArray.without x l = l.
Proof.
  induction l as [|y l IH]; simpl; intros H; [reflexivity |].
  destruct (String.eqb_spec y x) as [-> | Hne]; simpl; [tauto |].
  f_equal. apply IH. tauto.
Qed.

Lemma without_app (x : string) (l1 l2 : list string) :
  JsArray.without x (l1 ++ l2) = (JsArray.without x l1 ++ JsArray.without x l2)%list.
Proof. apply filter_app. Qed.

Lemma without_length (x : string) (l : list string) :
  List.length (JsArray.without x l) <= List.length l.
Proof. apply filter_length_le. Qed.

Lemma without_shorter (x : string) (l : list string) :
  In x l -> List.length (JsArray.without x l) < List.length l.
Proof.
  induction l as [|y l IH]; [intros [] |].
  intros Hin. simpl. destruct (String.eqb_spec y x) as [-> | Hne]; simpl.
  - pose proof (without_length x l). lia.
  - destruct Hin as [-> | Hin]; [contradiction |]. specialize (IH Hin). lia.
Qed.

Lemma indexOf_nth (l : list string) : forall i x,
  NoDup l -> nth_error l i = Some x -> JsArray.indexOf l x = Some i.
Proof.
  induction l as [|y l IH]; intros i x Hnd Hnth; [destruct i; discriminate |].
  inversion Hnd as [|z zs Hy Hl]; subst. simpl.
  destruct i as [|i]; simpl in Hnth.
  - injection Hnth as ->. now rewrite String.eqb_refl.
  - destruct (String.eqb_spec y x) as [-> | Hne].
    + apply nth_error_In in Hnth. contradiction.
    + now rewrite (IH i x Hl Hnth).
Qed.

End ArrayFacts.

(** ** The comparison dialog *)

Section ComparisonFacts.

Import DocumentComparison ComparisonEvents.

Lemma selectDoc_sound (docId : string) (prev : list string) :
  List.length prev <= 2 -> NoDup prev ->
  List.length (selectDoc docId prev) <= 2 /\ NoDup (selectDoc docId prev).
Proof.
  intros Hlen Hnd. unfold selectDoc.
  destruct (JsArray.includes prev docId) eqn:Hin.
  - split; [pose proof (without_length docId prev); lia | now apply without_nodup].
  - apply array_includes_false in Hin.
    destruct (Nat.ltb_spec (List.length prev) 2) as [Hlt | Hge].
    + split; [rewrite length_app; simpl; lia |].
      apply NoDup_app; [exact Hnd | repeat constructor; intros [] |].
      intros x Hx [<- | []]. contradiction.
    + now split.
Qed.

Lemma step_sound (st : State) (e : Event) : Sound st -> Sound (step st e).
Proof.
  intros (Hlen & Hnd). unfold Sound.
  destruct e as [docId | isOpen | | response |]; simpl.
  - now apply selectDoc_sound.
  - unfold useEffect_isOpen. destruct isOpen; simpl; [now split |].
    split; [lia | constructor].
  - unfold startComparison_call.
    destruct (negb (List.length (selectedDocs st) =? 2)); simpl; now split.
  - destruct response; simpl; now split.
  - now split.
Qed.

Lemma run_sound (events : list Event) : forall st, Sound st -> Sound (run st events).
Proof.
  unfold run. induction events as [|e events IH]; intros st Hst; simpl; [exact Hst |].
  apply IH. now apply step_sound.
Qed.

Lemma initial_sound : Sound initial.
Proof. split; [simpl; lia | constructor]. Qed.

Lemma step_hollow (st : State) (e : Event) :
  Hollow (step st e) -> Hollow st \/ e = Settled (Resolved None).
Proof.
  unfold Hollow. destruct e as [docId | isOpen | | response |]; simpl.
  - tauto.
  - unfold useEffect_isOpen. destruct isOpen; simpl; [tauto |].
    intros [Hview _]. now contradiction Hview.
  - unfold startComparison_call.
    destruct (negb (List.length (selectedDocs st) =? 2)); simpl; tauto.
  - destruct response as [[c |] | error]; simpl; [| now right | tauto].
    intros [_ Hc]. discriminate Hc.
  - intros [Hview _]. now contradiction Hview.
Qed.

Lemma run_hollow (events : list Event) : forall st,
  Hollow (run st events) -> Hollow st \/ In (Settled (Resolved None)) events.
Proof.
  unfold run. induction events as [|e events IH]; intros st H; simpl in *; [now left |].
  destruct (IH _ H) as [Hstep | Hin]; [| now right; right].
  destruct (step_hollow st e Hstep) as [Hst | ->]; [now left | right; now left].
Qed.

Lemma render_nothing (documents : list Document) (st : State) :
  render documents st = Nothing <-> isComparing st = false /\ Hollow st.
Proof.
  unfold render, Hollow.
  destruct (isComparing st); [split; [discriminate | intros [H _]; discriminate H] |].
  destruct (String.eqb_spec (activeView st) "selection") as [Hv | Hv].
  - split; [discriminate | intros (_ & Hne & _); contradiction].
  - destruct (comparison st); split; try discriminate; try tauto.
    intros (_ & _ & H). discriminate H.
Qed.

(** X8.  Whatever the user does in the comparison dialog, in whatever order
    the clicks, the openings and closings and the answers of the server come:
    at most two documents are selected and none of them twice.  The dialog
    is blank exactly when no request is pending, the results view is on and
    no comparison is stored.  This happens only after a compare request was
    answered successfully with a falsy body, and it does happen then: two
    documents selected, the comparison started and answered so leave the
    dialog blank, while an answer with a body never does. *)
Theorem comparison_dialog_sound (events : list Event) (documents : list Document) :
  List.length (selectedDocs (run initial events)) <= 2
  /\ NoDup (selectedDocs (run initial events))
  /\ (render documents (run initial events) = Nothing
      <-> isComparing (run initial events) = false
          /\ activeView (run initial events) <> "selection"
          /\ comparison (run initial events) = None)
  /\ (render documents (run initial events) = Nothing ->
      In (Settled (Resolved None)) events)
  /\ (forall a b, a <> b ->
        render documents (run initial [Click a; Click b; Start; Settled (Resolved None)])
        = Nothing)
  /\ (forall c,
        render documents (run initial (events ++ [Settled (Resolved (Some c))]))
        <> Nothing).
Proof.
  destruct (run_sound events initial initial_sound) as (Hlen & Hnd).
  split; [exact Hlen | split; [exact Hnd |]].
  split; [apply render_nothing |].
  split.
  { intros H. apply render_nothing in H as [_ H].
    destruct (run_hollow events initial H) as [[Hview _] | Hin]; [| exact Hin].
    now contradiction Hview. }
  split.
  - intros a b Hne. apply render_nothing.
    split; [reflexivity | split; [discriminate | reflexivity]].
  - intros c H. apply render_nothing in H as [_ [_ H]].
    unfold run in H. rewrite fold_left_app in H. discriminate H.
Qed.

(** X9.  Clicking a document card twice.  For a document that was not
    selected the two clicks leave the selection exactly as it was (the
    document is taken and released, or ignored twice when two others are
    selected).  For a selected document, the two clicks move it to the last
    place of the selection. *)
Theorem selectDoc_twice (docId : string) (prev : list string) :
  (~ In docId prev -> selectDoc docId (selectDoc docId prev) = prev)
  /\ (In docId prev -> List.length prev <= 2 ->
      selectDoc docId (selectDoc docId prev)
      = (JsArray.without docId prev ++ [docId])%list).
Proof.
  split.
  - intros Hnot. unfold selectDoc at 2.
    rewrite (proj2 (array_includes_false prev docId) Hnot).
    destruct (List.length prev <? 2) eqn:Hlt.
    + unfold selectDoc.
      assert (Hin : JsArray.includes (prev ++ [docId]) docId = true)
        by (apply array_includes_iff, in_or_app; right; now left).
      rewrite Hin, without_app, (without_absent docId prev Hnot). simpl.
      rewrite String.eqb_refl. simpl. apply app_nil_r.
    + unfold selectDoc.
      now rewrite (proj2 (array_includes_false prev docId) Hnot), Hlt.
  - intros Hin Hlen. unfold selectDoc at 2.
    rewrite (proj2 (array_includes_iff prev docId) Hin).
    unfold selectDoc.
    assert (Hout : JsArray.includes (JsArray.without docId prev) docId = false).
    { apply array_includes_false. rewrite without_in. tauto. }
    rewrite Hout.
    pose proof (without_shorter docId prev Hin) as Hshort.
    destruct (Nat.ltb_spec (List.length (JsArray.without docId prev)) 2); [reflexivity | lia].
Qed.

(** X10.  The numbers shown on the selected cards are the positions of the
    documents in the order they were selected, counted from 1: in every
    state the dialog can reach, the document at place [i] of the selection
    carries the number [i + 1], which is 1 or 2, and a document that is not
    selected carries none. *)
Theorem selection_numbers_follow_order (events : list Event) (i : nat) (docId : string) :
  (nth_error (selectedDocs (run initial events)) i = Some docId ->
   selectionNumber (run initial events) docId = Some (i + 1) /\ i + 1 <= 2)
  /\ (~ In docId (selectedDocs (run initial events)) ->
      selectionNumber (run initial events) docId = None).
Proof.
  destruct (run_sound events initial initial_sound) as (Hlen & Hnd).
  unfold selectionNumber. split.
  - intros Hnth.
    rewrite (proj2 (array_includes_iff _ docId) (nth_error_In _ _ Hnth)).
    rewrite (indexOf_nth _ i docId Hnd Hnth). split; [reflexivity |].
    assert (i < List.length (selectedDocs (run initial events)))
      by (apply nth_error_Some; congruence).
    lia.
  - intros Hnot. now rewrite (proj2 (array_includes_false _ docId) Hnot).
Qed.

(** X11.  A comparison request always names two different documents.  In
    every state the dialog can reach, [startComparison] sends nothing unless
    exactly two documents are selected, and otherwise sends one request with
    the two selected ids, which differ.  When the request fails, the
    selection, the view and an earlier comparison stay as they were. *)
Theorem comparison_request_names_two (events : list Event) :
  (List.length (selectedDocs (run initial events)) <> 2 ->
   startComparison_call (run initial events) = (run initial events, []))
  /\ (List.length (selectedDocs (run initial events)) = 2 ->
      exists a b,
        a <> b
        /\ snd (startComparison_call (run initial events)) = [PostCompare [a; b]])
  /\ (forall error,
        let after := fst (startComparison_settle (Rejected error) (run initial events)) in
        selectedDocs after = selectedDocs (run initial events)
        /\ comparison after = comparison (run initial events)
        /\ activeView after = activeView (run initial events)
        /\ isComparing after = false).
Proof.
  destruct (run_sound events initial initial_sound) as (_ & Hnd).
  unfold startComparison_call. split; [| split].
  - intros Hne. apply Nat.eqb_neq in Hne. now rewrite Hne.
  - intros Heq. rewrite Heq. simpl.
    destruct (selectedDocs (run initial events)) as [|a [|b [|c l]]]; try discriminate.
    exists a, b. split; [| reflexivity].
    inversion Hnd as [|x xs Ha _]; subst. intros ->. apply Ha. now left.
  - intros error. simpl. repeat split.
Qed.

End ComparisonFacts.

Lemma selectDoc_twice_witness :
  DocumentComparison.selectDoc "doc-3" (DocumentComparison.selectDoc "doc-3" ["doc-1"])
  = ["doc-1"]
  /\ DocumentComparison.selectDoc "doc-1"
       (DocumentComparison.selectDoc "doc-1" ["doc-1"; "doc-2"])
     = ["doc-2"; "doc-1"].
Proof.
  destruct (selectDoc_twice "doc-3" ["doc-1"]) as [Hnew _].
  destruct (selectDoc_twice "doc-1" ["doc-1"; "doc-2"]) as [_ Hold].
  split.
  - apply Hnew. intros [H | []]. discriminate H.
  - apply Hold; [now left | simpl; lia].
Defined.

Lemma selection_numbers_follow_order_witness :
  DocumentComparison.selectionNumber
    (ComparisonEvents.run DocumentComparison.initial
       [ComparisonEvents.Click "doc-2"; ComparisonEvents.Click "doc-1"]) "doc-1"
  = Some 2.
Proof.
  exact (proj1 (proj1 (selection_numbers_follow_order
                         [ComparisonEvents.Click "doc-2"; ComparisonEvents.Click "doc-1"]
                         1 "doc-1") eq_refl)).
Defined.

Lemma comparison_request_names_two_witness :
  exists a b,
    a <> b
    /\ snd (DocumentComparison.startComparison_call
              (ComparisonEvents.run DocumentComparison.initial
                 [ComparisonEvents.Click "doc-2"; ComparisonEvents.Click "doc-1"]))
       = [DocumentComparison.PostCompare [a; b]].
Proof.
  exact (proj1 (proj2 (comparison_request_names_two
                         [ComparisonEvents.Click "doc-2"; ComparisonEvents.Click "doc-1"]))
               eq_refl).
Defined.

(** ** The dashboard *)

Section DashboardFacts.

Import DocumentsDashboard.

Lemma includes_empty (s : string) : JsString.includes s "" = true.
Proof. apply includes_iff. exists "", s. reflexivity. Qed.

Lemma search_all (documents : list Document) :
  filteredDocuments documents "" = documents.
Proof.
  unfold filteredDocuments. induction documents as [|d l IH]; simpl; [reflexivity |].
  rewrite includes_empty. now f_equal.
Qed.

Lemma search_refines (documents : list Document) (query longer : string) :
  Occurs query longer ->
  filteredDocuments documents longer
  = filteredDocuments (filteredDocuments documents query) longer.
Proof.
  intros Hocc. unfold filteredDocuments.
  induction documents as [|d l IH]; simpl; [reflexivity |].
  destruct (JsString.includes (toLowerCase (filename d)) (toLowerCase longer)) eqn:Hl.
  - assert (Hq : JsString.includes (toLowerCase (filename d)) (toLowerCase query) = true).
    { apply includes_iff. apply includes_iff in Hl.
      apply (occurs_trans _ (toLowerCase longer)); [now apply occurs_lower | exact Hl]. }
    rewrite Hq. simpl. rewrite Hl. now f_equal.
  - destruct (JsString.includes (toLowerCase (filename d)) (toLowerCase query));
      simpl; [rewrite Hl |]; exact IH.
Qed.

Lemma lower_of_upper (s : string) : toLowerCase (JsArray.toUpperCase s) = toLowerCase s.
Proof.
  induction s as [|c q IH]; simpl; [reflexivity |]. rewrite IH. f_equal.
  unfold lowerChar, JsArray.upperChar.
  destruct c as [[] [] [] [] [] [] [] []]; reflexivity.
Qed.

(** X12.  The search box, for ASCII file names and ASCII queries, narrows
    the list and never reorders it.  An empty query shows every document; a
    query that contains an earlier query (the user typed more, in front or
    behind) shows what filtering the earlier result again would show, so
    nothing reappears that the earlier query had removed; and the letter
    case of the query does not matter. *)
Theorem search_narrows (documents : list Document) (query longer : string)
  (Hnames : Forall (fun doc => JsArray.isAscii (filename doc) = true) documents)
  (Hquery : JsArray.isAscii query = true)
  (Hlonger : JsArray.isAscii longer = true) :
  filteredDocuments documents "" = documents
  /\ (Occurs query longer ->
      filteredDocuments documents longer
      = filteredDocuments (filteredDocuments documents query) longer)
  /\ (Occurs query longer ->
      forall doc, In doc (filteredDocuments documents longer) ->
                  In doc (filteredDocuments documents query))
  /\ filteredDocuments documents (JsArray.toUpperCase query)
     = filteredDocuments documents query.
Proof.
  split; [apply search_all |].
  split; [apply search_refines |].
  split.
  - intros Hocc doc Hin. rewrite (search_refines _ _ _ Hocc) in Hin.
    unfold filteredDocuments in Hin at 1. now apply filter_In in Hin.
  - unfold filteredDocuments. now rewrite lower_of_upper.
Qed.

Lemma handleDocumentClick_select (doc : Document) (st : State) :
  selectMode st = true -> NoDup (selectedDocuments st) ->
  selectMode (fst (handleDocumentClick doc st)) = true
  /\ NoDup (selectedDocuments (fst (handleDocumentClick doc st)))
  /\ snd (handleDocumentClick doc st) = [].
Proof.
  intros Hmode Hnd. unfold handleDocumentClick. rewrite Hmode.
  destruct (JsArray.includes (selectedDocuments st) (id doc)) eqn:Hin; simpl.
  - repeat split; [exact Hmode | now apply without_nodup].
  - apply array_includes_false in Hin. repeat split; [exact Hmode |].
    apply NoDup_app; [exact Hnd | repeat constructor; intros [] |].
    intros x Hx [<- | []]. contradiction.
Qed.

Lemma clickAll_select (docs : list Document) : forall st,
  selectMode st = true -> NoDup (selectedDocuments st) ->
  selectMode (fst (clickAll st docs)) = true
  /\ NoDup (selectedDocuments (fst (clickAll st docs)))
  /\ snd (clickAll st docs) = [].
Proof.
  induction docs as [|d docs IH]; intros st Hmode Hnd; simpl; [now repeat split |].
  destruct (handleDocumentClick_select d st Hmode Hnd) as (H1 & H2 & H3).
  destruct (handleDocumentClick d st) as [st1 e1]. simpl in *.
  destruct (IH st1 H1 H2) as (H4 & H5 & H6).
  destruct (clickAll st1 docs) as [st2 e2]. simpl in *. subst. now repeat split.
Qed.

Lemma bulkDeletes_run (ids : list string) : forall app,
  App.run app (App.bulkDeletes (map (fun i => OnDeleteDocument i true) ids))
  = (app, map App.DeleteDocument ids).
Proof.
  induction ids as [|i ids IH]; intros app; simpl; [reflexivity |].
  change (App.run app (App.Delete i true false
                       :: App.bulkDeletes (map (fun i => OnDeleteDocument i true) ids))
          = (app, App.DeleteDocument i :: map App.DeleteDocument ids)).
  simpl. rewrite IH. reflexivity.
Qed.

(** X13.  Deleting the selected documents.  In select mode every click on a
    card only changes the selection, which never holds a document twice.
    "Delete Selected" asks once, and on a yes passes one delete per selected
    document, in selection order, to the shell, which sends exactly one
    DELETE request for each without asking or alerting again; the selection
    is cleared and select mode left.  On a no nothing is deleted and the
    selection stays.  With nothing selected the question is not even
    asked. *)
Theorem delete_selected_sends_one_request_each
  (st : State) (docs : list Document) (app : App.State)
  (Hmode : selectMode st = true) (Hnd : NoDup (selectedDocuments st)) :
  let chosen := fst (clickAll st docs) in
  NoDup (selectedDocuments chosen)
  /\ snd (clickAll st docs) = []
  /\ (selectedDocuments chosen <> [] ->
      snd (handleDeleteSelected true chosen)
      = (Confirm (deleteSelectedMessage (List.length (selectedDocuments chosen)))
         :: map (fun i => OnDeleteDocument i true) (selectedDocuments chosen))%list
      /\ selectedDocuments (fst (handleDeleteSelected true chosen)) = []
      /\ selectMode (fst (handleDeleteSelected true chosen)) = false
      /\ App.run app (App.bulkDeletes (snd (handleDeleteSelected true chosen)))
         = (app, map App.DeleteDocument (selectedDocuments chosen))
      /\ handleDeleteSelected false chosen
         = (chosen,
            [Confirm (deleteSelectedMessage (List.length (selectedDocuments chosen)))]))
  /\ (selectedDocuments chosen = [] ->
      forall confirmed, handleDeleteSelected confirmed chosen = (chosen, [])).
Proof.
  cbv zeta. destruct (clickAll_select docs st Hmode Hnd) as (_ & H2 & H3).
  split; [exact H2 | split; [exact H3 | split]].
  - intros Hne. unfold handleDeleteSelected.
    destruct (selectedDocuments (fst (clickAll st docs))) as [|i ids] eqn:Hsel;
      [contradiction |].
    change (0 <? List.length (i :: ids)) with true. cbv iota.
    repeat split.
    change (App.bulkDeletes
              (Confirm (deleteSelectedMessage (List.length (i :: ids)))
               :: map (fun i => OnDeleteDocument i true) (i :: ids)))
      with (App.bulkDeletes (map (fun i => OnDeleteDocument i true) (i :: ids))).
    apply bulkDeletes_run.
  - intros Hnil confirmed. unfold handleDeleteSelected. now rewrite Hnil.
Qed.

End DashboardFacts.

Lemma search_narrows_witness :
  DocumentsDashboard.filteredDocuments
    [Examples.analysed_lease; Examples.completed_empty_summary] "LEASE."
  = [Examples.analysed_lease].
Proof.
  destruct (search_narrows [Examples.analysed_lease; Examples.completed_empty_summary]
              "lease" "lease." ltac:(repeat constructor) eq_refl eq_refl)
    as (_ & Hrefine & _).
  destruct (search_narrows [Examples.analysed_lease; Examples.completed_empty_summary]
              "lease." "lease." ltac:(repeat constructor) eq_refl eq_refl)
    as (_ & _ & _ & Hcase).
  specialize (Hrefine ltac:(exists "", "."; reflexivity)).
  vm_compute in Hrefine, Hcase. vm_compute. exact Hrefine.
Defined.

Lemma delete_selected_sends_one_request_each_witness :
  snd (App.run App.initial
         (App.bulkDeletes
            (snd (DocumentsDashboard.handleDeleteSelected true
                    (fst (DocumentsDashboard.clickAll
                            (DocumentsDashboard.toggleSelectMode DocumentsDashboard.initial)
                            [Examples.analysed_lease; Examples.uploaded_lease;
                             Examples.analysed_lease; Examples.completed_empty_summary]))))))
  = [App.DeleteDocument "doc-3"; App.DeleteDocument "doc-2"].
Proof.
  destruct (delete_selected_sends_one_request_each
              (DocumentsDashboard.toggleSelectMode DocumentsDashboard.initial)
              [Examples.analysed_lease; Examples.uploaded_lease;
               Examples.analysed_lease; Examples.completed_empty_summary]
              App.initial eq_refl (NoDup_nil string)) as (_ & _ & Hsome & _).
  destruct (Hsome ltac:(vm_compute; discriminate)) as (_ & _ & _ & Hrun & _).
  vm_compute in Hrun. vm_compute. exact (f_equal snd Hrun).
Defined.

(** ** The application shell *)

Section AppFacts.

Import App AppEvents.

(** X14.  What the shell does when a DELETE request settles.  The document
    list is requested again exactly when the server answered with the
    message "Document deleted successfully"; any other answer, an answer
    without a message and every failure are handled as errors.  The shell's
    state is untouched either way.  A bulk delete never opens a dialog box,
    neither to confirm nor to report; a single delete asks first and always
    reports, success or failure.  And the request itself is sent exactly
    when the call is a bulk one or the user confirmed. *)
Theorem delete_reloads_on_success_only
  (documentId : string) (bulk confirmed : bool) (outcome : DeleteOutcome) (st : State) :
  (In GetDocuments (snd (handleDeleteDocument_settle bulk outcome st))
   <-> outcome = Answered (Some SUCCESS_MESSAGE))
  /\ fst (handleDeleteDocument_settle bulk outcome st) = st
  /\ (existsb isDialog (snd (handleDeleteDocument_settle bulk outcome st)) = negb bulk)
  /\ (In (DeleteDocument documentId)
         (snd (handleDeleteDocument_call documentId bulk confirmed st))
      <-> bulk = true \/ confirmed = true)
  /\ (existsb isDialog (snd (handleDeleteDocument_call documentId bulk confirmed st))
      = negb bulk).
Proof.
  split; [| split; [| split; [| split]]].
  - unfold handleDeleteDocument_settle.
    destruct outcome as [[m |] | e].
    + destruct (String.eqb_spec m SUCCESS_MESSAGE) as [-> | Hne].
      * split; [reflexivity | intros _; apply in_or_app; right; now left].
      * split; [| intros H; injection H as ->; contradiction].
        unfold deleteCaught. destruct bulk; simpl; intros H;
          repeat (destruct H as [H | H]; [discriminate |]); destruct H.
    + split; [| discriminate].
      unfold deleteCaught. destruct bulk; simpl; intros H;
        repeat (destruct H as [H | H]; [discriminate |]); destruct H.
    + split; [| discriminate].
      unfold deleteCaught. destruct bulk; simpl; intros H;
        repeat (destruct H as [H | H]; [discriminate |]); destruct H.
  - unfold handleDeleteDocument_settle.
    destruct outcome as [[m |] | e]; [destruct (String.eqb m SUCCESS_MESSAGE) | |];
      reflexivity.
  - unfold handleDeleteDocument_settle, deleteCaught.
    destruct outcome as [[m |] | e]; [destruct (String.eqb m SUCCESS_MESSAGE) | |];
      destruct bulk; reflexivity.
  - unfold handleDeleteDocument_call. destruct bulk, confirmed; simpl;
      (split; [intros H; tauto || (repeat (destruct H as [H | H]; [discriminate |]);
                                    destruct H)
              | intros [H | H]; try discriminate; tauto]).
  - unfold handleDeleteDocument_call. destruct bulk, confirmed; reflexivity.
Qed.

Lemma step_sound_app (st : State) (e : Event) :
  Sound st -> Sound (fst (step st e)).
Proof.
  unfold Sound. intros Hst.
  destruct e as [| result | | doc | | | documentId bulk confirmed | bulk outcome |];
    simpl; try exact Hst; try tauto.
  - destruct result as [data | err]; simpl; [| exact Hst].
    destruct (0 <? List.length data); simpl; [tauto | exact Hst].
  - right. right. split; [reflexivity | discriminate].
  - unfold handleDeleteDocument_settle.
    destruct outcome as [[m |] | err]; [destruct (String.eqb m SUCCESS_MESSAGE) | |];
      exact Hst.
Qed.

Lemma run_fst (events : list Event) : forall st,
  fst (run st events) = fold_left (fun s e => fst (step s e)) events st.
Proof.
  induction events as [|e events IH]; intros st; simpl; [reflexivity |].
  destruct (step st e) as [st1 e1] eqn:Hs. simpl.
  rewrite <- IH. now destruct (run st1 events).
Qed.

Lemma run_sound_app (events : list Event) : forall st,
  Sound st -> Sound (fst (run st events)).
Proof.
  intros st. rewrite run_fst. revert st.
  induction events as [|e events IH]; intros st Hst; simpl; [exact Hst |].
  apply IH. now apply step_sound_app.
Qed.

(** X15.  The page under the header is never empty.  Whatever handlers run
    and whatever requests settle, in any order, the shell shows the loading
    screen, the upload area, the dashboard or the analysis of a document:
    the view is 'analysis' only while a document is selected. *)
Theorem shell_never_blank (events : list Event) :
  render (fst (run initial events)) <> EmptyMain
  /\ (currentView (fst (run initial events)) = "analysis" ->
      exists doc, selectedDocument (fst (run initial events)) = Some doc
                  /\ (isLoading (fst (run initial events)) = false ->
                      render (fst (run initial events)) = AnalysisView doc)).
Proof.
  assert (Hs : Sound (fst (run initial events)))
    by (apply run_sound_app; left; reflexivity).
  unfold Sound in Hs. unfold render. split.
  - destruct (isLoading (fst (run initial events))); [discriminate |].
    destruct Hs as [-> | [-> | [-> Hsel]]]; simpl; try discriminate.
    destruct (selectedDocument (fst (run initial events))); [discriminate | contradiction].
  - intros Hview. rewrite Hview.
    destruct Hs as [H | [H | [_ Hsel]]]; try (rewrite Hview in H; discriminate).
    destruct (selectedDocument (fst (run initial events))) as [doc |]; [| contradiction].
    exists doc. split; [reflexivity |]. intros ->. reflexivity.
Qed.

Lemma step_loading (st : State) (e : Event) :
  isLoading (fst (step st e)) = isLoading st && negb (isSettled e)
  /\ documents (fst (step st e)) = lastLoaded (documents st) [e].
Proof.
  destruct e as [| result | | doc | | | documentId bulk confirmed | bulk outcome |];
    simpl; rewrite ?andb_true_r, ?andb_false_r; try (split; reflexivity).
  - destruct result as [data | err]; simpl; [| split; reflexivity].
    destruct (0 <? List.length data); split; reflexivity.
  - unfold handleDeleteDocument_settle.
    destruct outcome as [[m |] | err]; [destruct (String.eqb m SUCCESS_MESSAGE) | |];
      split; reflexivity.
Qed.

Lemma lastLoaded_cons (fallback : list Document) (e : Event) (events : list Event) :
  lastLoaded fallback (e :: events) = lastLoaded (lastLoaded fallback [e]) events.
Proof. destruct e as [| [data | err] | | | | | | |]; reflexivity. Qed.

Lemma run_loading (events : list Event) : forall st,
  isLoading (fst (run st events)) = isLoading st && negb (existsb isSettled events)
  /\ documents (fst (run st events)) = lastLoaded (documents st) events.
Proof.
  induction events as [|e events IH]; intros st.
  - simpl. now rewrite andb_true_r.
  - rewrite lastLoaded_cons. simpl.
    destruct (step_loading st e) as [Hl Hd].
    destruct (step st e) as [st1 e1]. simpl in *.
    destruct (IH st1) as [Hl' Hd'].
    destruct (run st1 events) as [st2 e2]. simpl in *.
    rewrite Hl', Hd', Hl, Hd. split; [| reflexivity].
    rewrite negb_orb. now rewrite andb_assoc.
Qed.

(** X16.  The loading screen and the document list.  The shell shows the
    loading screen from the start until the first documents request
    settles, successfully or not, and never again.  The list it holds is
    the one of the last documents request that succeeded (empty before the
    first): a failed request, a delete and navigation leave the list as it
    is. *)
Theorem loading_until_first_answer (events : list Event) :
  (render (fst (run initial events)) = LoadingScreen
   <-> existsb isSettled events = false)
  /\ documents (fst (run initial events)) = lastLoaded [] events.
Proof.
  destruct (run_loading events initial) as [Hl Hd]. simpl in Hl, Hd.
  split; [| exact Hd].
  unfold render. rewrite Hl.
  destruct (existsb isSettled events); simpl; [| tauto].
  split; [| discriminate].
  destruct (String.eqb (currentView (fst (run initial events))) "upload"); [discriminate |].
  destruct (String.eqb (currentView (fst (run initial events))) "dashboard"); [discriminate |].
  destruct (String.eqb (currentView (fst (run initial events))) "analysis"); [| discriminate].
  destruct (selectedDocument (fst (run initial events))); discriminate.
Qed.

End AppFacts.

(** ** Toasts *)

Section ToastFacts.

Import Toast.

Lemma removeToast_in (i : Z) (t : Item) (l : list Item) :
  In t (removeToast i l) <-> In t l /\ id t <> i.
Proof.
  unfold removeToast. rewrite filter_In, negb_true_iff, Z.eqb_neq. tauto.
Qed.

Lemma removeToast_fresh (i : Z) (l : list Item) :
  Forall (fun t => id t <> i) l -> removeToast i l = l.
Proof.
  induction 1 as [|t l Ht _ IH]; simpl; [reflexivity |].
  apply Z.eqb_neq in Ht. now rewrite Ht, IH.
Qed.

Lemma removeToast_app (i : Z) (l1 l2 : list Item) :
  removeToast i (l1 ++ l2) = (removeToast i l1 ++ removeToast i l2)%list.
Proof. apply filter_app. Qed.

(** X17.  Toasts are told apart by the millisecond they were created in.
    Removing a toast right after adding it gives back the list as it was,
    provided no toast of that millisecond was in it; removing another id
    leaves the new toast in place, last.  Two toasts added in the same
    millisecond share their id, so closing either of them (or the timer of
    either) removes both. *)
Theorem toast_ids_are_clock_readings (now : Z) (first second : Props) (l : list Item) :
  (Forall (fun t => id t <> now) l ->
   removeToast now (fst (fst (addToast now first l))) = l)
  /\ (forall i, i <> now ->
        removeToast i (fst (fst (addToast now first l)))
        = (removeToast i l ++ [ {| id := now; props := first |} ])%list)
  /\ removeToast now
       (fst (fst (addToast now second (fst (fst (addToast now first l))))))
     = removeToast now l
  /\ snd (addToast now first l) = now
  /\ snd (fst (addToast now first l)) = {| delay := 5000; removes := now |}.
Proof.
  unfold addToast. simpl. split; [| split; [| split; [| split; reflexivity]]].
  - intros Hfresh. rewrite removeToast_app, (removeToast_fresh now l Hfresh).
    simpl. rewrite Z.eqb_refl. apply app_nil_r.
  - intros i Hne. rewrite removeToast_app. simpl.
    apply Z.eqb_neq in Hne. rewrite Z.eqb_sym, Hne. reflexivity.
  - rewrite !removeToast_app. simpl. rewrite Z.eqb_refl. simpl. now rewrite !app_nil_r.
Qed.

Lemma hasTimer_app (i : Z) (l1 l2 : list Timer) :
  hasTimer i (l1 ++ l2) = hasTimer i l1 || hasTimer i l2.
Proof. apply existsb_app. Qed.

Lemma hasTimer_removeTimer (i j : Z) (l : list Timer) :
  j <> i -> hasTimer j l = true -> hasTimer j (removeTimer i l) = true.
Proof.
  intros Hne. induction l as [|t l IH]; simpl; [discriminate |].
  destruct (Z.eqb_spec (removes t) i) as [Hi | Hi].
  - destruct (Z.eqb_spec (removes t) j) as [Hj | Hj]; [congruence | simpl; tauto].
  - simpl. destruct (Z.eqb (removes t) j); simpl; [reflexivity | exact IH].
Qed.

Lemma step_covered (p p' : Provider) (e : Event) :
  (forall t, In t (toasts p) -> hasTimer (id t) (timers p) = true) ->
  step p e = Some p' ->
  forall t, In t (toasts p') -> hasTimer (id t) (timers p') = true.
Proof.
  intros Hcov. destruct e as [now toast | i | i]; simpl.
  - intros H. injection H as <-. simpl. intros t Hin.
    rewrite hasTimer_app. apply in_app_or in Hin as [Hin | [<- | []]].
    + now rewrite (Hcov t Hin).
    + simpl. rewrite Z.eqb_refl. apply orb_true_r.
  - intros H. injection H as <-. simpl. intros t Hin.
    apply removeToast_in in Hin as [Hin _]. now apply Hcov.
  - destruct (hasTimer i (timers p)); [| discriminate].
    intros H. injection H as <-. simpl. intros t Hin.
    apply removeToast_in in Hin as [Hin Hne].
    apply hasTimer_removeTimer; [exact Hne | now apply Hcov].
Qed.

(** X18.  No toast stays for ever.  However toasts are added and closed and
    in whatever order the timers run, every toast on screen still has a
    timer pending that will remove it; so once every timer that was started
    has run, no toast is left. *)
Theorem toasts_expire (events : list Event) : forall (p p' : Provider)
  (Hcovered : forall t, In t (toasts p) -> hasTimer (id t) (timers p) = true)
  (Hrun : run p events = Some p'),
  (forall t, In t (toasts p') -> hasTimer (id t) (timers p') = true)
  /\ (timers p' = [] -> toasts p' = []).
Proof.
  induction events as [|e events IH]; intros p p' Hcov Hrun; simpl in Hrun.
  - injection Hrun as <-. split; [exact Hcov |].
    intros Hnil. destruct (toasts p) as [|t l] eqn:Ht; [reflexivity |].
    specialize (Hcov t (or_introl eq_refl)). rewrite Hnil in Hcov. discriminate.
  - destruct (step p e) as [p1 |] eqn:Hstep; [| discriminate].
    apply (IH p1 p'); [| exact Hrun]. now apply (step_covered p p1 e).
Qed.

End ToastFacts.

Lemma toast_ids_are_clock_readings_witness :
  Toast.removeToast 1700%Z
    (fst (fst (Toast.addToast 1700%Z (MoreExamples.info "Saved")
                 [ {| Toast.id := 1200%Z; Toast.props := MoreExamples.info "Uploaded" |} ])))
  = [ {| Toast.id := 1200%Z; Toast.props := MoreExamples.info "Uploaded" |} ].
Proof.
  apply (proj1 (toast_ids_are_clock_readings 1700%Z (MoreExamples.info "Saved")
                  (MoreExamples.info "Saved") _)).
  repeat constructor. discriminate.
Defined.

Lemma toasts_expire_witness :
  exists p,
    Toast.run Toast.empty
      [Toast.Add 1200%Z (MoreExamples.info "Uploaded");
       Toast.Add 1200%Z (MoreExamples.info "Saved");
       Toast.Fire 1200%Z; Toast.Fire 1200%Z] = Some p
    /\ Toast.toasts p = [].
Proof.
  eexists. split; [reflexivity |].
  refine (proj2 (toasts_expire
                   [Toast.Add 1200%Z (MoreExamples.info "Uploaded");
                    Toast.Add 1200%Z (MoreExamples.info "Saved");
                    Toast.Fire 1200%Z; Toast.Fire 1200%Z]
                   Toast.empty _ _ eq_refl) eq_refl).
  intros t [].
Defined.

(** ** Uploads *)

Section UploadFacts.

Import DocumentUpload.

Lemma progress_in_app (progress : list RiskMeter.JsNumber) : forall st effects,
  exists st',
    fold_left (fun acc percent =>
                 let (s, e) := onUploadProgress props_App percent (fst acc) in
                 (s, (snd acc ++ e)%list))
              progress (st, effects) = (st', effects)
    /\ isUploading st' = isUploading st /\ dragActive st' = dragActive st.
Proof.
  induction progress as [|percent progress IH]; intros st effects; simpl.
  - now exists st.
  - rewrite app_nil_r.
    destruct (IH (setUploadProgress percent st) effects) as (st' & Hf & Hu & Hd).
    exists st'. now repeat split.
Qed.

(** X19.  An upload started from the application tells the user nothing
    through callbacks.  [App] renders the upload area with [onUploadSuccess]
    only, so for any file, any progress reports and either outcome no toast
    is shown and no progress is passed on; a failed upload leaves a line on
    the console and nothing else, a successful one calls [onUploadSuccess]
    once.  When the timer has run the area is idle again with its progress
    back at 0. *)
Theorem upload_in_app_is_silent (fileName : string) (progress : list RiskMeter.JsNumber)
  (result : Outcome unit) (st : State) :
  (forall toast, ~ In (OnToast toast) (snd (upload props_App fileName progress result st)))
  /\ (forall percent,
        ~ In (OnProgress percent) (snd (upload props_App fileName progress result st)))
  /\ snd (upload props_App fileName progress result st)
     = match result with
       | Resolved _ => [PostUpload fileName; OnUploadSuccess; SetTimeout 1000]
       | Rejected _ => [PostUpload fileName; ConsoleError "Upload failed:"; SetTimeout 1000]
       end
  /\ isUploading (fst (upload props_App fileName progress result st)) = false
  /\ uploadProgress (fst (upload props_App fileName progress result st))
     = RiskMeter.Finite 0%Q
  /\ dragActive (fst (upload props_App fileName progress result st)) = dragActive st.
Proof.
  assert (Heff : snd (upload props_App fileName progress result st)
                 = match result with
                   | Resolved _ => [PostUpload fileName; OnUploadSuccess; SetTimeout 1000]
                   | Rejected _ =>
                       [PostUpload fileName; ConsoleError "Upload failed:"; SetTimeout 1000]
                   end
                 /\ dragActive (fst (upload props_App fileName progress result st))
                    = dragActive st).
  { unfold upload, handleFile_call.
    destruct (progress_in_app progress
                (setUploadProgress (RiskMeter.Finite 0%Q) (setIsUploading true st)) [])
      as (st' & Hf & _ & Hd).
    rewrite Hf. destruct result as [[] | e]; simpl; now rewrite Hd. }
  destruct Heff as [Heff Hdrag]. rewrite Heff.
  split; [| split; [| split; [reflexivity | split; [| split; [| exact Hdrag]]]]].
  - intros toast. destruct result; intros [H | [H | [H | []]]]; discriminate.
  - intros percent. destruct result; intros [H | [H | [H | []]]]; discriminate.
  - unfold upload. destruct (handleFile_call fileName st) as [st1 e1].
    destruct (fold_left _ progress (st1, [])) as [st2 e2].
    destruct (handleFile_settle props_App fileName result st2) as [st3 e3]. reflexivity.
  - unfold upload. destruct (handleFile_call fileName st) as [st1 e1].
    destruct (fold_left _ progress (st1, [])) as [st2 e2].
    destruct (handleFile_settle props_App fileName result st2) as [st3 e3]. reflexivity.
Qed.

End UploadFacts.

(** ** Questions, continued *)

Section QuestionFacts.

Import DocumentAnalysis.

(** X20.  What is left in the question box.  A question that [trim]
    empties (white space only, ASCII or not) is not sent and nothing
    changes.  Any other question is sent once, with the text typed; when it
    is answered the box is emptied, and when it fails the text stays in the
    box, ready to be sent again.  Either way the view stops showing
    "Analyzing...". *)
Theorem question_box_after_ask (doc : Document) (st : State) (a : Ask) :
  question (ask doc st a) = (if accepted a then "" else ask_text a)
  /\ (trimsToEmpty (ask_text a) = true ->
      ask doc st a = setQuestion (ask_text a) st
      /\ snd (fst (askQuestion_call doc (setQuestion (ask_text a) st))) = [])
  /\ (trimsToEmpty (ask_text a) = false ->
      snd (fst (askQuestion_call doc (setQuestion (ask_text a) st)))
      = [Http (PostAsk (id doc) (ask_text a))]
      /\ isAsking (fst (fst (askQuestion_call doc (setQuestion (ask_text a) st)))) = true
      /\ isAsking (ask doc st a) = false).
Proof.
  destruct a as [text response now]. unfold ask, askQuestion_call, accepted. simpl.
  destruct (trimsToEmpty text) eqn:Hb; simpl.
  - split; [reflexivity |]. split; [now split | discriminate].
  - split; [now destruct response |]. split; [discriminate |].
    intros _. repeat split. now destruct response.
Qed.

End QuestionFacts.

Lemma question_box_after_ask_witness :
  DocumentAnalysis.question
    (DocumentAnalysis.ask Examples.uploaded_lease DocumentAnalysis.initial
       {| DocumentAnalysis.ask_text := "What is the rent?";
          DocumentAnalysis.ask_response := Rejected "timeout";
          DocumentAnalysis.ask_now := 1000%Z |})
  = "What is the rent?"
  /\ DocumentAnalysis.isAsking
       (DocumentAnalysis.ask Examples.uploaded_lease DocumentAnalysis.initial
          {| DocumentAnalysis.ask_text := "What is the rent?";
             DocumentAnalysis.ask_response := Rejected "timeout";
             DocumentAnalysis.ask_now := 1000%Z |}) = false
  /\ snd (fst (DocumentAnalysis.askQuestion_call Examples.uploaded_lease
                 (DocumentAnalysis.setQuestion MoreExamples.wideSpaces DocumentAnalysis.initial)))
     = [].
Proof.
  destruct (question_box_after_ask Examples.uploaded_lease DocumentAnalysis.initial
              {| DocumentAnalysis.ask_text := "What is the rent?";
                 DocumentAnalysis.ask_response := Rejected "timeout";
                 DocumentAnalysis.ask_now := 1000%Z |}) as (Hq & _ & Hsent).
  destruct (question_box_after_ask Examples.uploaded_lease DocumentAnalysis.initial
              {| DocumentAnalysis.ask_text := MoreExamples.wideSpaces;
                 DocumentAnalysis.ask_response := Rejected "timeout";
                 DocumentAnalysis.ask_now := 1000%Z |}) as (_ & Hblank & _).
  split; [exact Hq |].
  split; [exact (proj2 (proj2 (Hsent eq_refl))) | exact (proj2 (Hblank eq_refl))].
Defined.

(** ** The clause extract of the clauses tab *)

Section ExtractFacts.

Import ClausesTab.

Lemma dropChars_app (p q : string) : dropChars (String.length p) (p ++ q) = q.
Proof. induction p as [|c p IH]; simpl; [now destruct q | exact IH]. Qed.

Lemma beforeFirst_prefix (sep s : string) : exists rest, s = beforeFirst sep s ++ rest.
Proof.
  induction s as [|c s [rest IH]]; [now exists "" |].
  cbn [beforeFirst]. destruct (startsWith (String c s) sep).
  - now exists (String c s).
  - exists rest. simpl. now rewrite <- IH.
Qed.

(** Cutting at the first occurrence of a separator and putting the three
    parts together again gives the text back. *)
Lemma split_first (sep s : string) :
  includes s sep = true -> s = beforeFirst sep s ++ sep ++ afterFirst sep s.
Proof.
  induction s as [|c s IH].
  - simpl. intros H. apply startsWith_iff in H as [post H].
    destruct sep; [reflexivity | discriminate].
  - cbn [includes beforeFirst afterFirst].
    destruct (startsWith (String c s) sep) eqn:Hs.
    + intros _. apply startsWith_iff in Hs as [post Hs].
      rewrite Hs at 2. rewrite dropChars_app. exact Hs.
    + simpl. intros H. rewrite <- (IH H). reflexivity.
Qed.

Lemma startsWith_longer (s rest sep : string) :
  startsWith s sep = true -> startsWith (s ++ rest) sep = true.
Proof.
  intros H. apply startsWith_iff in H as [post ->].
  apply startsWith_iff. exists (post ++ rest). apply append_assoc.
Qed.

(** The part in front of the first occurrence holds no occurrence. *)
Lemma beforeFirst_clean (sep s : string) :
  sep <> "" -> includes (beforeFirst sep s) sep = false.
Proof.
  intros Hsep. induction s as [|c s IH].
  - simpl. destruct sep; [contradiction | reflexivity].
  - cbn [beforeFirst]. destruct (startsWith (String c s) sep) eqn:Hs.
    + simpl. destruct sep; [contradiction | reflexivity].
    + cbn [includes]. rewrite IH, orb_false_r.
      destruct (startsWith (String c (beforeFirst sep s)) sep) eqn:Hb; [| reflexivity].
      destruct (beforeFirst_prefix sep s) as [rest Hrest].
      apply (startsWith_longer _ rest) in Hb. simpl in Hb. rewrite <- Hrest in Hb.
      congruence.
Qed.

(** X21.  What the clauses tab shows when the analysis lists no clauses.
    If the summary does not hold the key-clauses marker, the tab shows the
    notice that no information is available.  If it does, the tab shows a
    piece of the summary itself: the text that follows the first marker,
    cut before the next section marker when that leaves something and
    before the next key-clauses marker in any case.  The summary is exactly
    what precedes the first marker, the marker, the text shown, and a
    rest. *)
Theorem clause_extract_is_cut_from_summary (a : Analysis)
  (Hnone : key_clauses a = []) :
  (includes (summary a) KEY_CLAUSES_MARKER = false ->
   clausesTab a = ClauseExtract "Key clauses information not available")
  /\ (includes (summary a) KEY_CLAUSES_MARKER = true ->
      exists shown rest,
        clausesTab a = ClauseExtract shown
        /\ summary a
           = beforeFirst KEY_CLAUSES_MARKER (summary a)
             ++ KEY_CLAUSES_MARKER ++ shown ++ rest
        /\ includes (beforeFirst KEY_CLAUSES_MARKER (summary a)) KEY_CLAUSES_MARKER = false
        /\ includes shown KEY_CLAUSES_MARKER = false).
Proof.
  unfold clausesTab. rewrite Hnone. simpl List.length. cbv iota.
  change (0 <? 0) with false. cbv iota.
  split; [intros ->; reflexivity |].
  intros Hin. rewrite Hin.
  assert (Hkey : KEY_CLAUSES_MARKER <> "") by discriminate.
  pose proof (split_first _ _ Hin) as Hsplit.
  destruct (beforeFirst_prefix KEY_CLAUSES_MARKER
              (afterFirst KEY_CLAUSES_MARKER (summary a))) as [r1 Hr1].
  fold (split_1 KEY_CLAUSES_MARKER (summary a)) in Hr1.
  pose proof (beforeFirst_clean KEY_CLAUSES_MARKER
                (afterFirst KEY_CLAUSES_MARKER (summary a)) Hkey) as Hclean.
  fold (split_1 KEY_CLAUSES_MARKER (summary a)) in Hclean.
  destruct (beforeFirst NEXT_MARKER (split_1 KEY_CLAUSES_MARKER (summary a)))
    as [|c t] eqn:Hcut.
  - exists (split_1 KEY_CLAUSES_MARKER (summary a)), r1.
    split; [reflexivity |]. split; [| split; [now apply beforeFirst_clean | exact Hclean]].
    rewrite <- Hr1. exact Hsplit.
  - destruct (beforeFirst_prefix NEXT_MARKER (split_1 KEY_CLAUSES_MARKER (summary a)))
      as [r2 Hr2].
    rewrite Hcut in Hr2.
    exists (String c t), (r2 ++ r1).
    split; [reflexivity |]. split; [| split; [now apply beforeFirst_clean |]].
    + rewrite <- (append_assoc (String c t) r2 r1), <- Hr2, <- Hr1. exact Hsplit.
    + destruct (includes (String c t) KEY_CLAUSES_MARKER) eqn:Hc; [| reflexivity].
      apply includes_iff in Hc. destruct Hc as (p & q & Hc).
      assert (Hocc : includes (split_1 KEY_CLAUSES_MARKER (summary a)) KEY_CLAUSES_MARKER
                     = true).
      { apply includes_iff. exists p, (q ++ r2). rewrite Hr2, Hc.
        now rewrite !append_assoc. }
      congruence.
Qed.

End ExtractFacts.

Lemma clause_extract_is_cut_from_summary_witness :
  ClausesTab.clausesTab
    {| summary := "Overview. " ++ ClausesTab.KEY_CLAUSES_MARKER ++ " Rent is due monthly.";
       key_clauses := []; risk_assessment := None |}
  = ClausesTab.ClauseExtract " Rent is due monthly.".
Proof.
  destruct (clause_extract_is_cut_from_summary
              {| summary := "Overview. " ++ ClausesTab.KEY_CLAUSES_MARKER
                            ++ " Rent is due monthly.";
                 key_clauses := []; risk_assessment := None |} eq_refl)
    as [_ Hshown].
  destruct (Hshown eq_refl) as (shown & rest & Htab & _).
  rewrite Htab. vm_compute in Htab. injection Htab as <-. reflexivity.
Defined.

(** ** The spinner of the analysis view *)

Section SpinnerFacts.

Import DocumentAnalysis Schedule.

Lemma inFlightOf_in (v : nat) (l : list (nat * nat)) :
  0 < inFlightOf v l <-> exists c, In (c, v) l.
Proof.
  unfold inFlightOf. induction l as [|[c u] l IH]; simpl.
  - split; [lia | intros [c []]].
  - destruct (Nat.eqb_spec v u) as [-> | Hne]; simpl.
    + split; [intros _; exists c; now left | lia].
    + rewrite IH. split; intros [c' H]; exists c'; [now right |].
      destruct H as [H | H]; [injection H as _ H; congruence | exact H].
Qed.

(** X22.  The spinner tells the truth.  However a document is opened,
    re-opened and analysed again, and in whatever order the requests settle,
    the view on display shows "Analyzing document..." exactly while an
    analysis request of its own is in flight; no view ever has two in
    flight; and whenever the "Analyze Document" button is rendered, the view
    has none. *)
Theorem spinner_matches_requests (doc : Document) (events : list Event) (w : World)
  (Hrun : run doc start events = Some w) :
  (isAnalyzing (ui w) = true <-> exists call, In (call, view w) (inFlight w))
  /\ (forall v, inFlightOf v (inFlight w) <= 1)
  /\ (buttonRendered (ui w) = true -> forall call, ~ In (call, view w) (inFlight w)).
Proof.
  destruct (one_request_in_flight_per_view doc events start w start_consistent Hrun)
    as [(_ & _ & Hcur & _) Hone].
  assert (Hiff : isAnalyzing (ui w) = true <-> exists call, In (call, view w) (inFlight w)).
  { rewrite <- inFlightOf_in, Hcur. destruct (isAnalyzing (ui w)); split; (lia || congruence). }
  split; [exact Hiff | split; [exact Hone |]].
  intros Hbutton call Hin. unfold buttonRendered in Hbutton.
  apply andb_true_iff in Hbutton as [Hnot _]. apply negb_true_iff in Hnot.
  assert (isAnalyzing (ui w) = true) by (apply Hiff; now exists call). congruence.
Qed.

End SpinnerFacts.

Lemma spinner_matches_requests_witness :
  exists w,
    Schedule.run Examples.uploaded_lease Schedule.start
      [Schedule.Open; Schedule.Settle 0 (Rejected "timeout"); Schedule.ClickAnalyze]
    = Some w
    /\ DocumentAnalysis.isAnalyzing (Schedule.ui w) = true
    /\ Schedule.inFlight w = [(1, 1)].
Proof.
  eexists. split; [reflexivity |]. split; [| reflexivity].
  apply (proj1 (spinner_matches_requests Examples.uploaded_lease
                  [Schedule.Open; Schedule.Settle 0 (Rejected "timeout");
                   Schedule.ClickAnalyze] _ eq_refl)).
  exists 1. now left.
Defined.
